(** * sharding-demo: the shard controller of [controller.py]

    A shallow embedding of the [ShardHandler] class: the catalog
    ([mapping], a Python dict kept as an insertion-ordered association
    list), the persisted catalog document ([mapping.json]), the shard
    files under [data/] (a finite map from shard key to file content),
    and the methods that partition, replicate and reconcile them.

    Methods that touch the handler or the disk run in a small
    state-and-exception monad: a Python exception aborts the method and
    leaves behind every side effect made before it was raised. *)

From Stdlib Require Import ZArith String Ascii List Lia DecimalString DecimalNat.
From stdpp Require Import base gmap strings list.

Open Scope string_scope.
Open Scope list_scope.

(** ** Python exceptions and results *)

Inductive exn : Type :=
| ValueError
| TypeError
| NameError
| KeyError
| IndexError
| ZeroDivisionError
| FileNotFoundError
| SameFileError.

Inductive result (A : Type) : Type :=
| Ok (a : A)
| Raise (e : exn).
Arguments Ok {A} a.
Arguments Raise {A} e.

Definition rbind {A B} (r : result A) (k : A -> result B) : result B :=
  match r with
  | Ok a => k a
  | Raise e => Raise e
  end.

(** ** Python sequences: slices, [range], [sorted], [max] *)

Section Sequences.
Context {A : Type}.

(** Normalisation of one slice bound against a sequence of length [n]:
    negative bounds count from the end, everything is clamped to [0..n]. *)
Definition slice_bound (n i : Z) : Z :=
  if (i <? 0)%Z then Z.max (i + n) 0 else Z.min i n.

(** [l[i:j]] *)
Definition py_slice (l : list A) (i j : Z) : list A :=
  let n := Z.of_nat (length l) in
  let a := slice_bound n i in
  let b := slice_bound n j in
  take (Z.to_nat (b - a)) (drop (Z.to_nat a) l).

(** [l[i:]] *)
Definition py_slice_from (l : list A) (i : Z) : list A :=
  drop (Z.to_nat (slice_bound (Z.of_nat (length l)) i)) l.

(** [res[-1] += x] on a list of sequences; [IndexError] on an empty list. *)
Definition append_to_last (res : list (list A)) (x : list A) : result (list (list A)) :=
  match res with
  | [] => Raise IndexError
  | _ => Ok (removelast res ++ [List.last res [] ++ x])
  end.

(** [sorted(l)] for a total order given by [leb] (insertion sort; Python's
    sort is stable, and so is this one). *)
Fixpoint sorted_insert (leb : A -> A -> bool) (x : A) (l : list A) : list A :=
  match l with
  | [] => [x]
  | y :: l' => if leb x y then x :: y :: l' else y :: sorted_insert leb x l'
  end.

Definition sorted (leb : A -> A -> bool) (l : list A) : list A :=
  fold_right (sorted_insert leb) [] l.

(** [enumerate(l)] *)
Definition enumerate (l : list A) : list (nat * A) :=
  combine (seq 0 (length l)) l.
End Sequences.

(** [range(count)] for an [int] count: empty when [count <= 0]. *)
Definition range (count : Z) : list Z :=
  map Z.of_nat (seq 0 (Z.to_nat count)).

(** [range(a, b)] on naturals. *)
Definition range2 (a b : nat) : list nat := seq a (b - a).

(** [max(l)] on a list of naturals; [ValueError] on an empty list. *)
Definition py_max (l : list nat) : result nat :=
  match l with
  | [] => Raise ValueError
  | x :: l' => Ok (fold_left Nat.max l' x)
  end.

(** ** The partitioner: [_generate_sharded_data]

    The method does not use [self]; it works on any Python sequence that
    can be sliced and concatenated, here a list. [divmod] on [int] is
    floor division, which is what [Z.div] and [Z.modulo] compute. *)

Definition _generate_sharded_data {A} (count : Z) (data : list A)
  : result (list (list A)) :=
  if (count =? 0)%Z then Raise ZeroDivisionError
  else
    let splicenum := (Z.of_nat (length data) / count)%Z in
    let rem := (Z.of_nat (length data) mod count)%Z in
    let res :=
      map (fun z => py_slice data (splicenum * z) (splicenum * (z + 1)))
          (range count) in
    if (0 <? rem)%Z then append_to_last res (py_slice_from data (- rem))
    else Ok res.

(** ** Shard keys: the string operations the controller uses *)

Definition dash : ascii := "-"%char.

(** ['-' in key] *)
Fixpoint has_dash (s : string) : bool :=
  match s with
  | "" => false
  | String c s' => if Ascii.eqb c dash then true else has_dash s'
  end.

(** [key.split('-')]: always a non-empty list of dash-free pieces. *)
Fixpoint split_dash (s : string) : list string :=
  match s with
  | "" => [""]
  | String c s' =>
      if Ascii.eqb c dash then "" :: split_dash s'
      else match split_dash s' with
           | [] => [String c ""]
           | piece :: rest => String c piece :: rest
           end
  end.

(** [key.index('-')]; [None] stands for the [ValueError] of a missing dash. *)
Fixpoint index_dash (s : string) : option nat :=
  match s with
  | "" => None
  | String c s' =>
      if Ascii.eqb c dash then Some 0 else S <$> index_dash s'
  end.

(** [key[:n]] *)
Definition str_prefix (n : nat) (s : string) : string := substring 0 n s.

(** [l[i]] on a list, [IndexError] out of range. *)
Definition py_index {A} (l : list A) (i : nat) : result A :=
  match l !! i with
  | Some a => Ok a
  | None => Raise IndexError
  end.

(** [str(n)] for a non-negative [int]: its decimal numeral. *)
Definition str (n : nat) : string :=
  NilEmpty.string_of_uint (Nat.to_uint n).

(** An instance of [int(s)] on the unsigned decimal numerals: the empty
    string and any string with a character that is not a digit raise
    [ValueError] ([None]); leading zeros are accepted. *)
Definition int_of_digits (s : string) : option nat :=
  match s with
  | "" => None
  | _ => Nat.of_uint <$> NilEmpty.uint_of_string s
  end.

(** ** Python dicts: insertion-ordered association lists with unique keys *)

Section Dict.
Context {K} `{EqDecision K} {V : Type}.

Definition dict : Type := list (K * V).

(** [d.get(k)] *)
Fixpoint dict_get (k : K) (d : dict) : option V :=
  match d with
  | [] => None
  | (k', v) :: d' => if decide (k = k') then Some v else dict_get k d'
  end.

(** [d[k] = v]: an existing key keeps its position, a new one goes last. *)
Fixpoint dict_set (k : K) (v : V) (d : dict) : dict :=
  match d with
  | [] => [(k, v)]
  | (k', v') :: d' =>
      if decide (k = k') then (k, v) :: d' else (k', v') :: dict_set k v d'
  end.

(** the dict left by [d.pop(k)] *)
Fixpoint dict_remove (k : K) (d : dict) : dict :=
  match d with
  | [] => []
  | (k', v') :: d' =>
      if decide (k = k') then dict_remove k d' else (k', v') :: dict_remove k d'
  end.

(** [d.keys()], in iteration order *)
Definition dict_keys (d : dict) : list K := map fst d.
End Dict.
Arguments dict : clear implicits.


(** ** The handler and the disk

    [mapping] and [last_char_position] are the attributes of the
    [ShardHandler] object. [mapfile] is the document [mapping.json]
    ([None] while the file does not exist) and [shard_files] maps a shard
    key [k] to the content of [data/k.txt]; a key outside its domain has
    no file. File contents are Python strings, kept as lists of
    characters. *)

Record Range : Type := mkRange { start : Z; end_ : Z }.

Record ShardHandler : Type := mkHandler {
  mapping : dict string Range;
  last_char_position : Z;
  mapfile : option (dict string Range);
  shard_files : gmap string (list ascii)
}.

Definition with_mapping (m : dict string Range) (s : ShardHandler) : ShardHandler :=
  mkHandler m (last_char_position s) (mapfile s) (shard_files s).

Definition with_last_char_position (p : Z) (s : ShardHandler) : ShardHandler :=
  mkHandler (mapping s) p (mapfile s) (shard_files s).

Definition with_mapfile (f : option (dict string Range)) (s : ShardHandler) : ShardHandler :=
  mkHandler (mapping s) (last_char_position s) f (shard_files s).

Definition with_shard_files (fs : gmap string (list ascii)) (s : ShardHandler) : ShardHandler :=
  mkHandler (mapping s) (last_char_position s) (mapfile s) fs.

(** ** The monad of methods *)

Definition M (A : Type) : Type := ShardHandler -> result A * ShardHandler.

Definition ret {A} (a : A) : M A := fun s => (Ok a, s).

Definition raise {A} (e : exn) : M A := fun s => (Raise e, s).

Definition bind {A B} (c : M A) (k : A -> M B) : M B :=
  fun s =>
    match c s with
    | (Ok a, s') => k a s'
    | (Raise e, s') => (Raise e, s')
    end.

Definition lift {A} (r : result A) : M A := fun s => (r, s).

Definition gets {A} (f : ShardHandler -> A) : M A := fun s => (Ok (f s), s).

Definition modify (f : ShardHandler -> ShardHandler) : M unit := fun s => (Ok tt, f s).

Notation "'let!' x ':=' c 'in' k" := (bind c (fun x => k))
  (at level 10, x name, c at level 100, k at level 200).
Notation "c '>>' k" := (bind c (fun _ => k))
  (at level 100, k at level 200, right associativity).

(** [for x in l: body(x)] *)
Fixpoint for_each {A} (l : list A) (body : A -> M unit) : M unit :=
  match l with
  | [] => ret tt
  | x :: l' => body x >> for_each l' body
  end.

(** A loop that also carries local variables [acc] from one iteration to
    the next. *)
Fixpoint for_fold {A B} (l : list A) (acc : B) (body : B -> A -> M B) : M B :=
  match l with
  | [] => ret acc
  | x :: l' => let! acc' := body acc x in for_fold l' acc' body
  end.

(** The same for a loop body that touches neither the handler nor the disk. *)
Fixpoint fold_result {A B} (l : list A) (acc : B) (body : B -> A -> result B) : result B :=
  match l with
  | [] => Ok acc
  | x :: l' => rbind (body acc x) (fun acc' => fold_result l' acc' body)
  end.

(** [[f(x) for x in l]] where [f] may raise. *)
Fixpoint map_result {A B} (f : A -> result B) (l : list A) : result (list B) :=
  match l with
  | [] => Ok []
  | x :: l' => rbind (f x) (fun y => rbind (map_result f l') (fun ys => Ok (y :: ys)))
  end.

(** ** Files

    The directory [data/] is taken to exist: [_write_shard] creates it
    before the first file is written, and every other method opens files
    in it only after some shard has been written. *)

(** The shard files are opened in text mode. Reading with
    [open(path, 'r')] translates the line endings ['\r\n'] and ['\r']
    to ['\n'] (universal newlines); writing with [open(path, 'w')]
    leaves the characters as they are where the line separator of the
    platform is ['\n'], and [shutil.copyfile] copies the bytes. The
    files hold the characters that were written. *)
Definition CR : ascii := "013"%char.
Definition LF : ascii := "010"%char.

Fixpoint universal_newlines (l : list ascii) : list ascii :=
  match l with
  | [] => []
  | c :: rest =>
      if Ascii.eqb c CR then
        LF :: match rest with
              | c' :: rest' =>
                  if Ascii.eqb c' LF then universal_newlines rest'
                  else universal_newlines rest
              | [] => []
              end
      else c :: universal_newlines rest
  end.

(** [open(path, 'r').read()] *)
Definition read_file (key : string) : M (list ascii) :=
  fun s =>
    match shard_files s !! key with
    | Some c => (Ok (universal_newlines c), s)
    | None => (Raise FileNotFoundError, s)
    end.

(** [open(path, 'w').write(data)] *)
Definition write_file (key : string) (data : list ascii) : M unit :=
  modify (fun s => with_shard_files (<[key := data]> (shard_files s)) s).

(** [os.remove(path)] *)
Definition remove_file (key : string) : M unit :=
  fun s =>
    match shard_files s !! key with
    | Some _ => (Ok tt, with_shard_files (delete key (shard_files s)) s)
    | None => (Raise FileNotFoundError, s)
    end.

(** [shutil.copyfile(source, destination)]. The source is [None] for the
    empty path [''], which names no file. Copying an existing file onto
    itself raises [SameFileError]. *)
Definition copyfile (source : option string) (destination : string) : M unit :=
  fun s =>
    match source with
    | None => (Raise FileNotFoundError, s)
    | Some src =>
        match shard_files s !! src with
        | None => (Raise FileNotFoundError, s)
        | Some c =>
            if decide (src = destination) then (Raise SameFileError, s)
            else (Ok tt, with_shard_files (<[destination := c]> (shard_files s)) s)
        end
    end.

(** The response of [get_shard_data]: the mapping itself, or one of the
    two formatted strings, kept with the values that are formatted into
    them. *)
Inductive shard_data : Type :=
| AllShardData (m : dict string Range)
| InvalidShardID (valid_ids : list string)
| ShardInfo (shardnum : string) (data : Range).

(** What [sync_replication] records per primary in its local [files] dict.
    [all_keys] is a Python set: kept without duplicates, and the order in
    which it is iterated has no effect on the outcome, since every copy
    of one primary reads the same source. [filename] is [None] for ['']
    and otherwise the key whose file it names. *)
Record file_group : Type := mkGroup {
  all_keys : list string;
  filename : option string;
  max_rep : nat
}.

Definition set_add (k : string) (l : list string) : list string :=
  if bool_decide (k ∈ l) then l else l ++ [k].

Definition set_remove (k : string) (l : list string) : list string :=
  List.filter (fun k' => negb (bool_decide (k = k'))) l.

(** [collections.defaultdict(int)]: reading a missing key gives 0. *)
Definition dd_get (k : nat) (d : dict nat nat) : nat :=
  default 0 (dict_get k d).

(** ** The methods of [ShardHandler]

    [int] is Python's builtin. The controller only applies it to strings
    without a dash (pieces of [split('-')], keys filtered by
    ['-' not in key], and [str(num)] of a list index), on which it never
    returns a negative number; [None] stands for its [ValueError]. The
    methods are parametric in it, and the theorems assume of it only that
    it reads back what [str] prints. *)

Section Methods.
Variable py_int : string -> option nat.

Definition int (s : string) : result nat :=
  match py_int s with
  | Some n => Ok n
  | None => Raise ValueError
  end.

Definition write_map : M unit :=
  modify (fun s => with_mapfile (Some (mapping s)) s).

Definition load_map : M (dict string Range) :=
  gets (fun s => match mapfile s with
                 | None => []
                 | Some m => m
                 end).

Definition _reset_char_position : M unit :=
  modify (with_last_char_position 0).

Definition get_shard_ids_of (m : dict string Range) : list string :=
  sorted String.leb (List.filter (fun key => negb (has_dash key)) (dict_keys m)).

Definition get_replication_ids_of (m : dict string Range) : list string :=
  sorted String.leb (List.filter has_dash (dict_keys m)).

Definition get_shard_ids : M (list string) :=
  gets (fun s => get_shard_ids_of (mapping s)).

Definition get_replication_ids : M (list string) :=
  gets (fun s => get_replication_ids_of (mapping s)).

Definition _write_shard_mapping (num : string) (data : list ascii) (replication : bool)
  : M unit :=
  if replication then
    let! i := lift (match index_dash num with
                    | Some i => Ok i
                    | None => Raise ValueError
                    end) in
    let! parent_shard := gets (fun s => dict_get (str_prefix i num) (mapping s)) in
    match parent_shard with
    | None => raise TypeError
    | Some parent =>
        modify (fun s =>
          with_mapping (dict_set num (mkRange (start parent) (end_ parent)) (mapping s)) s)
    end
  else
    let! n := lift (int num) in
    (if Nat.eqb n 0 then _reset_char_position else ret tt) >>
    modify (fun s =>
      let p := last_char_position s in
      with_mapping
        (dict_set num
           (mkRange (if (p =? 0)%Z then p else (p + 1)%Z)
                    (p + Z.of_nat (length data))%Z)
           (mapping s)) s) >>
    modify (fun s =>
      with_last_char_position (last_char_position s + Z.of_nat (length data))%Z s).

(** The [data] directory exists as soon as it holds a file, so the
    [os.mkdir] guard leaves no trace in [shard_files]. *)
Definition _write_shard (num : nat) (data : list ascii) : M unit :=
  write_file (str num) data >>
  _write_shard_mapping (str num) data false.

(** [for num, d in enumerate(spliced_data): self._write_shard(num, d)],
    the loop that [build_shards], [add_shard] and [remove_shard] share. *)
Definition write_shards (spliced_data : list (list ascii)) : M unit :=
  for_each (enumerate spliced_data) (fun nd => _write_shard (fst nd) (snd nd)).

Definition build_shards (count : Z) (data : list ascii) : M (option string) :=
  let! m := gets mapping in
  match m with
  | _ :: _ => ret (Some "Cannot build shard setup -- sharding already exists.")
  | [] =>
      let! spliced_data := lift (_generate_sharded_data count data) in
      write_shards spliced_data >>
      write_map >>
      ret None
  end.

Definition load_data_from_shards : M (list ascii) :=
  let! ids := get_shard_ids in
  let! res := for_fold ids []
                (fun res db => let! c := read_file db in ret (res ++ [c])) in
  ret (concat res).

Definition get_all_shard_data : M (dict string Range) := gets mapping.

Definition get_shard_data (shardnum : option string) : M shard_data :=
  match shardnum with
  | None | Some "" => let! m := get_all_shard_data in ret (AllShardData m)
  | Some key =>
      let! data := gets (fun s => dict_get key (mapping s)) in
      match data with
      | None => let! ids := get_shard_ids in ret (InvalidShardID ids)
      | Some d => ret (ShardInfo key d)
      end
  end.

(** [[int(z) for z in self.get_shard_ids()]] followed by [keys.sort()] *)
Definition sorted_int_shard_ids : M (list nat) :=
  let! ids := get_shard_ids in
  let! keys := lift (map_result int ids) in
  ret (sorted Nat.leb keys).

(** The scan of [sync_replication] over one catalog key: [acc] is the
    pair of the local [files] dict and the local [max_rep]; [on_disk] is
    [os.path.exists] of the key's file. *)
Definition sync_scan_key (on_disk : string -> bool)
    (acc : dict string file_group * nat) (key : string)
  : result (dict string file_group * nat) :=
  let files := fst acc in
  let max_rep0 := snd acc in
  rbind
    (if has_dash key then
       rbind (py_index (split_dash key) 0) (fun primary =>
       rbind (py_index (split_dash key) 1) (fun piece =>
       rbind (int piece) (fun secondary =>
       Ok (primary, secondary, Nat.max max_rep0 secondary))))
     else Ok (key, 0, max_rep0))
    (fun '(primary, secondary, max_rep1) =>
       let g0 := match dict_get primary files with
                 | Some g => g
                 | None => mkGroup [] None secondary
                 end in
       let g1 := mkGroup (set_add key (all_keys g0)) (filename g0)
                         (Nat.max (max_rep g0) secondary) in
       let g2 := if on_disk key
                 then mkGroup (set_remove key (all_keys g1)) (Some key) (max_rep g1)
                 else g1 in
       Ok (dict_set primary g2 files, max_rep1)).

(** The second loop of [sync_replication], for one primary: a catalog
    entry for every replica index the primary lacks below the global
    maximum. *)
Definition sync_fill_primary (max_rep0 : nat)
    (files : dict string file_group) (primary : string)
  : M (dict string file_group) :=
  match dict_get primary files with
  | None => raise KeyError
  | Some g =>
      for_fold (range2 (max_rep g + 1) (max_rep0 + 1)) files
        (fun files secondary =>
           let num := primary +:+ "-" +:+ str secondary in
           let files' :=
             match dict_get primary files with
             | Some g' =>
                 dict_set primary
                   (mkGroup (set_add num (all_keys g')) (filename g') (max_rep g')) files
             | None => files
             end in
           _write_shard_mapping num [] true >>
           ret files')
  end.

(** The third loop of [sync_replication], for one primary. *)
Definition sync_copy_primary (files : dict string file_group) (primary : string)
  : M unit :=
  match dict_get primary files with
  | None => raise KeyError
  | Some g => for_each (all_keys g) (fun key => copyfile (filename g) key)
  end.

Definition sync_replication : M unit :=
  let! m := load_map in
  modify (with_mapping m) >>
  let! on_disk := gets (fun s key => bool_decide (is_Some (shard_files s !! key))) in
  let! scanned := lift (fold_result (dict_keys m) ([], 0) (sync_scan_key on_disk)) in
  let max_rep0 := snd scanned in
  let! files := for_fold (dict_keys (fst scanned)) (fst scanned)
                  (sync_fill_primary max_rep0) in
  for_each (dict_keys files) (sync_copy_primary files) >>
  write_map.

Definition add_shard : M unit :=
  let! m := load_map in
  modify (with_mapping m) >>
  let! data := load_data_from_shards in
  let! keys := sorted_int_shard_ids in
  let! top := lift (py_max keys) in
  let new_shard_num := Z.of_nat (top + 2) in
  let! spliced_data := lift (_generate_sharded_data new_shard_num data) in
  write_shards spliced_data >>
  write_map >>
  sync_replication.

Definition remove_shard : M unit :=
  let! data := load_data_from_shards in
  let! m := load_map in
  modify (with_mapping m) >>
  let! all := get_all_shard_data in
  let! firsts := lift (map_result
                         (fun key_ => rbind (py_index (split_dash key_) 0) int)
                         (dict_keys all)) in
  let! max_key := lift (py_max firsts) in
  let! end_shard := get_shard_data (Some (str max_key)) in
  let! popped := gets (fun s => dict_get (str max_key) (mapping s)) in
  match popped with
  | None => raise KeyError
  | Some _ =>
      modify (fun s => with_mapping (dict_remove (str max_key) (mapping s)) s) >>
      let! keys := sorted_int_shard_ids in
      let! top := lift (py_max keys) in
      let new_shard_num := Z.of_nat (top + 1) in
      let! spliced_data := lift (_generate_sharded_data new_shard_num data) in
      remove_file (str max_key) >>
      write_shards spliced_data >>
      write_map >>
      sync_replication
  end.

(** The lines that [add_replication] and [remove_replication] share: the
    highest replica index per shard id, in a [defaultdict(int)] filled
    from the primaries first and from the replica keys next. *)
Definition replication_levels : M (dict nat nat) :=
  let! keys := sorted_int_shard_ids in
  let! shard_num := lift (py_max keys) in
  let key_rep :=
    fold_left (fun d keyi => dict_set keyi (Nat.max (dd_get keyi d) 0) d) keys [] in
  let! rids := get_replication_ids in
  let! pairs := lift (map_result
                        (fun i => match split_dash i with
                                  | [a; b] => rbind (int a) (fun x =>
                                              rbind (int b) (fun y => Ok (x, y)))
                                  | _ => Raise ValueError
                                  end) rids) in
  ret (fold_left (fun d ij => dict_set (fst ij) (Nat.max (dd_get (fst ij) d) (snd ij)) d)
                 pairs key_rep).

Definition add_replication : M unit :=
  let! m := load_map in
  modify (with_mapping m) >>
  let! key_rep := replication_levels in
  let! data := load_data_from_shards in
  for_each key_rep (fun kv =>
    let num := str (fst kv) +:+ "-" +:+ str (snd kv + 1) in
    _write_shard_mapping num data true) >>
  let! m' := gets mapping in
  for_each (dict_keys m') (fun key =>
    if has_dash key then
      write_file key [] >>
      let! i := lift (match index_dash key with
                      | Some i => Ok i
                      | None => Raise ValueError
                      end) in
      copyfile (Some (str_prefix i key)) key
    else ret tt) >>
  write_map >>
  sync_replication.

(** The body of the loop of [remove_replication] over [key_rep], for the
    entry [kv] of a shard id and its level. *)
Definition remove_top_replica (kv : nat * nat) : M unit :=
  if Nat.eqb (snd kv) 0 then raise NameError
  else
    let shard := str (fst kv) +:+ "-" +:+ str (snd kv) in
    remove_file shard >>
    let! popped := gets (fun s => dict_get shard (mapping s)) in
    match popped with
    | None => raise KeyError
    | Some _ => modify (fun s => with_mapping (dict_remove shard (mapping s)) s)
    end.

Definition remove_replication : M unit :=
  let! m := load_map in
  modify (with_mapping m) >>
  let! key_rep := replication_levels in
  for_each key_rep remove_top_replica >>
  write_map >>
  sync_replication.

End Methods.

(** [ShardHandler()]: a handler over a given disk. *)
Definition new_handler (mf : option (dict string Range)) (fs : gmap string (list ascii))
  : ShardHandler :=
  mkHandler (match mf with None => [] | Some m => m end) 0 mf fs.

(** ** Vocabulary of the specification *)

(** A replica key as [sync_replication] builds it: the primary's key, a
    dash and the index. *)
Definition replica_key (primary : string) (secondary : nat) : string :=
  primary +:+ "-" +:+ str secondary.

(** The catalog a later call would load from disk. *)
Definition persisted (s : ShardHandler) : dict string Range :=
  match mapfile s with
  | None => []
  | Some m => m
  end.

(** A key has a shard file. *)
Definition on_disk (s : ShardHandler) (key : string) : Prop :=
  is_Some (shard_files s !! key).

(** [os.path.exists] of every shard file, as [sync_replication] sees it. *)
Definition disk_of (s : ShardHandler) (key : string) : bool :=
  bool_decide (is_Some (shard_files s !! key)).

(** A well-formed shard key: the numeral of a primary id, or the replica
    key of a primary id and an index of at least 1. *)
Definition shard_key (k : string) : Prop :=
  exists n, k = str n \/ exists j, 0 < j /\ k = replica_key (str n) j.

(** Shard [n] has a replica of index [j] in the catalog [m]. *)
Definition has_replica (m : dict string Range) (n j : nat) : Prop :=
  replica_key (str n) j ∈ dict_keys m.

(** A consistent state: every key of the persisted catalog is a
    well-formed shard key and has its file, and the catalog holds a
    primary. *)
Record consistent (s : ShardHandler) : Prop := mkConsistent {
  consistent_keys : forall k, k ∈ dict_keys (persisted s) -> shard_key k;
  consistent_files : forall k, k ∈ dict_keys (persisted s) -> on_disk s k;
  consistent_primary : exists n, str n ∈ dict_keys (persisted s)
}.

(** One step of the two loops that fill [key_rep]. *)
Definition level_step (d : dict nat nat) (ij : nat * nat) : dict nat nat :=
  dict_set (fst ij) (Nat.max (dd_get (fst ij) d) (snd ij)) d.

(** The replica keys that [remove_replication] has removed after the
    entries [done] of [key_rep]. *)
Definition removed (done : list (nat * nat)) : list string :=
  map (fun nl => replica_key (str (fst nl)) (snd nl)) done.

(** The state of the loop of [remove_replication], started in [s1], after
    the entries [done]: the removed keys have neither a catalog entry
    nor a file, and nothing else has changed. *)
Record removal_inv (s1 : ShardHandler) (done : list (nat * nat))
    (s : ShardHandler) : Prop := mkRemovalInv {
  removal_mapfile : mapfile s = mapfile s1;
  removal_position : last_char_position s = last_char_position s1;
  removal_mapping : forall k,
    dict_get k (mapping s)
    = if bool_decide (k ∈ removed done) then None else dict_get k (mapping s1);
  removal_files : forall k,
    shard_files s !! k
    = if bool_decide (k ∈ removed done) then None else shard_files s1 !! k
}.

Section Vocabulary.
Variable py_int : string -> option nat.

(** The primary id and the replica index that [sync_replication] reads
    off a catalog key: [(key, 0)] for a key without a dash, else the
    first piece of [split('-')] and [int] of the second. *)
Definition key_parse (key : string) : result (string * nat) :=
  if has_dash key then
    rbind (py_index (split_dash key) 0) (fun primary =>
    rbind (py_index (split_dash key) 1) (fun piece =>
    rbind (int py_int piece) (fun secondary => Ok (primary, secondary))))
  else Ok (key, 0).

Definition key_level (key : string) : nat :=
  match key_parse key with
  | Ok (_, secondary) => secondary
  | Raise _ => 0
  end.

(** What the scan of [sync_replication] knows after the keys [ks]: every
    key read has its group, a group's [max_rep] is the index of one of its
    keys and bounds the others, [all_keys] holds the group's keys that
    have no file, and the global maximum is 0 or the index of some key. *)
Definition scan_inv (disk : string -> bool) (ks : list string)
    (files : dict string file_group) (max_rep0 : nat) : Prop :=
  (forall k, k ∈ ks ->
     exists p j g, key_parse k = Ok (p, j) /\ dict_get p files = Some g /\
                   j <= max_rep g /\ (disk k = false -> k ∈ all_keys g)) /\
  (forall p g, dict_get p files = Some g ->
     has_dash p = false /\ max_rep g <= max_rep0 /\
     (exists k, k ∈ ks /\ key_parse k = Ok (p, max_rep g)) /\
     (forall k, k ∈ all_keys g -> k ∈ ks /\ disk k = false)) /\
  (max_rep0 = 0 \/ exists k p, k ∈ ks /\ key_parse k = Ok (p, max_rep0)).

(** Replica [j] of primary [p] is one the second loop is to add: [p]
    has a group, and [j] lies above the group's highest index, up to the
    global maximum. *)
Definition missing (files : dict string file_group) (max_rep0 : nat)
    (p : string) (j : nat) : Prop :=
  exists g, dict_get p files = Some g /\ max_rep g < j <= max_rep0.

(** A key that [sync_replication] may add to the catalog [m]: a replica
    key whose index is at most the index of some key of [m]. *)
Definition new_replica (m : dict string Range) (k : string) : Prop :=
  exists p j k0 p0 j0,
    k = replica_key p j /\ has_dash p = false /\ j <= j0 /\
    k0 ∈ dict_keys m /\ key_parse k0 = Ok (p0, j0).

(** What a call of [sync_replication] from [s] has done by the time it
    ends in [s'], whether it returns or raises: the catalog entries it
    loaded are all there, unchanged; no file is gone; and what is new is
    a replica key, or a file of a catalog key or of such a replica key. *)
Definition sync_grows (s s' : ShardHandler) : Prop :=
  last_char_position s' = last_char_position s /\
  (forall k v, dict_get k (persisted s) = Some v -> dict_get k (mapping s') = Some v) /\
  (forall k, on_disk s k -> on_disk s' k) /\
  (forall k, k ∈ dict_keys (mapping s') ->
     k ∈ dict_keys (persisted s) \/ new_replica (persisted s) k) /\
  (forall k, on_disk s' k ->
     on_disk s k \/ k ∈ dict_keys (persisted s) \/ new_replica (persisted s) k).

(** What holds in addition when it returns: the catalog is persisted,
    it holds the loaded keys and the missing replicas, and each of its
    keys has a file. *)
Definition sync_returned (s s' : ShardHandler) : Prop :=
  exists fd G,
    scan_inv (disk_of s) (dict_keys (persisted s)) fd G /\
    mapfile s' = Some (mapping s') /\
    (forall k, k ∈ dict_keys (mapping s') <->
       k ∈ dict_keys (persisted s) \/ exists p j, missing fd G p j /\ k = replica_key p j) /\
    (forall k, k ∈ dict_keys (mapping s') -> on_disk s' k).

(** The exceptions that [sync_replication] can raise. *)
Definition sync_exn (e : exn) : Prop :=
  e = ValueError \/ e = TypeError \/ e = FileNotFoundError \/ e = SameFileError.

(** [remove_replication] from [s] has gone through all of [key_rep]:
    every level was positive, the top replicas were removed (state
    [s3]), the catalog was persisted and [sync_replication] ran, to
    return or to raise. *)
Definition removal_done (s : ShardHandler) (key_rep : dict nat nat)
    (s' : ShardHandler) : Prop :=
  (forall n lvl, (n, lvl) ∈ key_rep -> 0 < lvl) /\
  exists s3,
    removal_inv (with_mapping (persisted s) s) key_rep s3 /\
    sync_grows (with_mapfile (Some (mapping s3)) s3) s' /\
    (persisted s' = mapping s' \/ persisted s' = mapping s3).

(** [remove_replication] from [s] has stopped at an entry of level 0,
    after the entries [done] before it. *)
Definition removal_refused (s : ShardHandler) (key_rep : dict nat nat)
    (s' : ShardHandler) : Prop :=
  exists done n rest,
    key_rep = done ++ (n, 0) :: rest /\
    removal_inv (with_mapping (persisted s) s) done s' /\
    forall n' lvl, (n', lvl) ∈ done -> 0 < lvl.

(** The replication level of a catalog: the highest replica index among
    its keys, 0 when it has no replica key. *)
Definition replication_level (m : dict string Range) : nat :=
  fold_right Nat.max 0 (map key_level (dict_keys m)).
End Vocabulary.

(** Weakest precondition of a method call: [Q] is to hold of the value
    and the state when the call returns, [E] of the exception and the
    state when it raises. *)
Definition wp {A} (c : M A) (Q : A -> ShardHandler -> Prop)
    (E : exn -> ShardHandler -> Prop) (s : ShardHandler) : Prop :=
  match c s with
  | (Ok a, s') => Q a s'
  | (Raise e, s') => E e s'
  end.

(** The state of the second loop of [sync_replication], started in [s1]
    with the scanned groups [fd], once the replicas [added] have been
    written: the disk is untouched, the local [files] differ from [fd] by
    the added keys only, and the catalog holds the added keys on top of
    its entries in [s1], which are unchanged. *)
Record fill_inv (s1 : ShardHandler) (fd : dict string file_group)
    (added : string -> nat -> Prop)
    (fl : dict string file_group) (s : ShardHandler) : Prop := mkFillInv {
  fill_shard_files : shard_files s = shard_files s1;
  fill_mapfile : mapfile s = mapfile s1;
  fill_position : last_char_position s = last_char_position s1;
  fill_keys : dict_keys fl = dict_keys fd;
  fill_groups : forall p g, dict_get p fd = Some g ->
    exists g', dict_get p fl = Some g' /\ max_rep g' = max_rep g /\
               filename g' = filename g /\
               forall k, k ∈ all_keys g' <->
                         k ∈ all_keys g \/ exists j, added p j /\ k = replica_key p j;
  fill_mapping_keys : forall k, k ∈ dict_keys (mapping s) <->
    k ∈ dict_keys (mapping s1) \/ exists p j, added p j /\ k = replica_key p j;
  fill_mapping_get : forall k v,
    dict_get k (mapping s1) = Some v -> dict_get k (mapping s) = Some v
}.

(** The state of the third loop of [sync_replication], started in [s2]
    with the local [files] being [fl]: only files change, none is lost,
    and a new one belongs to a key of some group's [all_keys]. *)
Record copy_inv (fl : dict string file_group) (s2 s : ShardHandler) : Prop := mkCopyInv {
  copy_mapping : mapping s = mapping s2;
  copy_mapfile : mapfile s = mapfile s2;
  copy_position : last_char_position s = last_char_position s2;
  copy_keeps : forall k, on_disk s2 k -> on_disk s k;
  copy_only : forall k, on_disk s k ->
    on_disk s2 k \/ exists p g, dict_get p fl = Some g /\ k ∈ all_keys g
}.

(** The content of the primaries [0 .. count-1], concatenated in
    ascending numeric id order; [None] when one of the files is missing. *)
Definition primaries_in_id_order (count : nat) (s : ShardHandler) : option (list ascii) :=
  match mapM (fun n => shard_files s !! str n) (seq 0 count) with
  | Some contents => Some (concat contents)
  | None => None
  end.

(** ** Scenarios *)

Definition chars (s : string) : list ascii := list_ascii_of_string s.

(** A handler created in an empty directory. *)
Definition fresh : ShardHandler := new_handler None ∅.

(** The handler after a method call, whatever the call returned. *)
Definition after {A} (c : M A) (s : ShardHandler) : ShardHandler := snd (c s).

(** The outcome of a method call. *)
Definition outcome {A} (c : M A) (s : ShardHandler) : result A := fst (c s).

(** [build_shards(4, "AAAABBBBCCCCDDDD")] *)
Definition built_4x4 : ShardHandler :=
  after (build_shards int_of_digits 4 (chars "AAAABBBBCCCCDDDD")) fresh.

(** Eleven one-character shards. *)
Definition built_11 : ShardHandler :=
  after (build_shards int_of_digits 11 (chars "ABCDEFGHIJK")) fresh.

(** Ten shards over the same eleven characters. *)
Definition built_10 : ShardHandler :=
  after (build_shards int_of_digits 10 (chars "ABCDEFGHIJK")) fresh.

(** One shard, one level of replication, then a second shard. *)
Definition replicated_then_grown : ShardHandler :=
  after (add_shard int_of_digits)
    (after (add_replication int_of_digits)
       (after (build_shards int_of_digits 1 (chars "AB")) fresh)).

(** Two shards with one level of replication. *)
Definition two_replicated : ShardHandler :=
  after (add_replication int_of_digits)
    (after (build_shards int_of_digits 2 (chars "AB")) fresh).

(** A disk on which shard 0 has a replica and shard 1 has none. *)
Definition uneven : ShardHandler :=
  new_handler
    (Some [("0", mkRange 0 1); ("0-1", mkRange 0 1); ("1", mkRange 2 2)])
    (list_to_map [("0", chars "A"); ("0-1", chars "A"); ("1", chars "B")]).

(** ** Vocabulary for the shard manager *)

(** The state that [_write_shard(num, data)] leaves: the file is written,
    the position is reset for shard 0, the range is recorded from the
    position and the position is advanced by the length of the data. *)
Definition after_write_shard (num : nat) (data : list ascii) (s : ShardHandler)
  : ShardHandler :=
  let p := if Nat.eqb num 0 then 0%Z else last_char_position s in
  mkHandler
    (dict_set (str num)
       (mkRange (if (p =? 0)%Z then p else (p + 1)%Z) (p + Z.of_nat (length data))%Z)
       (mapping s))
    (p + Z.of_nat (length data))%Z
    (mapfile s)
    (<[str num := data]> (shard_files s)).

(** The ranges recorded for the segments [segs] when the position is [p]
    before the first of them. *)
Fixpoint recorded_ranges (p : Z) (segs : list (list ascii)) : list Range :=
  match segs with
  | [] => []
  | d :: rest =>
      mkRange (if (p =? 0)%Z then p else (p + 1)%Z) (p + Z.of_nat (length d))%Z
      :: recorded_ranges (p + Z.of_nat (length d))%Z rest
  end.

(** The catalog of the primaries [0 .. len(segs) - 1]. *)
Definition primary_catalog (segs : list (list ascii)) : dict string Range :=
  combine (map str (seq 0 (length segs))) (recorded_ranges 0 segs).

(** The state after [for num, d in enumerate(segs): self._write_shard(num, d)]. *)
Definition shards_written (segs : list (list ascii)) (s : ShardHandler) : ShardHandler :=
  fold_left (fun s nd => after_write_shard (fst nd) (snd nd) s) (enumerate segs) s.

(** The number of characters in a list of segments. *)
Definition total_length (segs : list (list ascii)) : Z :=
  Z.of_nat (length (concat segs)).

(** The state that [build_shards] leaves when it has written the
    segments [segs] from the state [s]: the shards are written and the
    catalog is persisted. *)
Definition built_from (segs : list (list ascii)) (s : ShardHandler) : ShardHandler :=
  with_mapfile (Some (mapping (shards_written segs s))) (shards_written segs s).

(** What the scan of [sync_replication] knows of the sources and the
    destinations of its copies after the keys [ks]: a group's [filename]
    names a key read that has a file and belongs to the group, the keys
    of [all_keys] belong to the group, and a group one of whose keys has
    a file has a [filename]. *)
Definition scan_src (py_int : string -> option nat) (disk : string -> bool)
    (ks : list string) (files : dict string file_group) : Prop :=
  forall p g, dict_get p files = Some g ->
    (forall src, filename g = Some src ->
       src ∈ ks /\ disk src = true /\ exists j, key_parse py_int src = Ok (p, j)) /\
    (forall k, k ∈ all_keys g -> exists j, key_parse py_int k = Ok (p, j)) /\
    (forall k j, k ∈ ks -> key_parse py_int k = Ok (p, j) -> disk k = true ->
       is_Some (filename g)).

(** The files during the third loop of [sync_replication], started in
    [s2] with the local [files] being [fl]: a file is as it was, or it
    is a destination and holds what its group's source held. *)
Definition copied (fl : dict string file_group) (s2 s : ShardHandler) : Prop :=
  forall k, shard_files s !! k = shard_files s2 !! k \/
    exists p g src, dict_get p fl = Some g /\ k ∈ all_keys g /\ filename g = Some src /\
                    is_Some (shard_files s2 !! src) /\
                    shard_files s !! k = shard_files s2 !! src.

(** The files after a call of [sync_replication] from [s]: a file is as
    it was, or it is not the file of a catalog key that had one, and it
    holds what a file of a catalog key of the same shard held. *)
Definition sync_copies (py_int : string -> option nat) (s s' : ShardHandler) : Prop :=
  forall k, shard_files s' !! k = shard_files s !! k \/
    exists src p j j0,
      src ∈ dict_keys (persisted s) /\ key_parse py_int src = Ok (p, j0) /\
      key_parse py_int k = Ok (p, j) /\
      ~ (k ∈ dict_keys (persisted s) /\ on_disk s k) /\
      is_Some (shard_files s !! src) /\
      shard_files s' !! k = shard_files s !! src.

(** A disk on which primary 0 is lost and its replica 0-1 is left. *)
Definition lost_primary : ShardHandler :=
  new_handler
    (Some [("0", mkRange 0 2); ("0-1", mkRange 0 2)])
    (list_to_map [("0-1", chars "AB")]).

(** A disk on which the only shard is lost. *)
Definition lost_shard : ShardHandler :=
  new_handler (Some [("0", mkRange 0 2)]) ∅.

(** The catalog [m] against the catalog [m0] it was made from: an entry
    of [m] is an entry of [m0], or it is the entry of a replica key and
    holds the range that [m0] has for the key's primary. *)
Definition mirrors (m0 m : dict string Range) : Prop :=
  forall k v, dict_get k m = Some v ->
    dict_get k m0 = Some v \/
    exists p j, has_dash p = false /\ k = replica_key p j /\ dict_get p m0 = Some v.
(** * The partitioner *)

Section Partition.
Context {A : Type}.
Implicit Types (data : list A) (count q : Z).

Lemma slice_bound_inside (n i : Z) :
  (0 <= i <= n)%Z -> slice_bound n i = i.
Proof.
  intros Hi. unfold slice_bound.
  destruct (Z.ltb_spec i 0); lia.
Qed.

Lemma py_slice_inside data (a b : nat) :
  a <= b <= length data ->
  py_slice data (Z.of_nat a) (Z.of_nat b) = take (b - a) (drop a data).
Proof.
  intros Hab. unfold py_slice.
  rewrite !slice_bound_inside by lia.
  f_equal; [lia|]. f_equal. lia.
Qed.

Lemma py_slice_from_tail data (r : nat) :
  0 < r <= length data ->
  py_slice_from data (- Z.of_nat r) = drop (length data - r) data.
Proof.
  intros Hr. unfold py_slice_from, slice_bound.
  destruct (Z.ltb_spec (- Z.of_nat r) 0); [|lia].
  f_equal. lia.
Qed.

(** The first [k] slices of width [q] tile the first [q * k] elements. *)
Lemma concat_slices data (q k : nat) :
  q * k <= length data ->
  concat (map (fun z => py_slice data (Z.of_nat q * z) (Z.of_nat q * (z + 1)))
              (map Z.of_nat (seq 0 k)))
  = take (q * k) data.
Proof.
  induction k as [|k IH]; intros Hk.
  - rewrite Nat.mul_0_r. reflexivity.
  - rewrite seq_S, !map_app, concat_app, IH by lia.
    cbn [map concat Nat.add]. rewrite app_nil_r.
    replace (Z.of_nat q * Z.of_nat k)%Z with (Z.of_nat (q * k)) by lia.
    replace (Z.of_nat q * (Z.of_nat k + 1))%Z with (Z.of_nat (q * k + q)) by lia.
    rewrite py_slice_inside by lia.
    replace (q * k + q - q * k) with q by lia.
    rewrite take_take_drop. f_equal. lia.
Qed.

Lemma append_to_last_snoc (res : list (list A)) (a x : list A) :
  append_to_last (res ++ [a]) x = Ok (res ++ [a ++ x]).
Proof.
  unfold append_to_last.
  destruct (res ++ [a]) eqn:E; [destruct res; discriminate|].
  rewrite <- E, removelast_last, last_last. reflexivity.
Qed.

Lemma append_to_last_spec (res : list (list A)) (x : list A) :
  res <> [] ->
  exists res', append_to_last res x = Ok res' /\
               length res' = length res /\
               concat res' = concat res ++ x.
Proof.
  intros Hne. destruct (exists_last Hne) as (l & a & ->).
  exists (l ++ [a ++ x]). split; [apply append_to_last_snoc|]. split.
  - rewrite !length_app. reflexivity.
  - rewrite !concat_app. cbn [concat].
    rewrite !app_nil_r, app_assoc. reflexivity.
Qed.

(** C4. For every sequence [data] and every [count >= 1],
    [_generate_sharded_data count data] returns exactly [count] segments
    and their concatenation, in order, is [data]: this covers a count
    above the length of the data and a zero remainder alike. *)
Theorem generate_sharded_data_round_trip data count :
  (1 <= count)%Z ->
  exists segments,
    _generate_sharded_data count data = Ok segments /\
    length segments = Z.to_nat count /\
    concat segments = data.
Proof.
  intros Hcount. unfold _generate_sharded_data.
  destruct (Z.eqb_spec count 0) as [|_]; [lia|].
  set (n := Z.of_nat (length data)).
  assert (Hdiv : n = (count * (n / count) + n mod count)%Z)
    by (apply Z.div_mod; lia).
  assert (Hrem : (0 <= n mod count < count)%Z) by (apply Z.mod_pos_bound; lia).
  assert (Hquo : (0 <= n / count)%Z) by (apply Z.div_pos; lia).
  set (q := Z.to_nat (n / count)).
  set (k := Z.to_nat count).
  set (r := Z.to_nat (n mod count)).
  assert (Hlen : length data = q * k + r) by lia.
  replace (n / count)%Z with (Z.of_nat q) by lia.
  assert (Hres : concat (map (fun z => py_slice data (Z.of_nat q * z) (Z.of_nat q * (z + 1)))
                             (range count)) = take (q * k) data)
    by (apply concat_slices; lia).
  destruct (Z.ltb_spec 0 (n mod count)) as [Hpos|Hzero].
  - destruct (append_to_last_spec
                (map (fun z => py_slice data (Z.of_nat q * z) (Z.of_nat q * (z + 1)))
                     (range count))
                (py_slice_from data (- (n mod count))))
      as (res' & Hres' & Hlen' & Hcat).
    { unfold range. destruct (Z.to_nat count) eqn:E; [lia|]. discriminate. }
    exists res'. split; [exact Hres'|]. split.
    + rewrite Hlen'. unfold range. rewrite !length_map, length_seq. reflexivity.
    + rewrite Hcat, Hres.
      replace (n mod count)%Z with (Z.of_nat r) by lia.
      rewrite py_slice_from_tail by lia.
      replace (length data - r) with (q * k) by lia.
      apply take_drop.
  - eexists. split; [reflexivity|]. split.
    + unfold range. rewrite !length_map, length_seq. reflexivity.
    + rewrite Hres. apply take_ge. lia.
Qed.
End Partition.

(** An instance: seventeen characters in four segments. *)
Lemma generate_sharded_data_round_trip_witness :
  exists segments,
    _generate_sharded_data 4 (list_ascii_of_string "AAAABBBBCCCCDDDDE") = Ok segments /\
    length segments = Z.to_nat 4 /\
    concat segments = list_ascii_of_string "AAAABBBBCCCCDDDDE".
Proof. apply generate_sharded_data_round_trip. lia. Defined.

(** * Strings and keys *)

Lemma append_cons (c : ascii) (a b : string) :
  String c a +:+ b = String c (a +:+ b).
Proof. reflexivity. Qed.

Lemma append_empty (b : string) : "" +:+ b = b.
Proof. reflexivity. Qed.

Lemma has_dash_append (a b : string) :
  has_dash (a +:+ b) = has_dash a || has_dash b.
Proof.
  induction a as [|c a IH]; [reflexivity|].
  rewrite append_cons. cbn.
  destruct (Ascii.eqb c dash); [reflexivity|exact IH].
Qed.

Lemma uint_no_dash (d : Decimal.uint) :
  has_dash (NilEmpty.string_of_uint d) = false.
Proof. induction d; cbn; assumption || reflexivity. Qed.

Lemma str_no_dash (n : nat) : has_dash (str n) = false.
Proof. apply uint_no_dash. Qed.

Lemma split_dash_no_dash (s : string) :
  has_dash s = false -> split_dash s = [s].
Proof.
  induction s as [|c s IH]; cbn; [reflexivity|].
  destruct (Ascii.eqb c dash); [discriminate|].
  intros H. rewrite (IH H). reflexivity.
Qed.

Lemma split_dash_append (p q : string) :
  has_dash p = false ->
  split_dash (p +:+ String dash q) = p :: split_dash q.
Proof.
  induction p as [|c p IH]; [|rewrite append_cons]; cbn.
  - intros _. reflexivity.
  - destruct (Ascii.eqb c dash); [discriminate|].
    intros H. rewrite (IH H). reflexivity.
Qed.

Lemma split_dash_head (s : string) :
  exists piece rest, split_dash s = piece :: rest /\ has_dash piece = false.
Proof.
  induction s as [|c s (piece & rest & E & H)]; cbn.
  - eauto.
  - destruct (Ascii.eqb c dash) eqn:Ec; [eauto|].
    rewrite E. exists (String c piece), rest. cbn. rewrite Ec. auto.
Qed.

Lemma split_dash_two (s : string) :
  has_dash s = true ->
  exists piece second rest, split_dash s = piece :: second :: rest.
Proof.
  induction s as [|c s IH]; cbn; [discriminate|].
  destruct (Ascii.eqb c dash).
  - intros _. destruct (split_dash_head s) as (piece & rest & E & _).
    rewrite E. eauto.
  - intros H. destruct (IH H) as (piece & second & rest & E).
    rewrite E. eauto.
Qed.

Lemma index_dash_append (p q : string) :
  has_dash p = false ->
  index_dash (p +:+ String dash q) = Some (String.length p).
Proof.
  induction p as [|c p IH]; [|rewrite append_cons]; cbn.
  - intros _. reflexivity.
  - destruct (Ascii.eqb c dash); [discriminate|].
    intros H. rewrite (IH H). reflexivity.
Qed.

Lemma str_prefix_append (p q : string) :
  str_prefix (String.length p) (p +:+ q) = p.
Proof.
  unfold str_prefix. induction p as [|c p IH]; [|rewrite append_cons]; cbn.
  - destruct q; reflexivity.
  - rewrite IH. reflexivity.
Qed.

Lemma replica_key_has_dash primary secondary :
  has_dash (replica_key primary secondary) = true.
Proof.
  unfold replica_key. rewrite has_dash_append, append_cons. cbn. apply orb_true_r.
Qed.

Lemma replica_key_parent primary secondary :
  has_dash primary = false ->
  exists i, index_dash (replica_key primary secondary) = Some i /\
            str_prefix i (replica_key primary secondary) = primary.
Proof.
  intros H. exists (String.length primary). unfold replica_key.
  rewrite append_cons, append_empty. split.
  - apply index_dash_append, H.
  - apply str_prefix_append.
Qed.

Section Keys.
Variable py_int : string -> option nat.
Hypothesis py_int_str : forall n, py_int (str n) = Some n.

Lemma str_inj (a b : nat) : str a = str b -> a = b.
Proof.
  intros E. assert (H := py_int_str a). rewrite E, py_int_str in H. congruence.
Qed.

Lemma key_parse_no_dash key :
  has_dash key = false -> key_parse py_int key = Ok (key, 0).
Proof. intros H. unfold key_parse. rewrite H. reflexivity. Qed.

Lemma key_parse_replica_key primary secondary :
  has_dash primary = false ->
  key_parse py_int (replica_key primary secondary) = Ok (primary, secondary).
Proof.
  intros H. unfold key_parse. rewrite replica_key_has_dash.
  unfold replica_key. rewrite append_cons, append_empty.
  rewrite split_dash_append, (split_dash_no_dash (str secondary)) by (auto using str_no_dash).
  cbn. unfold int. rewrite py_int_str. reflexivity.
Qed.

Lemma key_parse_primary key primary secondary :
  key_parse py_int key = Ok (primary, secondary) -> has_dash primary = false.
Proof.
  unfold key_parse. destruct (has_dash key) eqn:Hk.
  - destruct (split_dash_head key) as (piece & rest & E & Hp).
    rewrite E. cbn. destruct (py_index (piece :: rest) 1); cbn; [|discriminate].
    destruct (int py_int a); cbn; [|discriminate]. congruence.
  - congruence.
Qed.

Lemma key_parse_raises key e :
  key_parse py_int key = Raise e -> e = ValueError.
Proof.
  unfold key_parse. destruct (has_dash key) eqn:Hk; [|discriminate].
  destruct (split_dash_two key Hk) as (piece & second & rest & E).
  rewrite E. cbn. unfold int. destruct (py_int second); cbn; congruence.
Qed.

Lemma replica_key_inj p1 j1 p2 j2 :
  has_dash p1 = false -> has_dash p2 = false ->
  replica_key p1 j1 = replica_key p2 j2 -> p1 = p2 /\ j1 = j2.
Proof.
  intros H1 H2 E.
  assert (P1 := key_parse_replica_key p1 j1 H1).
  rewrite E, key_parse_replica_key in P1 by assumption.
  split; congruence.
Qed.
End Keys.

(** * Dicts *)

Section DictFacts.
Context {K} `{EqDecision K} {V : Type}.
Implicit Types (d : dict K V) (k : K) (v : V).

Lemma dict_get_set_eq k v d : dict_get k (dict_set k v d) = Some v.
Proof.
  induction d as [|[k' v'] d IH]; cbn.
  - destruct (decide (k = k)); congruence.
  - destruct (decide (k = k')) as [->|Hne]; cbn.
    + destruct (decide (k' = k')); congruence.
    + destruct (decide (k = k')); [contradiction|exact IH].
Qed.

Lemma dict_get_set_ne k k' v d :
  k <> k' -> dict_get k' (dict_set k v d) = dict_get k' d.
Proof.
  intros Hne. induction d as [|[k0 v0] d IH]; cbn.
  - destruct (decide (k' = k)); congruence.
  - destruct (decide (k = k0)) as [->|Hk]; cbn.
    + destruct (decide (k' = k0)); congruence.
    + destruct (decide (k' = k0)); [reflexivity|exact IH].
Qed.

Lemma dict_get_keys k d : is_Some (dict_get k d) <-> k ∈ dict_keys d.
Proof.
  induction d as [|[k' v'] d IH]; cbn.
  - split; [intros [? ?]; discriminate|intros H; inversion H].
  - destruct (decide (k = k')) as [->|Hne].
    + split; [intros _; apply list_elem_of_here|eauto].
    + rewrite IH. split; [apply list_elem_of_further|].
      intros H. inversion H; subst; [contradiction|assumption].
Qed.

Lemma dict_get_None_keys k d : dict_get k d = None <-> k ∉ dict_keys d.
Proof.
  rewrite <- dict_get_keys. destruct (dict_get k d) as [v|].
  - split; [discriminate|]. intros H. destruct H. eauto.
  - split; [|reflexivity]. intros _ [? ?]. discriminate.
Qed.

Lemma dict_keys_set k k' v d :
  k' ∈ dict_keys (dict_set k v d) <-> k' = k \/ k' ∈ dict_keys d.
Proof.
  rewrite <- !dict_get_keys.
  destruct (decide (k = k')) as [->|Hne].
  - rewrite dict_get_set_eq. split; eauto.
  - rewrite dict_get_set_ne by assumption. split; [auto|].
    intros [->|H]; [contradiction|assumption].
Qed.

(** Writing to a key the dict already has keeps the iteration order. *)
Lemma dict_keys_set_present k v d :
  k ∈ dict_keys d -> dict_keys (dict_set k v d) = dict_keys d.
Proof.
  induction d as [|[k' v'] d IH]; cbn; intros Hin.
  - inversion Hin.
  - destruct (decide (k = k')) as [->|Hne]; cbn; [reflexivity|].
    f_equal. apply IH. inversion Hin; subst; [contradiction|assumption].
Qed.

Lemma dict_get_remove_eq k d : dict_get k (dict_remove k d) = None.
Proof.
  induction d as [|[k' v'] d IH]; cbn; [reflexivity|].
  destruct (decide (k = k')); cbn; [exact IH|].
  destruct (decide (k = k')); [contradiction|exact IH].
Qed.

Lemma dict_get_remove_ne k k' d :
  k <> k' -> dict_get k' (dict_remove k d) = dict_get k' d.
Proof.
  intros Hne. induction d as [|[k0 v0] d IH]; cbn; [reflexivity|].
  destruct (decide (k = k0)) as [->|Hk]; cbn.
  - destruct (decide (k' = k0)); [congruence|exact IH].
  - destruct (decide (k' = k0)); [reflexivity|exact IH].
Qed.
End DictFacts.

(** * Sorting *)

Lemma sorted_insert_elem {A} (leb : A -> A -> bool) (x y : A) (l : list A) :
  y ∈ sorted_insert leb x l <-> y = x \/ y ∈ l.
Proof.
  induction l as [|z l IH]; cbn.
  - rewrite list_elem_of_singleton. split; [auto|]. intros [H|H]; [auto|inversion H].
  - destruct (leb x z).
    + rewrite !elem_of_cons. tauto.
    + rewrite !elem_of_cons, IH. tauto.
Qed.

Lemma sorted_elem {A} (leb : A -> A -> bool) (y : A) (l : list A) :
  y ∈ sorted leb l <-> y ∈ l.
Proof.
  induction l as [|x l IH]; cbn; [reflexivity|].
  rewrite sorted_insert_elem, elem_of_cons, IH. reflexivity.
Qed.

Lemma get_shard_ids_elem (m : dict string Range) (id : string) :
  id ∈ get_shard_ids_of m <-> id ∈ dict_keys m /\ has_dash id = false.
Proof.
  unfold get_shard_ids_of. rewrite sorted_elem, list_elem_of_In, filter_In.
  rewrite <- list_elem_of_In, negb_true_iff. reflexivity.
Qed.

Lemma get_replication_ids_elem (m : dict string Range) (id : string) :
  id ∈ get_replication_ids_of m <-> id ∈ dict_keys m /\ has_dash id = true.
Proof.
  unfold get_replication_ids_of. rewrite sorted_elem, list_elem_of_In, filter_In.
  rewrite <- list_elem_of_In. reflexivity.
Qed.

(** * Queries *)

(** C9, amended. [get_shard_data] of a non-empty key that the catalog
    does not hold returns the "Invalid shard ID" response, and the ids it
    lists are those of [get_shard_ids]: the catalog keys without a dash,
    so no replica id is among them. *)
Theorem get_shard_data_unknown (s : ShardHandler) (key : string) :
  key <> "" ->
  dict_get key (mapping s) = None ->
  get_shard_data (Some key) s
    = (Ok (InvalidShardID (get_shard_ids_of (mapping s))), s) /\
  (forall id, id ∈ get_shard_ids_of (mapping s) ->
     id ∈ dict_keys (mapping s) /\ id ∉ get_replication_ids_of (mapping s)).
Proof.
  intros Hkey Hget. split.
  - destruct key as [|c key]; [congruence|].
    unfold get_shard_data, bind, gets, get_shard_ids, ret. rewrite Hget. reflexivity.
  - intros id Hid. apply get_shard_ids_elem in Hid as [Hin Hdash].
    split; [assumption|].
    rewrite get_replication_ids_elem. intros [_ H]. congruence.
Qed.

(** An instance: the key 7 in the catalog of [uneven]. *)
Lemma get_shard_data_unknown_witness :
  get_shard_data (Some "7") uneven
    = (Ok (InvalidShardID (get_shard_ids_of (mapping uneven))), uneven) /\
  (forall id, id ∈ get_shard_ids_of (mapping uneven) ->
     id ∈ dict_keys (mapping uneven) /\ id ∉ get_replication_ids_of (mapping uneven)).
Proof.
  apply (get_shard_data_unknown uneven "7"); [discriminate | reflexivity].
Defined.

(** * Reasoning about methods *)

Section WpRules.
Context {A B : Type}.
Implicit Types (Q : A -> ShardHandler -> Prop) (E : exn -> ShardHandler -> Prop).

Lemma wp_raise (e : exn) Q E s : E e s -> wp (@raise A e) Q E s.
Proof. intros H. exact H. Qed.

Lemma wp_lift (r : result A) Q E s :
  match r with Ok a => Q a s | Raise e => E e s end -> wp (lift r) Q E s.
Proof. intros H. exact H. Qed.

Lemma wp_gets (f : ShardHandler -> A) Q E s : Q (f s) s -> wp (gets f) Q E s.
Proof. intros H. exact H. Qed.

Lemma wp_bind (c : M A) (k : A -> M B) (Q : B -> ShardHandler -> Prop) E s :
  wp c (fun a => wp (k a) Q E) E s -> wp (bind c k) Q E s.
Proof.
  unfold wp, bind. destruct (c s) as [[a|e] s']; intros H; exact H.
Qed.

Lemma wp_mono (c : M A) Q Q' E E' s :
  (forall a s', Q a s' -> Q' a s') ->
  (forall e s', E e s' -> E' e s') ->
  wp c Q E s -> wp c Q' E' s.
Proof.
  unfold wp. intros HQ HE. destruct (c s) as [[a|e] s']; auto.
Qed.

End WpRules.

Lemma wp_modify (f : ShardHandler -> ShardHandler) Q E s :
  Q tt (f s) -> wp (modify f) Q E s.
Proof. intros H. exact H. Qed.

(** A loop establishes its invariant for the whole list when each
    iteration extends it by the element it handles. *)
Lemma wp_for_each {A} (l : list A) (body : A -> M unit)
    (I : list A -> ShardHandler -> Prop) (E : exn -> ShardHandler -> Prop) :
  (forall done x rest s, l = done ++ x :: rest -> I done s ->
     wp (body x) (fun _ => I (done ++ [x])) E s) ->
  forall s, I [] s -> wp (for_each l body) (fun _ => I l) E s.
Proof.
  intros Hbody.
  assert (Hgen : forall rest done s, l = done ++ rest -> I done s ->
                   wp (for_each rest body) (fun _ => I l) E s).
  { induction rest as [|x rest IH]; intros done s Hl HI.
    - rewrite app_nil_r in Hl. subst. exact HI.
    - cbn [for_each]. apply wp_bind.
      eapply wp_mono; [| |apply (Hbody done x rest s Hl HI)]; [|auto].
      intros u s' HI'. cbn beta in HI'. apply (IH (done ++ [x])); [|exact HI'].
      rewrite <- app_assoc. exact Hl. }
  intros s HI. apply (Hgen l [] s); [reflexivity|exact HI].
Qed.

Lemma wp_for_fold {A B} (l : list A) (body : B -> A -> M B)
    (I : list A -> B -> ShardHandler -> Prop) (E : exn -> ShardHandler -> Prop) :
  (forall done x rest acc s, l = done ++ x :: rest -> I done acc s ->
     wp (body acc x) (I (done ++ [x])) E s) ->
  forall acc s, I [] acc s -> wp (for_fold l acc body) (I l) E s.
Proof.
  intros Hbody.
  assert (Hgen : forall rest done acc s, l = done ++ rest -> I done acc s ->
                   wp (for_fold rest acc body) (I l) E s).
  { induction rest as [|x rest IH]; intros done acc s Hl HI.
    - rewrite app_nil_r in Hl. subst. exact HI.
    - cbn [for_fold]. apply wp_bind.
      eapply wp_mono; [| |apply (Hbody done x rest acc s Hl HI)]; [|auto].
      intros acc' s' HI'. apply (IH (done ++ [x])); [|exact HI'].
      rewrite <- app_assoc. exact Hl. }
  intros acc s HI. apply (Hgen l [] acc s); [reflexivity|exact HI].
Qed.

(** The same for a loop without effects. *)
Lemma fold_result_inv {A B} (l : list A) (body : B -> A -> result B)
    (I : list A -> B -> Prop) :
  (forall done x acc acc', I done acc -> body acc x = Ok acc' -> I (done ++ [x]) acc') ->
  forall acc acc', I [] acc -> fold_result l acc body = Ok acc' -> I l acc'.
Proof.
  intros Hbody.
  assert (Hgen : forall rest done acc acc', I done acc ->
                   fold_result rest acc body = Ok acc' -> I (done ++ rest) acc').
  { induction rest as [|x rest IH]; intros done acc acc' HI Hf; cbn in Hf.
    - rewrite app_nil_r. congruence.
    - destruct (body acc x) as [acc1|e] eqn:Hb; cbn in Hf; [|discriminate].
      replace (done ++ x :: rest) with ((done ++ [x]) ++ rest)
        by (rewrite <- app_assoc; reflexivity).
      eapply IH; [|exact Hf]. eapply Hbody; eauto. }
  intros acc acc' HI Hf. apply (Hgen l [] acc acc' HI Hf).
Qed.

Lemma fold_result_raises {A B} (l : list A) (body : B -> A -> result B) (P : exn -> Prop) :
  (forall acc x e, body acc x = Raise e -> P e) ->
  forall acc e, fold_result l acc body = Raise e -> P e.
Proof.
  intros Hbody. induction l as [|x l IH]; intros acc e Hf; cbn in Hf; [discriminate|].
  destruct (body acc x) as [acc1|e1] eqn:Hb; cbn in Hf.
  - eapply IH, Hf.
  - inversion Hf; subst. eapply Hbody, Hb.
Qed.

Lemma fold_result_total {A B} (l : list A) (body : B -> A -> result B) :
  (forall acc x, x ∈ l -> exists acc', body acc x = Ok acc') ->
  forall acc, exists acc', fold_result l acc body = Ok acc'.
Proof.
  induction l as [|x l IH]; intros Hbody acc; cbn; [eauto|].
  destruct (Hbody acc x) as [acc1 ->]; [apply list_elem_of_here|]. cbn.
  apply IH. intros acc0 y Hy. apply Hbody. apply list_elem_of_further, Hy.
Qed.

(** * Python sets as lists *)

Lemma set_add_elem (x k : string) (l : list string) :
  k ∈ set_add x l <-> k = x \/ k ∈ l.
Proof.
  unfold set_add. destruct (bool_decide (x ∈ l)) eqn:Hx.
  - apply bool_decide_eq_true in Hx. split; [auto|]. intros [->|H]; assumption.
  - rewrite elem_of_app, list_elem_of_singleton. tauto.
Qed.

Lemma set_remove_elem (x k : string) (l : list string) :
  k ∈ set_remove x l <-> k <> x /\ k ∈ l.
Proof.
  unfold set_remove. rewrite list_elem_of_In, filter_In, <- list_elem_of_In.
  rewrite negb_true_iff, bool_decide_eq_false. split; intros [H1 H2]; split; auto.
Qed.

(** * Reconciliation: the scan *)

Section Scan.
Variable py_int : string -> option nat.
Hypothesis py_int_str : forall n, py_int (str n) = Some n.
Variable disk : string -> bool.

Lemma sync_scan_key_parse files max_rep0 key :
  sync_scan_key py_int disk (files, max_rep0) key
  = rbind (key_parse py_int key) (fun pj =>
      let g0 := match dict_get (fst pj) files with
                | Some g => g
                | None => mkGroup [] None (snd pj)
                end in
      let g1 := mkGroup (set_add key (all_keys g0)) (filename g0)
                        (Nat.max (max_rep g0) (snd pj)) in
      let g2 := if disk key
                then mkGroup (set_remove key (all_keys g1)) (Some key) (max_rep g1)
                else g1 in
      Ok (dict_set (fst pj) g2 files, Nat.max max_rep0 (snd pj))).
Proof.
  unfold sync_scan_key, key_parse. cbn [fst snd].
  destruct (has_dash key).
  - destruct (py_index (split_dash key) 0) as [primary|]; cbn [rbind]; [|reflexivity].
    destruct (py_index (split_dash key) 1) as [piece|]; cbn [rbind]; [|reflexivity].
    destruct (int py_int piece) as [secondary|]; cbn [rbind]; reflexivity.
  - cbn [rbind fst snd]. rewrite (Nat.max_0_r max_rep0). reflexivity.
Qed.

Lemma sync_scan_key_raises acc key e :
  sync_scan_key py_int disk acc key = Raise e -> e = ValueError.
Proof.
  destruct acc as [files max_rep0]. rewrite sync_scan_key_parse.
  destruct (key_parse py_int key) as [pj|e'] eqn:Hp; cbn; [discriminate|].
  intros H. inversion H; subst. eapply key_parse_raises, Hp.
Qed.

Lemma scan_inv_empty : scan_inv py_int disk [] [] 0.
Proof.
  split; [|split].
  - intros k Hk. inversion Hk.
  - intros p g Hg. discriminate.
  - auto.
Qed.

Lemma scan_inv_step ks files max_rep0 key files' max_rep' :
  scan_inv py_int disk ks files max_rep0 ->
  sync_scan_key py_int disk (files, max_rep0) key = Ok (files', max_rep') ->
  scan_inv py_int disk (ks ++ [key]) files' max_rep'.
Proof.
  intros (Hkeys & Hgroups & Hmax). rewrite sync_scan_key_parse.
  destruct (key_parse py_int key) as [[p j]|e] eqn:Hparse; cbn [rbind fst snd]; [|discriminate].
  intros Hstep. injection Hstep as <- <-. cbv zeta.
  assert (Hp : has_dash p = false) by (eapply key_parse_primary, Hparse).
  pose (g0 := match dict_get p files with Some g => g | None => mkGroup [] None j end).
  match goal with
  | |- scan_inv _ _ _ (dict_set _ ?G _) _ => pose (g2 := G); change G with g2
  end.
  assert (Hrep2 : max_rep g2 = Nat.max (max_rep g0) j)
    by (unfold g2, g0; destruct (disk key); reflexivity).
  assert (Hall2 : forall k, k ∈ all_keys g2 <->
                    (k = key \/ k ∈ all_keys g0) /\ (disk key = true -> k <> key)).
  { intros k. unfold g2. fold g0. destruct (disk key); cbn [all_keys].
    - rewrite set_remove_elem, set_add_elem. intuition congruence.
    - rewrite set_add_elem. intuition congruence. }
  assert (Hold : forall g, dict_get p files = Some g -> g0 = g)
    by (intros g Hg; unfold g0; rewrite Hg; reflexivity).
  assert (Hfresh : dict_get p files = None -> g0 = mkGroup [] None j)
    by (intros Hg; unfold g0; rewrite Hg; reflexivity).
  clearbody g2 g0.
  split; [|split].
  - intros k Hk. apply elem_of_app in Hk as [Hk|Hk].
    + destruct (Hkeys k Hk) as (p' & j' & g & Hpk & Hg & Hle & Hmiss).
      exists p', j'. destruct (decide (p = p')) as [<-|Hne].
      * exists g2. rewrite dict_get_set_eq, Hrep2.
        rewrite <- (Hold g Hg) in Hle, Hmiss.
        split; [assumption|]. split; [reflexivity|]. split; [lia|].
        intros Hd. apply Hall2. split; [right; auto|].
        intros Hd' ->. congruence.
      * exists g. rewrite dict_get_set_ne by assumption. auto.
    + apply list_elem_of_singleton in Hk as ->.
      exists p, j, g2. rewrite dict_get_set_eq, Hrep2.
      split; [assumption|]. split; [reflexivity|]. split; [lia|].
      intros Hd. apply Hall2. split; [auto|congruence].
  - intros p' g Hg. destruct (decide (p = p')) as [<-|Hne].
    + rewrite dict_get_set_eq in Hg. injection Hg as <-.
      rewrite Hrep2. split; [assumption|].
      destruct (dict_get p files) as [g|] eqn:Hget.
      * destruct (Hgroups p g Hget) as (_ & Hle & (k & Hk & Hpk) & Hall).
        rewrite <- (Hold g eq_refl) in Hle, Hpk, Hall.
        split; [lia|]. split.
        -- destruct (Nat.max_spec (max_rep g0) j) as [[_ ->]|[_ ->]].
           ++ exists key. split; [apply elem_of_app; right; apply list_elem_of_here|assumption].
           ++ exists k. split; [apply elem_of_app; auto|assumption].
        -- intros k' Hk'. apply Hall2 in Hk' as [[->|Hk'] Hd].
           ++ split; [apply elem_of_app; right; apply list_elem_of_here|].
              destruct (disk key); [exfalso; apply Hd; reflexivity|reflexivity].
           ++ destruct (Hall k' Hk').
              split; [apply elem_of_app; auto|assumption].
      * specialize (Hfresh eq_refl). subst g0.
        cbn [max_rep]. rewrite Nat.max_id. split; [lia|]. split.
        -- exists key. split; [apply elem_of_app; right; apply list_elem_of_here|assumption].
        -- intros k' Hk'. apply Hall2 in Hk' as [[->|Hk'] Hd].
           ++ split; [apply elem_of_app; right; apply list_elem_of_here|].
              destruct (disk key); [exfalso; apply Hd; reflexivity|reflexivity].
           ++ inversion Hk'.
    + rewrite dict_get_set_ne in Hg by assumption.
      destruct (Hgroups p' g Hg) as (Hd & Hle & (k & Hk & Hpk) & Hall).
      split; [assumption|]. split; [lia|]. split.
      * exists k. split; [apply elem_of_app; auto|assumption].
      * intros k' Hk'. destruct (Hall k' Hk'). split; [apply elem_of_app; auto|assumption].
  - destruct (Nat.max_spec max_rep0 j) as [[_ ->]|[Hle ->]].
    + right. exists key, p. split; [apply elem_of_app; right; apply list_elem_of_here|assumption].
    + destruct Hmax as [->|(k & p' & Hk & Hpk)].
      * left. reflexivity.
      * right. exists k, p'. split; [apply elem_of_app; auto|assumption].
Qed.

(** The scan, when it returns, returns what [scan_inv] describes. *)
Lemma scan_inv_fold ks files max_rep0 :
  fold_result ks ([], 0) (sync_scan_key py_int disk) = Ok (files, max_rep0) ->
  scan_inv py_int disk ks files max_rep0.
Proof.
  intros Hfold.
  apply (fold_result_inv ks (sync_scan_key py_int disk)
           (fun done acc => scan_inv py_int disk done (fst acc) (snd acc))
           ltac:(intros done x [f g] [f' g'] HI Hb; eapply scan_inv_step; eauto)
           ([], 0) (files, max_rep0) scan_inv_empty Hfold).
Qed.

(** The scan returns as soon as every key can be read. *)
Lemma scan_total ks :
  (forall k, k ∈ ks -> exists pj, key_parse py_int k = Ok pj) ->
  exists files max_rep0,
    fold_result ks ([], 0) (sync_scan_key py_int disk) = Ok (files, max_rep0).
Proof.
  intros Hks.
  destruct (fold_result_total ks (sync_scan_key py_int disk)) with (acc := ([] : dict string file_group, 0))
    as [[files max_rep0] H].
  - intros [files max_rep0] x Hx. rewrite sync_scan_key_parse.
    destruct (Hks x Hx) as [pj ->]. cbn. eauto.
  - eauto.
Qed.
End Scan.

(** * Reconciliation: the catalog entries of the missing replicas *)

Lemma fill_inv_ext s1 fd (added added' : string -> nat -> Prop) fl s :
  (forall p j, added p j <-> added' p j) ->
  fill_inv s1 fd added fl s -> fill_inv s1 fd added' fl s.
Proof.
  intros Hext [H1 H2 H3 H4 H5 H6 H7]. split; try assumption.
  - intros p g Hg. destruct (H5 p g Hg) as (g' & Hg' & Hr & Hf & Hall).
    exists g'. repeat (split; [assumption|]).
    intros k. rewrite Hall. split; (intros [H|(j & Hj & ->)]; [auto|]);
      right; exists j; split; [apply Hext| |apply Hext|]; auto.
  - intros k. rewrite H6. split; (intros [H|(p & j & Hj & ->)]; [auto|]);
      right; exists p, j; split; [apply Hext| |apply Hext|]; auto.
Qed.

Lemma range2_elem (a b j : nat) : j ∈ range2 a b <-> a <= j < b.
Proof. unfold range2. rewrite elem_of_seq. lia. Qed.

Section Fill.
Variable py_int : string -> option nat.
Hypothesis py_int_str : forall n, py_int (str n) = Some n.

(** Writing the catalog entry of a replica: the entry mirrors the
    parent's range, and a parent that the catalog lacks is a [TypeError]. *)
Lemma write_replica_mapping p j data s :
  has_dash p = false ->
  _write_shard_mapping py_int (replica_key p j) data true s
  = match dict_get p (mapping s) with
    | None => (Raise TypeError, s)
    | Some parent =>
        (Ok tt, with_mapping
                  (dict_set (replica_key p j) (mkRange (start parent) (end_ parent))
                            (mapping s)) s)
    end.
Proof.
  intros Hp. destruct (replica_key_parent p j Hp) as (i & Hi & Hpre).
  unfold _write_shard_mapping, bind, lift, gets. rewrite Hi, Hpre.
  destruct (dict_get p (mapping s)); reflexivity.
Qed.

Variable disk : string -> bool.

(** A missing replica has no catalog entry yet. *)
Lemma missing_fresh (m : dict string Range) fd G p j :
  scan_inv py_int disk (dict_keys m) fd G ->
  missing fd G p j ->
  replica_key p j ∉ dict_keys m.
Proof.
  intros (Hkeys & Hgroups & _) (g & Hg & Hlt & _) Hin.
  destruct (Hgroups p g Hg) as (Hp & _).
  destruct (Hkeys _ Hin) as (p' & j' & g' & Hparse & Hg' & Hle & _).
  rewrite (key_parse_replica_key py_int py_int_str p j Hp) in Hparse.
  injection Hparse as <- <-. rewrite Hg in Hg'. injection Hg' as <-. lia.
Qed.

Lemma missing_new_replica (m : dict string Range) fd G p j :
  scan_inv py_int disk (dict_keys m) fd G ->
  missing fd G p j ->
  new_replica py_int m (replica_key p j).
Proof.
  intros (_ & Hgroups & Hmax) (g & Hg & Hlt & Hle).
  destruct (Hgroups p g Hg) as (Hp & _).
  destruct Hmax as [->|(k0 & p0 & Hk0 & Hparse)]; [lia|].
  exists p, j, k0, p0, G. auto.
Qed.

Lemma fill_inv_start s1 fd :
  fill_inv s1 fd (fun _ _ => False) fd s1.
Proof.
  split; try reflexivity.
  - intros p g Hg. exists g. repeat (split; [reflexivity || assumption|]).
    intros k. split; [auto|]. intros [H|(j & [] & _)]. exact H.
  - intros k. split; [auto|]. intros [H|(p & j & [] & _)]. exact H.
  - auto.
Qed.

(** One iteration of the inner loop. *)
Lemma fill_step s1 fd G (added : string -> nat -> Prop) fl s p j :
  scan_inv py_int disk (dict_keys (mapping s1)) fd G ->
  (forall p' j', added p' j' -> missing fd G p' j') ->
  missing fd G p j ->
  fill_inv s1 fd added fl s ->
  wp (_write_shard_mapping py_int (replica_key p j) [] true >>
      ret (match dict_get p fl with
           | Some g' =>
               dict_set p (mkGroup (set_add (replica_key p j) (all_keys g'))
                                   (filename g') (max_rep g')) fl
           | None => fl
           end))
     (fill_inv s1 fd (fun p' j' => added p' j' \/ (p' = p /\ j' = j)))
     (fun e s' => e = TypeError /\
        exists added' fl', (forall p' j', added' p' j' -> missing fd G p' j') /\
                           fill_inv s1 fd added' fl' s')
     s.
Proof.
  intros Hscan Hadded Hmiss Hinv.
  assert (Hp : has_dash p = false).
  { destruct Hmiss as (g & Hg & _). destruct Hscan as (_ & Hgroups & _).
    apply (Hgroups p g Hg). }
  unfold wp, bind. rewrite write_replica_mapping by assumption.
  destruct (dict_get p (mapping s)) as [parent|].
  - cbn [ret].
    destruct Hinv as [H1 H2 H3 H4 H5 H6 H7].
    destruct Hmiss as (g & Hg & Hrange).
    destruct (H5 p g Hg) as (g' & Hg' & Hr & Hf & Hall).
    rewrite Hg'. split; cbn [shard_files mapfile last_char_position mapping with_mapping];
      try assumption.
    + rewrite dict_keys_set_present; [assumption|].
      apply dict_get_keys. rewrite Hg'. eauto.
    + intros p' g0 Hg0. destruct (decide (p = p')) as [<-|Hne].
      * rewrite Hg in Hg0. injection Hg0 as <-.
        eexists. rewrite dict_get_set_eq. split; [reflexivity|]. cbn [max_rep filename all_keys].
        repeat (split; [assumption|]).
        intros k. rewrite set_add_elem, Hall. split.
        -- intros [->|[H|(j' & Hj' & ->)]]; [right; exists j; auto|auto|right; exists j'; auto].
        -- intros [H|(j' & [Hj'|[_ ->]] & ->)]; [auto|right; right; eauto|auto].
      * rewrite dict_get_set_ne by assumption.
        destruct (H5 p' g0 Hg0) as (g0' & Hg0' & Hr0 & Hf0 & Hall0).
        exists g0'. repeat (split; [assumption|]).
        intros k. rewrite Hall0. split.
        -- intros [H|(j' & Hj' & ->)]; [auto|right; exists j'; auto].
        -- intros [H|(j' & [Hj'|[Hpp _]] & ->)]; [auto|right; eauto|congruence].
    + intros k. rewrite dict_keys_set, H6. split.
      * intros [->|[H|(p' & j' & Hj' & ->)]];
          [right; exists p, j; auto|auto|right; exists p', j'; auto].
      * intros [H|(p' & j' & [Hj'|[-> ->]] & ->)]; [auto|right; right; eauto|auto].
    + intros k v Hk. rewrite dict_get_set_ne; [auto|].
      intros <-. eapply missing_fresh; [exact Hscan|exists g; eauto|].
      apply dict_get_keys. rewrite Hk. eauto.
  - split; [reflexivity|]. exists added, fl. auto.
Qed.

(** The second loop of [sync_replication]. *)
Lemma fill_loop s1 fd G :
  scan_inv py_int disk (dict_keys (mapping s1)) fd G ->
  wp (for_fold (dict_keys fd) fd (sync_fill_primary py_int G))
     (fill_inv s1 fd (missing fd G))
     (fun e s' => e = TypeError /\
        exists added' fl', (forall p' j', added' p' j' -> missing fd G p' j') /\
                           fill_inv s1 fd added' fl' s')
     s1.
Proof.
  intros Hscan.
  eapply wp_mono; [| |apply (wp_for_fold (dict_keys fd) (sync_fill_primary py_int G)
    (fun done => fill_inv s1 fd (fun p j => p ∈ done /\ missing fd G p j)))].
  - intros fl s. apply fill_inv_ext. intros p j. split; [tauto|].
    intros Hm. split; [|assumption].
    destruct Hm as (g & Hg & _). apply dict_get_keys. rewrite Hg. eauto.
  - intros e s H. exact H.
  - intros done p rest fl s Hsplit Hinv.
    assert (Hin : p ∈ dict_keys fd)
      by (rewrite Hsplit; apply elem_of_app; right; apply list_elem_of_here).
    apply dict_get_keys in Hin as [g Hg].
    destruct (fill_groups _ _ _ _ _ Hinv p g Hg) as (g' & Hg' & Hr & _).
    unfold sync_fill_primary. rewrite Hg', Hr.
    eapply wp_mono; [| |apply (wp_for_fold (range2 (max_rep g + 1) (G + 1)) _
      (fun done_j => fill_inv s1 fd
         (fun p' j' => (p' ∈ done /\ missing fd G p' j') \/ (p' = p /\ j' ∈ done_j))))].
    + intros fl' s'. apply fill_inv_ext. intros p' j'.
      rewrite elem_of_app, list_elem_of_singleton, range2_elem. split.
      * intros [[H1 H2]|[-> H]]; [tauto|]. split; [auto|]. exists g. split; [assumption|lia].
      * intros [[H| ->] Hm]; [tauto|]. right. split; [reflexivity|].
        destruct Hm as (g0 & Hg0 & Hrange). rewrite Hg in Hg0. injection Hg0 as <-. lia.
    + intros e s' H. exact H.
    + intros done_j j rest_j fl' s' Hsplit_j Hinv'.
      assert (Hj : j ∈ range2 (max_rep g + 1) (G + 1))
        by (rewrite Hsplit_j; apply elem_of_app; right; apply list_elem_of_here).
      apply range2_elem in Hj.
      assert (Hmiss : missing fd G p j) by (exists g; split; [assumption|lia]).
      eapply wp_mono; [| |apply (fill_step s1 fd G
        (fun p' j' => (p' ∈ done /\ missing fd G p' j') \/ (p' = p /\ j' ∈ done_j))
        fl' s' p j Hscan)]; [| | |exact Hmiss|exact Hinv'].
      * intros fl'' s''. apply fill_inv_ext. intros p' j'.
        rewrite elem_of_app, list_elem_of_singleton. tauto.
      * intros e s'' H. exact H.
      * intros p' j' [[_ H]|[-> H]]; [assumption|].
        exists g. split; [assumption|].
        assert (Hj' : j' ∈ range2 (max_rep g + 1) (G + 1))
          by (rewrite Hsplit_j; apply elem_of_app; auto).
        apply range2_elem in Hj'. lia.
    + eapply fill_inv_ext; [|exact Hinv]. intros p' j'. split; [tauto|].
      intros [H|[_ H]]; [assumption|inversion H].
  - eapply fill_inv_ext; [|apply fill_inv_start]. intros p j. split; [tauto|].
    intros [H _]. inversion H.
Qed.
End Fill.

(** * Reconciliation: the copies *)

Lemma disk_of_true s k : disk_of s k = true <-> on_disk s k.
Proof. apply bool_decide_eq_true. Qed.

Lemma disk_of_false s k : disk_of s k = false <-> ~ on_disk s k.
Proof. apply bool_decide_eq_false. Qed.

Lemma copy_inv_refl fl s : copy_inv fl s s.
Proof. split; auto. Qed.

(** One copy: it raises and changes nothing, or it creates or
    overwrites the destination. *)
Lemma copyfile_spec fl s2 source destination s p g :
  dict_get p fl = Some g -> destination ∈ all_keys g ->
  copy_inv fl s2 s ->
  wp (copyfile source destination)
     (fun _ s' => copy_inv fl s2 s' /\ on_disk s' destination)
     (fun e s' => (e = FileNotFoundError \/ e = SameFileError) /\ copy_inv fl s2 s')
     s.
Proof.
  intros Hg Hdest Hinv. unfold wp, copyfile.
  destruct source as [src|]; [|auto].
  destruct (shard_files s !! src) as [c|]; [|auto].
  destruct (decide (src = destination)); [auto|].
  destruct Hinv as [H1 H2 H3 H4 H5]. split; [split|]; cbn; try assumption.
  - intros k Hk. unfold on_disk; cbn.
    destruct (decide (destination = k)) as [->|Hne].
    + rewrite lookup_insert_eq. eauto.
    + rewrite lookup_insert_ne by assumption. apply H4, Hk.
  - intros k. unfold on_disk at 1; cbn.
    destruct (decide (destination = k)) as [->|Hne].
    + intros _. right. eauto.
    + rewrite lookup_insert_ne by assumption. apply H5.
  - unfold on_disk; cbn. rewrite lookup_insert_eq. eauto.
Qed.

(** The third loop of [sync_replication]. *)
Lemma copy_loop fl s2 :
  wp (for_each (dict_keys fl) (sync_copy_primary fl))
     (fun _ s => copy_inv fl s2 s /\
        forall p g k, dict_get p fl = Some g -> k ∈ all_keys g -> on_disk s k)
     (fun e s => (e = FileNotFoundError \/ e = SameFileError) /\ copy_inv fl s2 s)
     s2.
Proof.
  eapply wp_mono; [| |apply (wp_for_each (dict_keys fl) (sync_copy_primary fl)
    (fun done s => copy_inv fl s2 s /\
       forall p g k, p ∈ done -> dict_get p fl = Some g -> k ∈ all_keys g -> on_disk s k))].
  - intros _ s [Hinv Hall]. split; [assumption|].
    intros p g k Hg Hk. apply (Hall p g k); [|assumption|assumption].
    apply dict_get_keys. rewrite Hg. eauto.
  - intros e s H. exact H.
  - intros done p rest s Hsplit [Hinv Hdone].
    assert (Hin : p ∈ dict_keys fl)
      by (rewrite Hsplit; apply elem_of_app; right; apply list_elem_of_here).
    apply dict_get_keys in Hin as [g Hg].
    unfold sync_copy_primary. rewrite Hg.
    eapply wp_mono; [| |apply (wp_for_each (all_keys g) (fun key => copyfile (filename g) key)
      (fun done_k s' => copy_inv fl s2 s' /\
         (forall p' g' k, p' ∈ done -> dict_get p' fl = Some g' -> k ∈ all_keys g' ->
                          on_disk s' k) /\
         (forall k, k ∈ done_k -> on_disk s' k)))].
    + intros _ s' (Hinv' & Hdone' & Hnow). split; [assumption|].
      intros p' g' k Hp' Hg' Hk. apply elem_of_app in Hp' as [Hp'|Hp'].
      * eapply Hdone'; eauto.
      * apply list_elem_of_singleton in Hp' as ->.
        rewrite Hg in Hg'. injection Hg' as <-. auto.
    + intros e s' H. exact H.
    + intros done_k k rest_k s' Hsplit_k (Hinv' & Hdone' & Hnow).
      assert (Hk : k ∈ all_keys g)
        by (rewrite Hsplit_k; apply elem_of_app; right; apply list_elem_of_here).
      unfold wp. assert (Hc := copyfile_spec fl s2 (filename g) k s' p g Hg Hk Hinv').
      unfold wp in Hc.
      assert (Hkeep : forall k', on_disk s' k' ->
                on_disk (snd (copyfile (filename g) k s')) k').
      { intros k'. unfold copyfile.
        destruct (filename g) as [src|]; [|auto].
        destruct (shard_files s' !! src) as [c|]; [|auto].
        destruct (decide (src = k)); [auto|]. unfold on_disk; cbn.
        destruct (decide (k = k')) as [->|Hne].
        - rewrite lookup_insert_eq. eauto.
        - rewrite lookup_insert_ne by assumption. auto. }
      destruct (copyfile (filename g) k s') as [[u|e] s''].
      * destruct Hc as [Hinv'' Hon]. cbn [snd] in Hkeep.
        split; [assumption|]. split.
        -- intros p' g' k' Hp' Hg' Hk'. apply Hkeep. eapply Hdone'; eauto.
        -- intros k' Hk'. apply elem_of_app in Hk' as [Hk'|Hk'].
           ++ apply Hkeep, Hnow, Hk'.
           ++ apply list_elem_of_singleton in Hk' as ->. assumption.
      * exact Hc.
    + split; [assumption|]. split; [assumption|].
      intros k Hk. inversion Hk.
  - split; [apply copy_inv_refl|]. intros p g k Hp. inversion Hp.
Qed.

(** * Reconciliation: the whole pass *)

Lemma int_of_digits_str (n : nat) : int_of_digits (str n) = Some n.
Proof.
  unfold int_of_digits, str.
  assert (Hparse := NilEmpty.usu (Nat.to_uint n)).
  destruct (NilEmpty.string_of_uint (Nat.to_uint n)) as [|c rest] eqn:Hs.
  - cbn in Hparse. injection Hparse as Hnil.
    assert (Hn := Unsigned.of_to n). rewrite <- Hnil in Hn. cbn in Hn. subst n.
    discriminate.
  - rewrite Hparse. cbn. f_equal. apply Unsigned.of_to.
Qed.

Section Reconciliation.
Variable py_int : string -> option nat.
Hypothesis py_int_str : forall n, py_int (str n) = Some n.

Lemma grows_start s : sync_grows py_int s (with_mapping (persisted s) s).
Proof.
  split; [reflexivity|]. split; [auto|]. split; [auto|]. split; auto.
Qed.

Lemma grows_from_loops s fd G (added : string -> nat -> Prop) fl s2 s3 :
  scan_inv py_int (disk_of s) (dict_keys (persisted s)) fd G ->
  (forall p j, added p j -> missing fd G p j) ->
  fill_inv (with_mapping (persisted s) s) fd added fl s2 ->
  copy_inv fl s2 s3 ->
  sync_grows py_int s s3.
Proof.
  intros Hscan Hadded [F1 F2 F3 F4 F5 F6 F7] [C1 C2 C3 C4 C5].
  cbn [shard_files mapfile last_char_position mapping with_mapping] in *.
  assert (Hdisk : forall k, on_disk s2 k <-> on_disk s k)
    by (intros k; unfold on_disk; rewrite F1; reflexivity).
  split; [congruence|]. split; [|split; [|split]].
  - intros k v Hk. rewrite C1. auto.
  - intros k Hk. apply C4, Hdisk, Hk.
  - intros k. rewrite C1, F6. intros [H|(p & j & Hj & ->)]; [auto|].
    right. eapply missing_new_replica; eauto.
  - intros k Hk. apply C5 in Hk as [Hk|(p & g' & Hg' & Hk)]; [left; apply Hdisk, Hk|].
    right. assert (Hin : p ∈ dict_keys fd).
    { rewrite <- F4. apply dict_get_keys. rewrite Hg'. eauto. }
    apply dict_get_keys in Hin as [g Hg].
    destruct (F5 p g Hg) as (g'' & Hg'' & _ & _ & Hall).
    assert (g'' = g') by congruence. subst g''.
    destruct (proj1 (Hall k) Hk) as [Hk'|(j & Hj & ->)].
    + left. destruct Hscan as (_ & Hgroups & _).
      apply (Hgroups p g Hg), Hk'.
    + right. eapply missing_new_replica; eauto.
Qed.

Lemma returned_from_loops s fd G fl s2 s3 :
  scan_inv py_int (disk_of s) (dict_keys (persisted s)) fd G ->
  fill_inv (with_mapping (persisted s) s) fd (missing fd G) fl s2 ->
  copy_inv fl s2 s3 ->
  (forall p g k, dict_get p fl = Some g -> k ∈ all_keys g -> on_disk s3 k) ->
  sync_returned py_int s (with_mapfile (Some (mapping s3)) s3).
Proof.
  intros Hscan [F1 F2 F3 F4 F5 F6 F7] [C1 C2 C3 C4 C5] Hcopied.
  cbn [shard_files mapfile last_char_position mapping with_mapping] in *.
  exists fd, G. split; [assumption|]. split; [reflexivity|].
  cbn [mapping with_mapfile]. split.
  - intros k. rewrite C1. apply F6.
  - intros k. rewrite C1, F6. unfold on_disk at 1.
    cbn [shard_files with_mapfile]. fold (on_disk s3 k).
    intros [Hk|(p & j & (g & Hg & Hrange) & ->)].
    + destruct Hscan as (Hkeys & _).
      destruct (Hkeys k Hk) as (p & j & g & _ & Hg & _ & Hmiss).
      destruct (disk_of s k) eqn:Hd.
      * apply C4. unfold on_disk. rewrite F1. apply disk_of_true, Hd.
      * destruct (F5 p g Hg) as (g' & Hg' & _ & _ & Hall).
        apply (Hcopied p g' k Hg'), Hall. auto.
    + destruct (F5 p g Hg) as (g' & Hg' & _ & _ & Hall).
      apply (Hcopied p g' _ Hg'), Hall. right. exists j. split; [|reflexivity].
      exists g. auto.
Qed.

(** What [sync_replication] does, on every state. *)
Lemma sync_replication_spec s :
  wp (sync_replication py_int)
     (fun _ s' => sync_grows py_int s s' /\ sync_returned py_int s s')
     (fun e s' => sync_grows py_int s s' /\ mapfile s' = mapfile s /\ sync_exn e)
     s.
Proof.
  unfold sync_replication.
  apply wp_bind, wp_gets. apply wp_bind, wp_modify. apply wp_bind, wp_gets.
  apply wp_bind, wp_lift.
  fold (persisted s). set (s1 := with_mapping (persisted s) s).
  change (fun key => bool_decide (is_Some (shard_files s1 !! key))) with (disk_of s).
  destruct (fold_result (dict_keys (persisted s)) ([], 0) (sync_scan_key py_int (disk_of s)))
    as [[fd G]|e] eqn:Hfold.
  - assert (Hscan := scan_inv_fold py_int (disk_of s) _ _ _ Hfold).
    cbn [fst snd]. apply wp_bind.
    eapply wp_mono; [| |apply (fill_loop py_int py_int_str (disk_of s) s1 fd G Hscan)].
    + intros fl s2 Hfill. apply wp_bind.
      eapply wp_mono; [| |apply (copy_loop fl s2)].
      * intros _ s3 [Hcopy Hcopied]. apply wp_modify. split.
        -- assert (Hg := grows_from_loops s fd G _ fl s2 s3 Hscan (fun p j H => H) Hfill Hcopy).
           destruct Hg as (G1 & G2 & G3 & G4 & G5). repeat split; assumption.
        -- eapply returned_from_loops; eauto.
      * intros e s3 [He Hcopy]. split; [|split].
        -- eapply grows_from_loops; eauto.
        -- rewrite (copy_mapfile _ _ _ Hcopy), (fill_mapfile _ _ _ _ _ Hfill). reflexivity.
        -- unfold sync_exn. tauto.
    + intros e s2 (-> & added & fl & Hadded & Hfill). split; [|split].
      * eapply grows_from_loops; eauto using copy_inv_refl.
      * rewrite (fill_mapfile _ _ _ _ _ Hfill). reflexivity.
      * unfold sync_exn. tauto.
  - assert (He : e = ValueError).
    { eapply (fold_result_raises _ _ (fun e => e = ValueError)); [|exact Hfold].
      intros acc x e'. apply sync_scan_key_raises. }
    split; [|split; [reflexivity|unfold sync_exn; tauto]].
    apply grows_start.
Qed.

(** C10. [sync_replication] never shrinks the state, whether it returns
    or raises: every entry of the catalog it loads is, with the same
    range, in the catalog a later call would load and in the handler's
    own mapping, and every shard file that existed still exists. *)
Theorem sync_replication_never_shrinks (s : ShardHandler) :
  let s' := after (sync_replication py_int) s in
  (forall k v, dict_get k (persisted s) = Some v ->
     dict_get k (persisted s') = Some v /\ dict_get k (mapping s') = Some v) /\
  (forall k, on_disk s k -> on_disk s' k).
Proof.
  assert (H := sync_replication_spec s). unfold wp in H. unfold after.
  destruct (sync_replication py_int s) as [[u|e] s']; cbn [snd].
  - destruct H as ((_ & Hget & Hdisk & _) & (fd & G & _ & Hfile & _)).
    split; [|assumption]. intros k v Hk. unfold persisted at 1. rewrite Hfile. auto.
  - destruct H as ((_ & Hget & Hdisk & _) & Hfile & _).
    split; [|assumption]. intros k v Hk. split; [|auto].
    unfold persisted in *. rewrite Hfile. assumption.
Qed.

(** A second scan right after a pass that returned: every group is at
    the global maximum and lacks no file. *)
Lemma rescan_uniform s s' :
  sync_returned py_int s s' ->
  exists fd' G',
    fold_result (dict_keys (mapping s')) ([], 0) (sync_scan_key py_int (disk_of s'))
      = Ok (fd', G') /\
    forall p g, dict_get p fd' = Some g -> max_rep g = G' /\ all_keys g = [].
Proof.
  intros (fd & G & Hscan & _ & Hkeys & Hfiles).
  assert (Hparse : forall k, k ∈ dict_keys (mapping s') ->
            exists p j g, key_parse py_int k = Ok (p, j) /\
                          dict_get p fd = Some g /\ j <= G).
  { intros k Hk. apply Hkeys in Hk as [Hk|(p & j & (g & Hg & Hrange) & ->)].
    - destruct Hscan as (Hks & Hgroups & _).
      destruct (Hks k Hk) as (p & j & g & Hp & Hg & Hle & _).
      exists p, j, g. repeat (split; [assumption|]).
      destruct (Hgroups p g Hg) as (_ & HG & _). lia.
    - exists p, j, g. split; [|split; [assumption|lia]].
      apply key_parse_replica_key; [assumption|].
      destruct Hscan as (_ & Hgroups & _). apply (Hgroups p g Hg). }
  destruct (scan_total py_int (disk_of s') (dict_keys (mapping s'))) as (fd' & G' & Hfold).
  { intros k Hk. destruct (Hparse k Hk) as (p & j & _ & Hp & _). eauto. }
  exists fd', G'. split; [assumption|].
  assert (Hscan' := scan_inv_fold py_int (disk_of s') _ _ _ Hfold).
  destruct Hscan' as (Hks' & Hgroups' & Hmax').
  intros p g' Hg'. destruct (Hgroups' p g' Hg') as (_ & Hle' & (k1 & Hk1 & Hp1) & Hall').
  split.
  - assert (HG' : G' <= G).
    { destruct Hmax' as [->|(k0 & p0 & Hk0 & Hp0)]; [lia|].
      destruct (Hparse k0 Hk0) as (p2 & j2 & _ & Hp2 & _ & Hle2). congruence. }
    assert (HG : G <= max_rep g'); [|lia].
    destruct (Hparse k1 Hk1) as (p2 & j2 & g & Hp2 & Hg & _).
    assert (p2 = p) by congruence. subst p2.
    destruct Hscan as (_ & Hgroups & _).
    destruct (Hgroups p g Hg) as (Hdash & Hle & (k & Hk & Hp) & _).
    assert (Hwit : exists k2, k2 ∈ dict_keys (mapping s') /\ key_parse py_int k2 = Ok (p, G)).
    { destruct (decide (max_rep g = G)) as [HeqG|Hne].
      - exists k. rewrite <- HeqG. split; [apply Hkeys; auto|assumption].
      - exists (replica_key p G). split.
        + apply Hkeys. right. exists p, G. split; [|reflexivity].
          exists g. split; [assumption|lia].
        + apply key_parse_replica_key; assumption. }
    destruct Hwit as (k2 & Hk2 & Hp2').
    destruct (Hks' k2 Hk2) as (p3 & j3 & g3 & Hp3 & Hg3 & Hle3 & _).
    assert (p3 = p /\ j3 = G) as [-> ->] by (split; congruence).
    assert (g3 = g') by congruence. subst g3. assumption.
  - destruct (all_keys g') as [|k rest]; [reflexivity|]. exfalso.
    destruct (Hall' k) as [Hk Hd]; [apply list_elem_of_here|].
    apply disk_of_false in Hd. apply Hd, Hfiles, Hk.
Qed.

Lemma fill_noop (l : list string) fd G s :
  (forall p, p ∈ l -> exists g, dict_get p fd = Some g /\ max_rep g = G) ->
  for_fold l fd (sync_fill_primary py_int G) s = (Ok fd, s).
Proof.
  induction l as [|p l IH]; intros Hl; cbn [for_fold]; [reflexivity|].
  destruct (Hl p) as (g & Hg & Hrep); [apply list_elem_of_here|].
  unfold bind at 1. unfold sync_fill_primary at 1. rewrite Hg, Hrep.
  unfold range2. rewrite Nat.sub_diag. cbn [seq for_fold ret].
  apply IH. intros p' Hp'. apply Hl, list_elem_of_further, Hp'.
Qed.

Lemma copy_noop (l : list string) fd s :
  (forall p, p ∈ l -> exists g, dict_get p fd = Some g /\ all_keys g = []) ->
  for_each l (sync_copy_primary fd) s = (Ok tt, s).
Proof.
  induction l as [|p l IH]; intros Hl; cbn [for_each]; [reflexivity|].
  destruct (Hl p) as (g & Hg & Hall); [apply list_elem_of_here|].
  unfold bind at 1. unfold sync_copy_primary at 1. rewrite Hg, Hall.
  cbn [for_each ret].
  apply IH. intros p' Hp'. apply Hl, list_elem_of_further, Hp'.
Qed.

(** C8. [sync_replication] is idempotent: called on the state that a
    call which returned has left, it returns again and leaves that
    state as it is, the catalog, the persisted catalog and every shard
    file included. *)
Theorem sync_replication_idempotent (s s' : ShardHandler) :
  sync_replication py_int s = (Ok tt, s') ->
  sync_replication py_int s' = (Ok tt, s').
Proof.
  intros Hrun.
  assert (H := sync_replication_spec s). unfold wp in H. rewrite Hrun in H.
  destruct H as [_ Hret].
  destruct (rescan_uniform s s' Hret) as (fd' & G' & Hfold & Huniform).
  destruct Hret as (_ & _ & _ & Hfile & _).
  assert (Hload : with_mapping (persisted s') s' = s').
  { unfold persisted. rewrite Hfile. destruct s'. reflexivity. }
  assert (Hwrite : with_mapfile (Some (mapping s')) s' = s').
  { unfold with_mapfile. rewrite <- Hfile. destruct s'. reflexivity. }
  assert (Hgroups : forall p, p ∈ dict_keys fd' ->
            exists g, dict_get p fd' = Some g /\ max_rep g = G' /\ all_keys g = []).
  { intros p Hp. apply dict_get_keys in Hp as [g Hg].
    exists g. split; [assumption|]. apply (Huniform p g Hg). }
  unfold sync_replication, bind at 1, load_map, gets.
  fold (persisted s'). unfold bind at 1, modify. rewrite Hload.
  unfold bind at 1. fold (disk_of s').
  unfold bind at 1, lift. unfold persisted. rewrite Hfile, Hfold. cbn [fst snd].
  unfold bind at 1. rewrite fill_noop by (intros p Hp; destruct (Hgroups p Hp) as (g & ? & ? & ?); eauto).
  unfold bind at 1. rewrite copy_noop by (intros p Hp; destruct (Hgroups p Hp) as (g & ? & ? & ?); eauto).
  unfold write_map, modify. rewrite Hwrite. reflexivity.
Qed.
End Reconciliation.

(** An instance: the decimal reader [int_of_digits] and the state
    [replicated_then_grown]. *)
Lemma sync_replication_never_shrinks_witness :
  let s' := after (sync_replication int_of_digits) replicated_then_grown in
  (forall k v, dict_get k (persisted replicated_then_grown) = Some v ->
     dict_get k (persisted s') = Some v /\ dict_get k (mapping s') = Some v) /\
  (forall k, on_disk replicated_then_grown k -> on_disk s' k).
Proof.
  apply (sync_replication_never_shrinks int_of_digits int_of_digits_str).
Defined.

(** An instance: the pass over [uneven], which adds replica 1-1, and a
    second pass after it. *)
Lemma sync_replication_idempotent_witness :
  sync_replication int_of_digits (after (sync_replication int_of_digits) uneven)
  = (Ok tt, after (sync_replication int_of_digits) uneven).
Proof.
  apply (sync_replication_idempotent int_of_digits int_of_digits_str uneven).
  vm_compute. reflexivity.
Defined.

(** * Replication levels *)

Lemma map_result_ok {A B} (f : A -> result B) (l : list A) :
  (forall x, x ∈ l -> exists y, f x = Ok y) ->
  exists l', map_result f l = Ok l' /\
             forall y, y ∈ l' <-> exists x, x ∈ l /\ f x = Ok y.
Proof.
  induction l as [|x l IH]; intros Hl; cbn.
  - exists []. split; [reflexivity|]. intros y. split.
    + intros H. inversion H.
    + intros (x & H & _). inversion H.
  - destruct (Hl x) as [y Hy]; [apply list_elem_of_here|].
    destruct IH as (l' & Hl' & Hin).
    { intros x' Hx'. apply Hl, list_elem_of_further, Hx'. }
    rewrite Hy, Hl'. cbn. exists (y :: l'). split; [reflexivity|].
    intros y'. rewrite elem_of_cons, Hin. split.
    + intros [->|(x' & Hx' & Hf)].
      * exists x. split; [apply list_elem_of_here|assumption].
      * exists x'. split; [apply list_elem_of_further|]; assumption.
    + intros (x' & Hx' & Hf). apply elem_of_cons in Hx' as [->|Hx'].
      * left. congruence.
      * right. eauto.
Qed.

Section DictNoDup.
Context {K} `{EqDecision K} {V : Type}.
Implicit Types (d : dict K V) (k : K) (v : V).

Lemma dict_keys_set_NoDup k v d :
  NoDup (dict_keys d) -> NoDup (dict_keys (dict_set k v d)).
Proof.
  induction d as [|[k' v'] d IH]; cbn; intros Hnd.
  - apply NoDup_singleton.
  - apply NoDup_cons in Hnd as [Hk' Hnd].
    destruct (decide (k = k')) as [->|Hne]; cbn.
    + apply NoDup_cons. auto.
    + apply NoDup_cons. split; [|auto].
      change (k' ∉ dict_keys (dict_set k v d)).
      rewrite dict_keys_set. intros [H|H]; [congruence|contradiction].
Qed.

Lemma dict_get_elem k v d :
  NoDup (dict_keys d) -> (k, v) ∈ d <-> dict_get k d = Some v.
Proof.
  induction d as [|[k' v'] d IH]; cbn; intros Hnd.
  - split; [intros H; inversion H|discriminate].
  - apply NoDup_cons in Hnd as [Hk' Hnd]. rewrite elem_of_cons, (IH Hnd).
    destruct (decide (k = k')) as [->|Hne].
    + split; [|intros [= ->]; auto].
      intros [[= ->]|H]; [reflexivity|].
      exfalso. apply Hk'. change (k' ∈ dict_keys d). apply dict_get_keys. rewrite H. eauto.
    + split; [|auto]. intros [[= -> ->]|H]; [contradiction|assumption].
Qed.
End DictNoDup.

(** The levels that folding [level_step] over the pairs [ps] leaves:
    each id of a pair has an entry, and an entry is the highest index
    paired with its id. *)
Lemma level_fold (ps : list (nat * nat)) :
  let d := fold_left level_step ps [] in
  NoDup (dict_keys d) /\
  (forall n lvl, dict_get n d = Some lvl ->
     (n, lvl) ∈ ps /\ forall j, (n, j) ∈ ps -> j <= lvl) /\
  (forall n j, (n, j) ∈ ps -> is_Some (dict_get n d)).
Proof.
  induction ps as [|[i j] ps IH] using rev_ind; cbn zeta.
  - cbn. split; [apply NoDup_nil_2|]. split.
    + discriminate.
    + intros n j H. inversion H.
  - rewrite fold_left_app. cbn [fold_left].
    set (d := fold_left level_step ps []) in *. cbn zeta in IH.
    destruct IH as (Hnd & Hget & Hin).
    unfold level_step. cbn [fst snd].
    split; [apply dict_keys_set_NoDup, Hnd|]. split.
    + intros n lvl. destruct (decide (i = n)) as [->|Hne].
      * rewrite dict_get_set_eq. intros [= <-]. unfold dd_get.
        destruct (dict_get n d) as [lvl0|] eqn:Hd; cbn [from_option id].
        -- destruct (Hget n lvl0 Hd) as [Hmem Hmax].
           split.
           ++ destruct (Nat.max_spec lvl0 j) as [[_ ->]|[_ ->]];
                apply elem_of_app; [right; apply list_elem_of_here|auto].
           ++ intros j' Hj'. apply elem_of_app in Hj' as [Hj'|Hj'].
              ** specialize (Hmax j' Hj'). lia.
              ** apply list_elem_of_singleton in Hj'. injection Hj' as ->. lia.
        -- split.
           ++ apply elem_of_app. right. cbn. apply list_elem_of_here.
           ++ intros j' Hj'. apply elem_of_app in Hj' as [Hj'|Hj'].
              ** destruct (Hin n j' Hj') as [? ?]. congruence.
              ** apply list_elem_of_singleton in Hj'. injection Hj' as ->. cbn. lia.
      * rewrite dict_get_set_ne by assumption. intros Hd.
        destruct (Hget n lvl Hd) as [Hmem Hmax]. split.
        -- apply elem_of_app. auto.
        -- intros j' Hj'. apply elem_of_app in Hj' as [Hj'|Hj']; [auto|].
           apply list_elem_of_singleton in Hj'. congruence.
    + intros n j' Hj'. destruct (decide (i = n)) as [->|Hne].
      * rewrite dict_get_set_eq. eauto.
      * rewrite dict_get_set_ne by assumption.
        apply elem_of_app in Hj' as [Hj'|Hj']; [eauto|].
        apply list_elem_of_singleton in Hj'. congruence.
Qed.

Lemma level_fold_primaries (keys : list nat) (d : dict nat nat) :
  fold_left (fun d keyi => dict_set keyi (Nat.max (dd_get keyi d) 0) d) keys d
  = fold_left level_step (map (fun k => (k, 0)) keys) d.
Proof.
  revert d. induction keys as [|k keys IH]; intros d; cbn; [reflexivity|].
  apply IH.
Qed.

Lemma py_max_ok (l : list nat) : l <> [] -> exists top, py_max l = Ok top.
Proof. destruct l; [congruence|]. cbn. eauto. Qed.

Section Levels.
Variable py_int : string -> option nat.
Hypothesis py_int_str : forall n, py_int (str n) = Some n.

Lemma shard_key_primary k :
  shard_key k -> has_dash k = false -> exists n, k = str n.
Proof.
  intros (n & [->|(j & _ & ->)]) Hd; [eauto|].
  rewrite replica_key_has_dash in Hd. discriminate.
Qed.

Lemma shard_key_replica k :
  shard_key k -> has_dash k = true ->
  exists n j, 0 < j /\ k = replica_key (str n) j.
Proof.
  intros (n & [->|(j & Hj & ->)]) Hd; [|eauto].
  rewrite str_no_dash in Hd. discriminate.
Qed.

Lemma replica_key_str_inj n j n' j' :
  replica_key (str n) j = replica_key (str n') j' -> n = n' /\ j = j'.
Proof.
  intros E. apply (replica_key_inj py_int py_int_str) in E as [E ->];
    auto using str_no_dash.
  split; [|reflexivity]. apply (str_inj py_int py_int_str), E.
Qed.

Lemma replica_key_not_str n j n' : replica_key (str n) j <> str n'.
Proof.
  intros E. assert (H := replica_key_has_dash (str n) j).
  rewrite E, str_no_dash in H. discriminate.
Qed.

Lemma split_pair_replica_key n j :
  match split_dash (replica_key (str n) j) with
  | [a; b] => rbind (int py_int a) (fun x => rbind (int py_int b) (fun y => Ok (x, y)))
  | _ => Raise ValueError
  end = Ok (n, j).
Proof.
  unfold replica_key. rewrite append_cons, append_empty.
  rewrite split_dash_append, (split_dash_no_dash (str j)) by auto using str_no_dash.
  unfold int. rewrite !py_int_str. reflexivity.
Qed.

(** The ids of the primaries, as [add_replication] and
    [remove_replication] read them. *)
Lemma sorted_int_shard_ids_spec s :
  (forall k, k ∈ dict_keys (mapping s) -> shard_key k) ->
  exists keys, sorted_int_shard_ids py_int s = (Ok keys, s) /\
               forall n, n ∈ keys <-> str n ∈ dict_keys (mapping s).
Proof.
  intros Hwf.
  assert (Hids : forall id, id ∈ get_shard_ids_of (mapping s) -> exists n, id = str n).
  { intros id Hid. apply get_shard_ids_elem in Hid as [Hin Hd].
    apply shard_key_primary; auto. }
  destruct (map_result_ok (int py_int) (get_shard_ids_of (mapping s))) as (ns & Hns & Hmem).
  { intros id Hid. destruct (Hids id Hid) as [n ->]. exists n.
    unfold int. rewrite py_int_str. reflexivity. }
  exists (sorted Nat.leb ns). split.
  - unfold sorted_int_shard_ids, bind, get_shard_ids, gets, lift, ret. rewrite Hns. reflexivity.
  - intros n. rewrite sorted_elem, Hmem. split.
    + intros (id & Hid & Hint). destruct (Hids id Hid) as [n' ->].
      unfold int in Hint. rewrite py_int_str in Hint. injection Hint as ->.
      apply get_shard_ids_elem in Hid. tauto.
    + intros Hin. exists (str n). split.
      * apply get_shard_ids_elem. auto using str_no_dash.
      * unfold int. rewrite py_int_str. reflexivity.
Qed.

(** [key_rep], on a catalog of well-formed keys with a primary: an entry
    for each shard id of the catalog, holding the shard's highest
    replica index, or 0 for a primary without replica. *)
Lemma replication_levels_spec s :
  (forall k, k ∈ dict_keys (mapping s) -> shard_key k) ->
  (exists n, str n ∈ dict_keys (mapping s)) ->
  exists key_rep,
    replication_levels py_int s = (Ok key_rep, s) /\
    NoDup (dict_keys key_rep) /\
    (forall n lvl, dict_get n key_rep = Some lvl ->
       (lvl = 0 /\ str n ∈ dict_keys (mapping s) \/ has_replica (mapping s) n lvl) /\
       (forall j, has_replica (mapping s) n j -> j <= lvl)) /\
    (forall n, str n ∈ dict_keys (mapping s) -> is_Some (dict_get n key_rep)) /\
    (forall n j, has_replica (mapping s) n j -> is_Some (dict_get n key_rep)).
Proof.
  intros Hwf [n0 Hn0].
  destruct (sorted_int_shard_ids_spec s Hwf) as (keys & Hkeys & Hkmem).
  destruct (py_max_ok keys) as [top Htop].
  { intros ->. apply Hkmem in Hn0. inversion Hn0. }
  assert (Hrids : forall id, id ∈ get_replication_ids_of (mapping s) ->
            exists n j, 0 < j /\ id = replica_key (str n) j).
  { intros id Hid. apply get_replication_ids_elem in Hid as [Hin Hd].
    apply shard_key_replica; auto. }
  destruct (map_result_ok
              (fun i => match split_dash i with
                        | [a; b] => rbind (int py_int a) (fun x =>
                                    rbind (int py_int b) (fun y => Ok (x, y)))
                        | _ => Raise ValueError
                        end)
              (get_replication_ids_of (mapping s))) as (pairs & Hpairs & Hpmem).
  { intros id Hid. destruct (Hrids id Hid) as (n & j & _ & ->).
    exists (n, j). apply split_pair_replica_key. }
  assert (Hpm : forall n j, (n, j) ∈ pairs <-> has_replica (mapping s) n j).
  { intros n j. rewrite Hpmem. unfold has_replica. split.
    - intros (id & Hid & Hf). destruct (Hrids id Hid) as (n' & j' & _ & ->).
      rewrite split_pair_replica_key in Hf. injection Hf as -> ->.
      apply get_replication_ids_elem in Hid. tauto.
    - intros Hin. exists (replica_key (str n) j). split.
      + apply get_replication_ids_elem. auto using replica_key_has_dash.
      + apply split_pair_replica_key. }
  assert (Hpos : forall n j, has_replica (mapping s) n j -> 0 < j).
  { intros n j Hr. destruct (Hwf _ Hr) as (n' & [E|(j' & Hj' & E)]).
    - exfalso. eapply replica_key_not_str, E.
    - apply replica_key_str_inj in E as [_ ->]. assumption. }
  eexists. split.
  { unfold replication_levels, bind. rewrite Hkeys. unfold lift. rewrite Htop.
    unfold get_replication_ids, gets. rewrite Hpairs. unfold ret.
    rewrite level_fold_primaries. fold level_step.
    rewrite <- fold_left_app. reflexivity. }
  destruct (level_fold (map (fun k => (k, 0)) keys ++ pairs)) as (Hnd & Hget & Hin).
  assert (Hmem : forall n j, (n, j) ∈ map (fun k => (k, 0)) keys ++ pairs <->
            (j = 0 /\ str n ∈ dict_keys (mapping s)) \/ has_replica (mapping s) n j).
  { intros n j. rewrite elem_of_app, Hpm, list_elem_of_fmap. split.
    - intros [(k & [= -> ->] & Hk)|H]; [left; split; [reflexivity|apply Hkmem, Hk]|auto].
    - intros [[-> H]|H]; [left; exists n; split; [reflexivity|apply Hkmem, H]|auto]. }
  split; [assumption|]. split; [|split].
  - intros n lvl Hd. destruct (Hget n lvl Hd) as [Hm Hmax]. split.
    + apply Hmem, Hm.
    + intros j Hj. apply Hmax, Hmem. auto.
  - intros n Hn. apply (Hin n 0), Hmem. auto.
  - intros n j Hj. apply (Hin n j), Hmem. auto.
Qed.
End Levels.

(** * Removing a level of replication *)

Lemma wp_of_run {A} (c : M A) Q E s a s' :
  c s = (Ok a, s') -> Q a s' -> wp c Q E s.
Proof. intros Hc HQ. unfold wp. rewrite Hc. exact HQ. Qed.

Lemma removed_snoc done n lvl :
  removed (done ++ [(n, lvl)]) = removed done ++ [replica_key (str n) lvl].
Proof. unfold removed. rewrite map_app. reflexivity. Qed.

Lemma removal_inv_start s1 : removal_inv s1 [] s1.
Proof. split; reflexivity. Qed.

Section RemoveReplication.
Variable py_int : string -> option nat.
Hypothesis py_int_str : forall n, py_int (str n) = Some n.

Lemma key_level_bound (m : dict string Range) k :
  k ∈ dict_keys m -> key_level py_int k <= replication_level py_int m.
Proof.
  unfold replication_level. induction (dict_keys m) as [|k' ks IH]; intros Hk.
  - inversion Hk.
  - cbn. apply elem_of_cons in Hk as [->|Hk]; [lia|].
    specialize (IH Hk). lia.
Qed.

Lemma key_level_replica_key n j :
  key_level py_int (replica_key (str n) j) = j.
Proof.
  unfold key_level. rewrite key_parse_replica_key by auto using str_no_dash.
  reflexivity.
Qed.

Lemma has_replica_bound (m : dict string Range) n j :
  has_replica m n j -> j <= replication_level py_int m.
Proof.
  intros H. rewrite <- (key_level_replica_key n j). apply key_level_bound, H.
Qed.

Lemma removed_elem done k :
  k ∈ removed done <-> exists n lvl, (n, lvl) ∈ done /\ k = replica_key (str n) lvl.
Proof.
  unfold removed. rewrite list_elem_of_fmap. split.
  - intros ([n lvl] & -> & H). eauto.
  - intros (n & lvl & H & ->). exists (n, lvl). auto.
Qed.

(** One entry of [key_rep]: a level of 0 raises [NameError], and a
    positive level removes the file and the catalog entry of the
    shard's top replica. *)
Lemma remove_top_replica_spec s1 done n lvl s :
  n ∉ map fst done ->
  (0 < lvl -> replica_key (str n) lvl ∈ dict_keys (mapping s1) /\
              on_disk s1 (replica_key (str n) lvl)) ->
  removal_inv s1 done s ->
  wp (remove_top_replica (n, lvl))
     (fun _ s' => 0 < lvl /\ removal_inv s1 (done ++ [(n, lvl)]) s')
     (fun e s' => e = NameError /\ lvl = 0 /\ s' = s)
     s.
Proof.
  intros Hfresh Hpresent [H1 H2 H3 H4].
  unfold remove_top_replica. cbn [fst snd].
  destruct (Nat.eqb_spec lvl 0) as [->|Hpos]; [apply wp_raise; auto|].
  destruct Hpresent as [Hkey Hfile]; [lia|].
  change (str n +:+ "-" +:+ str lvl) with (replica_key (str n) lvl).
  set (shard := replica_key (str n) lvl) in *.
  assert (Hnot : shard ∉ removed done).
  { intros Hin. apply removed_elem in Hin as (n' & lvl' & Hin & E).
    apply (replica_key_str_inj py_int py_int_str) in E as [-> ->].
    apply Hfresh. apply list_elem_of_fmap. exists (n', lvl'). auto. }
  assert (Hdec : bool_decide (shard ∈ removed done) = false)
    by (apply bool_decide_eq_false, Hnot).
  unfold wp, bind, remove_file, gets, modify.
  rewrite H4, Hdec. destruct Hfile as [c Hc]. rewrite Hc.
  cbn [mapping with_shard_files]. rewrite H3, Hdec.
  apply dict_get_keys in Hkey as [v Hv]. rewrite Hv.
  split; [lia|]. split; cbn [mapfile last_char_position mapping shard_files
                             with_mapping with_shard_files]; try assumption.
  - intros k. rewrite removed_snoc. destruct (decide (shard = k)) as [<-|Hne].
    + rewrite dict_get_remove_eq. symmetry.
      rewrite bool_decide_eq_true_2; [reflexivity|].
      apply elem_of_app. right. apply list_elem_of_here.
    + rewrite dict_get_remove_ne, H3 by assumption.
      apply (f_equal (fun b : bool => if b then None else dict_get k (mapping s1))).
      apply bool_decide_ext. rewrite elem_of_app, list_elem_of_singleton.
      split; [auto|]. intros [H|H]; [assumption|exfalso; apply Hne; symmetry; exact H].
  - intros k. rewrite removed_snoc. destruct (decide (shard = k)) as [<-|Hne].
    + rewrite lookup_delete_eq. symmetry.
      rewrite bool_decide_eq_true_2; [reflexivity|].
      apply elem_of_app. right. apply list_elem_of_here.
    + rewrite lookup_delete_ne, H4 by assumption.
      apply (f_equal (fun b : bool => if b then None else shard_files s1 !! k)).
      apply bool_decide_ext. rewrite elem_of_app, list_elem_of_singleton.
      split; [auto|]. intros [H|H]; [assumption|exfalso; apply Hne; symmetry; exact H].
Qed.

(** The loop of [remove_replication] over [key_rep]. *)
Lemma removal_loop s1 (key_rep : dict nat nat) :
  NoDup (dict_keys key_rep) ->
  (forall n lvl, (n, lvl) ∈ key_rep -> 0 < lvl ->
     replica_key (str n) lvl ∈ dict_keys (mapping s1) /\
     on_disk s1 (replica_key (str n) lvl)) ->
  wp (for_each key_rep remove_top_replica)
     (fun _ s => removal_inv s1 key_rep s /\
                 forall n lvl, (n, lvl) ∈ key_rep -> 0 < lvl)
     (fun e s => e = NameError /\
        exists done n rest, key_rep = done ++ (n, 0) :: rest /\
          removal_inv s1 done s /\ forall n' lvl, (n', lvl) ∈ done -> 0 < lvl)
     s1.
Proof.
  intros Hnd Hpresent.
  apply (wp_for_each key_rep remove_top_replica
           (fun done s => removal_inv s1 done s /\
                          forall n lvl, (n, lvl) ∈ done -> 0 < lvl)).
  - intros done [n lvl] rest s Hsplit [Hinv Hpos].
    assert (Hfresh : n ∉ map fst done).
    { unfold dict_keys in Hnd. rewrite Hsplit, map_app in Hnd.
      apply NoDup_app in Hnd as (_ & Hdisj & _).
      intros Hin. apply (Hdisj n Hin). cbn. apply list_elem_of_here. }
    eapply wp_mono; [| |apply (remove_top_replica_spec s1 done n lvl s Hfresh)];
      [| | |exact Hinv].
    + intros _ s' [Hlvl Hinv']. split; [assumption|].
      intros n' lvl' Hin. apply elem_of_app in Hin as [Hin|Hin]; [eauto|].
      apply list_elem_of_singleton in Hin. injection Hin as -> ->. assumption.
    + intros e s' (-> & -> & ->). split; [reflexivity|].
      exists done, n, rest. auto.
    + intros Hlvl. apply Hpresent; [|assumption].
      rewrite Hsplit. apply elem_of_app. right. apply list_elem_of_here.
  - split; [apply removal_inv_start|]. intros n lvl H. inversion H.
Qed.

Lemma sync_exn_not_NameError e : sync_exn e -> e <> NameError.
Proof. intros [->|[->|[->| ->]]]; discriminate. Qed.

(** What [remove_replication] does in a consistent state. *)
Lemma remove_replication_run s :
  consistent s ->
  exists key_rep : dict nat nat,
    NoDup (dict_keys key_rep) /\
    (forall n lvl, dict_get n key_rep = Some lvl ->
       (lvl = 0 /\ str n ∈ dict_keys (persisted s) \/ has_replica (persisted s) n lvl) /\
       (forall j, has_replica (persisted s) n j -> j <= lvl)) /\
    (forall n, str n ∈ dict_keys (persisted s) -> is_Some (dict_get n key_rep)) /\
    (forall n j, has_replica (persisted s) n j -> is_Some (dict_get n key_rep)) /\
    wp (remove_replication py_int)
       (fun _ s' => removal_done py_int s key_rep s')
       (fun e s' => (e = NameError /\ removal_refused s key_rep s') \/
                    (e <> NameError /\ removal_done py_int s key_rep s'))
       s.
Proof.
  intros [Hwf Hfiles Hprim].
  set (s1 := with_mapping (persisted s) s).
  destruct (replication_levels_spec py_int py_int_str s1 Hwf Hprim)
    as (key_rep & Hrun & Hnd & Hget & Hprims & Hreps).
  cbn [mapping s1 with_mapping] in Hget, Hprims, Hreps.
  exists key_rep. repeat (split; [assumption|]).
  unfold remove_replication.
  apply wp_bind, wp_gets. apply wp_bind, wp_modify. fold (persisted s). fold s1.
  apply wp_bind. eapply wp_of_run; [exact Hrun|].
  apply wp_bind.
  eapply wp_mono; [| |apply (removal_loop s1 key_rep Hnd)].
  - intros _ s3 [Hinv Hpos]. apply wp_bind. unfold write_map. apply wp_modify.
    eapply wp_mono; [| |apply (sync_replication_spec py_int py_int_str)].
    + intros _ s' [Hgrows (fd & G & _ & Hfile & _)].
      split; [assumption|]. exists s3. repeat (split; [assumption|]).
      left. unfold persisted. rewrite Hfile. reflexivity.
    + intros e s' (Hgrows & Hfile & Hexn). right.
      split; [apply sync_exn_not_NameError, Hexn|].
      split; [assumption|]. exists s3. repeat (split; [assumption|]).
      right. unfold persisted. rewrite Hfile. reflexivity.
  - intros e s' (-> & Hrefused). left. split; [reflexivity|exact Hrefused].
  - intros n lvl Hin Hlvl.
    apply (dict_get_elem n lvl key_rep Hnd) in Hin.
    destruct (Hget n lvl Hin) as [[[-> _]|Hrep] _]; [lia|].
    split; [exact Hrep|]. apply Hfiles, Hrep.
Qed.

Lemma has_replica_positive (m : dict string Range) n j :
  (forall k, k ∈ dict_keys m -> shard_key k) -> has_replica m n j -> 0 < j.
Proof.
  intros Hwf Hr. destruct (Hwf _ Hr) as (n' & [E|(j' & Hj' & E)]).
  - exfalso. eapply replica_key_not_str, E.
  - apply (replica_key_str_inj py_int py_int_str) in E as [_ ->]. assumption.
Qed.

(** X25. What [remove_replication] does in a consistent state
    (every catalog key is a well-formed shard key and has its file, and
    the catalog holds a primary): it tests the level of each shard in
    turn, so it raises [NameError] exactly when some primary has no
    replica key. At replication level 0 it raises it and leaves the
    persisted catalog and the shard files unchanged. When the level is
    positive and every primary has a replica at that level, it does not
    raise [NameError] and, whatever the closing [sync_replication]
    does, no primary has its replica of that level in the persisted
    catalog or on disk afterwards. *)
Theorem remove_replication_consistent (s : ShardHandler) :
  consistent s ->
  let m := persisted s in
  let level := replication_level py_int m in
  let s' := after (remove_replication py_int) s in
  (outcome (remove_replication py_int) s = Raise NameError <->
     exists n, str n ∈ dict_keys m /\ forall j, ~ has_replica m n j) /\
  (level = 0 ->
     outcome (remove_replication py_int) s = Raise NameError /\
     persisted s' = m /\ shard_files s' = shard_files s) /\
  (0 < level -> (forall n, str n ∈ dict_keys m -> has_replica m n level) ->
     outcome (remove_replication py_int) s <> Raise NameError /\
     forall n, str n ∈ dict_keys m ->
       (replica_key (str n) level ∉ dict_keys (persisted s')) /\
       ~ on_disk s' (replica_key (str n) level)).
Proof.
  intros Hcons m level s'.
  destruct (remove_replication_run s Hcons)
    as (key_rep & Hnd & Hget & Hprims & Hreps & Hwp).
  destruct Hcons as [Hwf Hfiles [n0 Hn0]].
  fold m in Hwf, Hfiles, Hn0, Hget, Hprims, Hreps.
  assert (Hpos := fun n j => has_replica_positive m n j Hwf).
  assert (Hzero : forall n, (n, 0) ∈ key_rep <->
            str n ∈ dict_keys m /\ forall j, ~ has_replica m n j).
  { intros n. rewrite (dict_get_elem n 0 key_rep Hnd). split.
    - intros Hd. destruct (Hget n 0 Hd) as [[[_ Hn]|Hr] Hmax].
      + split; [assumption|]. intros j Hj.
        specialize (Hmax j Hj). specialize (Hpos n j Hj). lia.
      + specialize (Hpos n 0 Hr). lia.
    - intros [Hn Hno]. destruct (Hprims n Hn) as [lvl Hd].
      destruct (Hget n lvl Hd) as [[[-> _]|Hr] _]; [assumption|].
      destruct (Hno lvl Hr). }
  assert (Hcases :
    (outcome (remove_replication py_int) s = Raise NameError /\
     removal_refused s key_rep s') \/
    (outcome (remove_replication py_int) s <> Raise NameError /\
     removal_done py_int s key_rep s')).
  { unfold wp in Hwp. unfold outcome, s', after.
    destruct (remove_replication py_int s) as [[u|e] s2]; cbn [fst snd].
    - right. split; [discriminate|assumption].
    - destruct Hwp as [[-> H]|[Hne H]]; [left; auto|right].
      split; [congruence|assumption]. }
  assert (Hname : outcome (remove_replication py_int) s = Raise NameError <->
            exists n, (n, 0) ∈ key_rep).
  { split.
    - intros Hout. destruct Hcases as [[_ (done & n & rest & -> & _)]|[Hne _]].
      + exists n. apply elem_of_app. right. apply list_elem_of_here.
      + contradiction.
    - intros [n Hn]. destruct Hcases as [[Hout _]|[_ [Hall _]]]; [assumption|].
      specialize (Hall n 0 Hn). lia. }
  split; [|split].
  - rewrite Hname. split; intros [n Hn]; exists n; apply Hzero, Hn.
  - intros Hlevel.
    assert (Hnone : forall n j, ~ has_replica m n j).
    { intros n j Hr. assert (Hb := has_replica_bound m n j Hr).
      specialize (Hpos n j Hr). fold level in Hb. lia. }
    assert (Hout : outcome (remove_replication py_int) s = Raise NameError).
    { apply Hname. exists n0. apply Hzero. split; [assumption|]. intros j. apply Hnone. }
    split; [assumption|].
    destruct Hcases as [[_ (done & n & rest & Hsplit & Hinv & Hdone)]|[Hne _]];
      [|contradiction].
    assert (done = []) as ->.
    { destruct done as [|[n1 l1] done]; [reflexivity|]. exfalso.
      assert (Hl1 : 0 < l1) by (apply (Hdone n1 l1), list_elem_of_here).
      assert (Hin : (n1, l1) ∈ key_rep) by (rewrite Hsplit; apply list_elem_of_here).
      apply (dict_get_elem n1 l1 key_rep Hnd) in Hin.
      destruct (Hget n1 l1 Hin) as [[[-> _]|Hr] _]; [lia|].
      apply (Hnone n1 l1 Hr). }
    destruct Hinv as [H1 H2 H3 H4]. cbn in H1, H4. split.
    + unfold persisted. rewrite H1. reflexivity.
    + apply map_eq. intros k. apply H4.
  - intros Hlevel Huniform.
    assert (Hall : forall n lvl, (n, lvl) ∈ key_rep -> 0 < lvl).
    { intros n lvl Hin. destruct lvl as [|lvl]; [|lia]. exfalso.
      apply Hzero in Hin as [Hn Hno]. apply (Hno level), Huniform, Hn. }
    destruct Hcases as [[Hout _]|[Hne (_ & s3 & Hinv & Hgrows & Hpers)]].
    { exfalso. apply Hname in Hout as [n Hn]. specialize (Hall n 0 Hn). lia. }
    split; [assumption|].
    destruct Hinv as [_ _ Hmap Hfile]. cbn [mapping shard_files with_mapping] in Hmap, Hfile.
    fold m in Hmap.
    assert (Htop : forall n, (exists j, has_replica m n level /\ j = level) ->
              (n, level) ∈ key_rep).
    { intros n (_ & Hr & _). destruct (Hreps n level Hr) as [lvl Hd].
      destruct (Hget n lvl Hd) as [Hlvl Hmax].
      assert (Hle : level <= lvl) by (apply Hmax, Hr).
      assert (Hge : lvl <= level).
      { destruct Hlvl as [[-> _]|Hr']; [lia|].
        apply (has_replica_bound m n lvl Hr'). }
      assert (lvl = level) by lia. subst lvl.
      apply (dict_get_elem n level key_rep Hnd), Hd. }
    assert (Hgone : forall n, has_replica m n level ->
              bool_decide (replica_key (str n) level ∈ removed key_rep) = true).
    { intros n Hr. apply bool_decide_eq_true, removed_elem.
      exists n, level. split; [|reflexivity]. apply Htop. eauto. }
    assert (Hlow : forall k0 p0 j0, k0 ∈ dict_keys (mapping s3) ->
              key_parse py_int k0 = Ok (p0, j0) -> j0 < level).
    { intros k0 p0 j0 Hk0 Hparse. apply dict_get_keys in Hk0 as [v Hv].
      rewrite Hmap in Hv.
      destruct (bool_decide (k0 ∈ removed key_rep)) eqn:Hrem; [discriminate|].
      assert (Hin : k0 ∈ dict_keys m) by (apply dict_get_keys; eauto).
      destruct (Hwf k0 Hin) as (n1 & [->|(j1 & Hj1 & ->)]).
      - rewrite key_parse_no_dash in Hparse by apply str_no_dash.
        injection Hparse as _ <-. assumption.
      - rewrite (key_parse_replica_key py_int py_int_str) in Hparse by apply str_no_dash.
        injection Hparse as _ <-.
        assert (Hb := has_replica_bound m n1 j1 Hin). fold level in Hb.
        destruct (decide (j1 = level)) as [->|Hne1]; [|lia].
        rewrite (Hgone n1 Hin) in Hrem. discriminate. }
    assert (Hnew : forall n, ~ new_replica py_int (mapping s3) (replica_key (str n) level)).
    { intros n (p & j & k0 & p0 & j0 & E & Hp & Hle & Hk0 & Hparse).
      apply (replica_key_inj py_int py_int_str) in E as [_ <-];
        [|apply str_no_dash|assumption].
      specialize (Hlow k0 p0 j0 Hk0 Hparse). lia. }
    destruct Hgrows as (_ & _ & _ & Hkeys & Hdisk).
    cbn [persisted mapfile with_mapfile] in Hkeys, Hdisk.
    intros n Hn. specialize (Huniform n Hn).
    assert (Hnokey : replica_key (str n) level ∉ dict_keys (mapping s3)).
    { apply dict_get_None_keys. rewrite Hmap, (Hgone n Huniform). reflexivity. }
    assert (Hnokey' : replica_key (str n) level ∉ dict_keys (mapping s')).
    { intros Hin. apply Hkeys in Hin as [Hin|Hin]; [contradiction|].
      apply (Hnew n Hin). }
    split.
    + destruct Hpers as [-> | ->]; assumption.
    + intros Hon. apply Hdisk in Hon as [Hon|[Hon|Hon]].
      * unfold on_disk in Hon. cbn [shard_files with_mapfile] in Hon.
        rewrite Hfile, (Hgone n Huniform) in Hon. destruct Hon. discriminate.
      * contradiction.
      * apply (Hnew n Hon).
Qed.
End RemoveReplication.

(** * Two replicated primaries, as an instance *)

Lemma two_replicated_keys :
  dict_keys (persisted two_replicated) = ["0"; "1"; "0-1"; "1-1"].
Proof. vm_compute. reflexivity. Qed.

Lemma two_replicated_consistent : consistent two_replicated.
Proof.
  split.
  - intros k Hk. rewrite two_replicated_keys in Hk.
    repeat (apply elem_of_cons in Hk as [->|Hk]); [| | | |inversion Hk].
    + exists 0. left. reflexivity.
    + exists 1. left. reflexivity.
    + exists 0. right. exists 1. split; [lia|reflexivity].
    + exists 1. right. exists 1. split; [lia|reflexivity].
  - intros k Hk. rewrite two_replicated_keys in Hk.
    repeat (apply elem_of_cons in Hk as [->|Hk]); [| | | |inversion Hk];
      vm_compute; eauto.
  - exists 0. rewrite two_replicated_keys. apply list_elem_of_here.
Qed.

Lemma two_replicated_primaries n :
  str n ∈ dict_keys (persisted two_replicated) -> n = 0 \/ n = 1.
Proof.
  intros Hn. rewrite two_replicated_keys in Hn.
  assert (Hd := str_no_dash n).
  repeat (apply elem_of_cons in Hn as [E|Hn]); [| | | |inversion Hn].
  - left. apply (str_inj int_of_digits int_of_digits_str). exact E.
  - right. apply (str_inj int_of_digits int_of_digits_str). exact E.
  - rewrite E in Hd. discriminate.
  - rewrite E in Hd. discriminate.
Qed.

(** An instance: [two_replicated] is consistent, at level 1, with a
    replica of that level for both primaries. *)
Lemma remove_replication_consistent_witness :
  consistent two_replicated /\
  outcome (remove_replication int_of_digits) two_replicated <> Raise NameError /\
  forall n, str n ∈ dict_keys (persisted two_replicated) ->
    (replica_key (str n) 1
       ∉ dict_keys (persisted (after (remove_replication int_of_digits) two_replicated))) /\
    ~ on_disk (after (remove_replication int_of_digits) two_replicated)
              (replica_key (str n) 1).
Proof.
  split; [exact two_replicated_consistent|].
  destruct (remove_replication_consistent int_of_digits int_of_digits_str
              two_replicated two_replicated_consistent) as (_ & _ & Huniform).
  assert (Hlevel : replication_level int_of_digits (persisted two_replicated) = 1)
    by (vm_compute; reflexivity).
  rewrite Hlevel in Huniform. apply Huniform; [lia|].
  intros n Hn. unfold has_replica. rewrite two_replicated_keys.
  destruct (two_replicated_primaries n Hn) as [-> | ->].
  - apply list_elem_of_further, list_elem_of_further, list_elem_of_here.
  - apply list_elem_of_further, list_elem_of_further, list_elem_of_further,
      list_elem_of_here.
Defined.

(** * More on the partitioner *)

Section PartitionShape.
Context {A : Type}.
Implicit Types (data : list A) (count : Z).

Lemma slices_snoc data (q k : nat) :
  map (fun z => py_slice data (Z.of_nat q * z) (Z.of_nat q * (z + 1)))
      (map Z.of_nat (seq 0 (S k)))
  = map (fun z => py_slice data (Z.of_nat q * z) (Z.of_nat q * (z + 1)))
        (map Z.of_nat (seq 0 k))
    ++ [py_slice data (Z.of_nat (q * k)) (Z.of_nat (q * k + q))].
Proof.
  rewrite seq_S, !map_app. cbn [map Nat.add]. do 3 f_equal; lia.
Qed.

Lemma slices_explicit data (q k : nat) :
  q * k <= length data ->
  map (fun z => py_slice data (Z.of_nat q * z) (Z.of_nat q * (z + 1)))
      (map Z.of_nat (seq 0 k))
  = map (fun i => take q (drop (q * i) data)) (seq 0 k).
Proof.
  intros Hk. rewrite map_map. apply map_ext_in. intros i Hi.
  apply in_seq in Hi.
  replace (Z.of_nat q * Z.of_nat i)%Z with (Z.of_nat (q * i)) by lia.
  replace (Z.of_nat q * (Z.of_nat i + 1))%Z with (Z.of_nat (q * i + q)) by lia.
  rewrite py_slice_inside by nia. f_equal. lia.
Qed.

(** The segments, written out: [count - 1] slices of width
    [len(data) // count], and the rest of the data as the last one. *)
Lemma generate_sharded_data_explicit data count :
  (1 <= count)%Z ->
  let q := Z.to_nat (Z.of_nat (length data) / count) in
  let k := Z.to_nat count in
  _generate_sharded_data count data
  = Ok (map (fun i => take q (drop (q * i) data)) (seq 0 (k - 1))
        ++ [drop (q * (k - 1)) data]).
Proof.
  intros Hcount q k. unfold _generate_sharded_data.
  destruct (Z.eqb_spec count 0) as [|_]; [lia|].
  set (n := Z.of_nat (length data)).
  assert (Hdiv : n = (count * (n / count) + n mod count)%Z)
    by (apply Z.div_mod; lia).
  assert (Hrem : (0 <= n mod count < count)%Z) by (apply Z.mod_pos_bound; lia).
  assert (Hquo : (0 <= n / count)%Z) by (apply Z.div_pos; lia).
  set (r := Z.to_nat (n mod count)).
  assert (Hlen : length data = q * k + r) by (unfold q, k, r; fold n; nia).
  replace (n / count)%Z with (Z.of_nat q) by (unfold q; fold n; lia).
  unfold range. fold k. destruct k as [|k'] eqn:Hk; [lia|].
  replace (S k' - 1) with k' by lia.
  rewrite slices_snoc, slices_explicit by nia.
  rewrite py_slice_inside by nia.
  replace (q * k' + q - q * k') with q by lia.
  destruct (Z.ltb_spec 0 (n mod count)) as [Hpos|Hzero].
  - rewrite append_to_last_snoc. do 3 f_equal.
    replace (n mod count)%Z with (Z.of_nat r) by (unfold r; lia).
    rewrite py_slice_from_tail by lia.
    replace (length data - r) with (q * k' + q) by nia.
    rewrite <- drop_drop. apply take_drop.
  - do 3 f_equal. apply take_ge. rewrite length_drop. nia.
Qed.


(** X2. A count of 0 is a [ZeroDivisionError]; a negative count is no
    error: the result is the empty list, whatever the data. *)
Theorem generate_sharded_data_nonpositive data count :
  (count <= 0)%Z ->
  _generate_sharded_data count data
  = if (count =? 0)%Z then Raise ZeroDivisionError else Ok [].
Proof.
  intros Hcount. unfold _generate_sharded_data.
  destruct (Z.eqb_spec count 0) as [|Hne]; [reflexivity|].
  assert (Hrem : (count < Z.of_nat (length data) mod count <= 0)%Z)
    by (apply Z.mod_neg_bound; lia).
  destruct (Z.ltb_spec 0 (Z.of_nat (length data) mod count)); [lia|].
  unfold range. replace (Z.to_nat count) with 0 by lia. reflexivity.
Qed.
End PartitionShape.


(** An instance: a count of -3. *)
Lemma generate_sharded_data_nonpositive_witness :
  _generate_sharded_data (-3) (chars "ABCDEFGHIJK") = Ok [].
Proof. apply (generate_sharded_data_nonpositive (chars "ABCDEFGHIJK") (-3)). lia. Defined.

(** * Writing the shards *)

Lemma for_each_total {A} (l : list A) (body : A -> M unit)
    (step : A -> ShardHandler -> ShardHandler) :
  (forall x s, body x s = (Ok tt, step x s)) ->
  forall s, for_each l body s = (Ok tt, fold_left (fun s x => step x s) l s).
Proof.
  intros Hbody. induction l as [|x l IH]; intros s; cbn; [reflexivity|].
  unfold bind. rewrite Hbody. apply IH.
Qed.

Lemma combine_snoc {A B} (l : list A) (k : list B) (a : A) (b : B) :
  length l = length k ->
  combine (l ++ [a]) (k ++ [b]) = combine l k ++ [(a, b)].
Proof.
  revert k. induction l as [|x l IH]; intros [|y k] Hlen; cbn in *;
    try discriminate; [reflexivity|].
  f_equal. apply IH. lia.
Qed.

Lemma combine_keys {A B} (l : list A) (k : list B) :
  length l = length k -> map fst (combine l k) = l.
Proof.
  revert k. induction l as [|x l IH]; intros [|y k] Hlen; cbn in *;
    try discriminate; [reflexivity|].
  f_equal. apply IH. lia.
Qed.

Lemma enumerate_snoc {A} (l : list A) (x : A) :
  enumerate (l ++ [x]) = enumerate l ++ [(length l, x)].
Proof.
  unfold enumerate. rewrite length_app. cbn [length].
  replace (length l + 1) with (S (length l)) by lia.
  rewrite seq_S. cbn [Nat.add].
  apply combine_snoc. rewrite length_seq. reflexivity.
Qed.

Lemma recorded_ranges_length p segs : length (recorded_ranges p segs) = length segs.
Proof. revert p. induction segs as [|d segs IH]; intros p; cbn; [|rewrite IH]; reflexivity. Qed.

Lemma recorded_ranges_snoc p segs d :
  recorded_ranges p (segs ++ [d])
  = recorded_ranges p segs
    ++ [let p' := (p + Z.of_nat (length (concat segs)))%Z in
        mkRange (if (p' =? 0)%Z then p' else (p' + 1)%Z) (p' + Z.of_nat (length d))%Z].
Proof.
  revert p. induction segs as [|d' segs IH]; intros p; cbn [app recorded_ranges concat length].
  - cbn zeta. rewrite Z.add_0_r. reflexivity.
  - rewrite IH. cbn zeta. rewrite length_app.
    replace (p + Z.of_nat (length d') + Z.of_nat (length (concat segs)))%Z
      with (p + Z.of_nat (length d' + length (concat segs)))%Z by lia.
    reflexivity.
Qed.

Lemma dict_set_app_fresh {V} (k : string) (v : V) (l r : dict string V) :
  k ∉ dict_keys l -> dict_set k v (l ++ r) = l ++ dict_set k v r.
Proof.
  induction l as [|[k' v'] l IH]; cbn; intros Hk; [reflexivity|].
  destruct (decide (k = k')) as [->|Hne].
  - exfalso. apply Hk. apply list_elem_of_here.
  - f_equal. apply IH. intros Hin. apply Hk. apply list_elem_of_further, Hin.
Qed.

Lemma primary_catalog_keys segs :
  dict_keys (primary_catalog segs) = map str (seq 0 (length segs)).
Proof.
  unfold primary_catalog, dict_keys. apply combine_keys.
  rewrite length_map, length_seq, recorded_ranges_length. reflexivity.
Qed.

Section WriteShards.
Variable py_int : string -> option nat.
Hypothesis py_int_str : forall n, py_int (str n) = Some n.

Lemma write_shard_run n d s :
  _write_shard py_int n d s = (Ok tt, after_write_shard n d s).
Proof.
  unfold _write_shard, _write_shard_mapping, bind, write_file, modify, lift, int.
  rewrite py_int_str. unfold after_write_shard.
  destruct (Nat.eqb n 0); reflexivity.
Qed.

Lemma write_shards_run segs s :
  write_shards py_int segs s = (Ok tt, shards_written segs s).
Proof.
  unfold write_shards, shards_written.
  apply (for_each_total (enumerate segs) _
           (fun nd s => after_write_shard (fst nd) (snd nd) s)).
  intros [n d] s'. apply write_shard_run.
Qed.

Lemma str_not_in_seq j :
  str j ∉ map str (seq 0 j).
Proof.
  intros Hin. apply list_elem_of_fmap in Hin as (i & E & Hi).
  apply (str_inj py_int py_int_str) in E. subst i.
  apply elem_of_seq in Hi. lia.
Qed.

Lemma drop_primary (m0 : list (string * Range)) m j :
  dict_keys m0 = map str (seq 0 m) -> j < m ->
  exists old, drop j m0 = (str j, old) :: drop (S j) m0.
Proof.
  intros Hkeys Hj.
  assert (Hk : dict_keys m0 !! j = Some (str j)).
  { rewrite Hkeys, list_lookup_fmap, lookup_seq_lt by lia. reflexivity. }
  unfold dict_keys in Hk. rewrite list_lookup_fmap in Hk.
  destruct (m0 !! j) as [[k old]|] eqn:Hm; simpl in Hk; [|discriminate].
  injection Hk as ->. exists old. apply drop_S, Hm.
Qed.

(** What the loop over the segments leaves. *)
Lemma shards_written_spec segs s :
  let s' := shards_written segs s in
  mapfile s' = mapfile s /\
  last_char_position s'
    = (if decide (segs = []) then last_char_position s else total_length segs) /\
  (forall i d, segs !! i = Some d -> shard_files s' !! str i = Some d) /\
  (forall k, (forall i, i < length segs -> k <> str i) ->
     shard_files s' !! k = shard_files s !! k) /\
  (forall m, dict_keys (mapping s) = map str (seq 0 m) ->
     mapping s' = primary_catalog segs ++ drop (length segs) (mapping s)).
Proof.
  induction segs as [|x l IH] using rev_ind; cbn zeta.
  - cbn. repeat split; auto. intros i d H. inversion H.
  - unfold shards_written. rewrite enumerate_snoc, fold_left_app. cbn [fold_left fst snd].
    fold (shards_written l s). set (s1 := shards_written l s) in *.
    cbn zeta in IH. destruct IH as (Hfile & Hpos & Hwritten & Hother & Hmap).
    assert (Hp : (if Nat.eqb (length l) 0 then 0%Z else last_char_position s1)
                 = total_length l).
    { rewrite Hpos. destruct l as [|y l']; [reflexivity|]. cbn [length Nat.eqb].
      destruct (decide (y :: l' = [])); [discriminate|reflexivity]. }
    unfold after_write_shard. rewrite Hp.
    cbn [mapfile last_char_position shard_files mapping].
    split; [assumption|]. split; [|split; [|split]].
    + destruct (decide (l ++ [x] = [])) as [E|_]; [destruct l; discriminate|].
      unfold total_length. rewrite concat_app, length_app. cbn [concat].
      rewrite app_nil_r. lia.
    + intros i d Hi. destruct (decide (i = length l)) as [->|Hne].
      * rewrite lookup_app_r, Nat.sub_diag in Hi by lia. cbn in Hi.
        injection Hi as ->. apply lookup_insert_eq.
      * assert (Hlt : i < length l).
        { apply lookup_lt_Some in Hi. rewrite length_app in Hi. cbn in Hi. lia. }
        rewrite lookup_app_l in Hi by assumption.
        rewrite lookup_insert_ne; [auto|].
        intros E. apply (str_inj py_int py_int_str) in E. lia.
    + intros k Hk. rewrite length_app in Hk. cbn [length] in Hk.
      rewrite lookup_insert_ne by (intros E; apply (Hk (length l)); [lia|auto]).
      apply Hother. intros i Hi. apply Hk. lia.
    + intros m Hkeys. rewrite (Hmap m Hkeys).
      rewrite dict_set_app_fresh
        by (rewrite primary_catalog_keys; apply str_not_in_seq).
      assert (Hcat : primary_catalog (l ++ [x])
                     = primary_catalog l
                       ++ [(str (length l),
                            mkRange (if (total_length l =? 0)%Z then total_length l
                                     else (total_length l + 1)%Z)
                                    (total_length l + Z.of_nat (length x))%Z)]).
      { unfold primary_catalog. rewrite length_app. cbn [length].
        replace (length l + 1) with (S (length l)) by lia.
        rewrite seq_S, map_app, recorded_ranges_snoc. cbn [map Nat.add].
        rewrite combine_snoc
          by (rewrite length_map, length_seq, recorded_ranges_length; reflexivity).
        reflexivity. }
      rewrite Hcat, <- app_assoc. f_equal.
      rewrite length_app. cbn [length].
      replace (length l + 1) with (S (length l)) by lia.
      destruct (decide (length l < m)) as [Hlt|Hge].
      * destruct (drop_primary (mapping s) m (length l) Hkeys Hlt) as [old ->].
        cbn. destruct (decide (str (length l) = str (length l))); [reflexivity|congruence].
      * assert (Hlen : length (mapping s) = m).
        { rewrite <- (length_map fst). fold (dict_keys (mapping s)).
          rewrite Hkeys, length_map, length_seq. reflexivity. }
        rewrite !drop_ge by lia. reflexivity.
Qed.
End WriteShards.

(** * Building the shards *)

(** The segments of the characters of a corpus, with what the shard
    manager needs of them. *)
Lemma generate_sharded_data_segments (data : list ascii) (count : Z) :
  (1 <= count)%Z ->
  let q := Z.to_nat (Z.of_nat (length data) / count) in
  let k := Z.to_nat count in
  exists segs,
    _generate_sharded_data count data = Ok segs /\
    segs = map (fun i => take q (drop (q * i) data)) (seq 0 (k - 1))
           ++ [drop (q * (k - 1)) data] /\
    length segs = k /\
    concat segs = data /\
    q * k <= length data /\
    forall i, i < k -> total_length (take i segs) = Z.of_nat (q * i).
Proof.
  intros Hcount q k. eexists. split; [apply generate_sharded_data_explicit, Hcount|].
  fold q k. split; [reflexivity|].
  set (n := Z.of_nat (length data)).
  assert (Hdiv : n = (count * (n / count) + n mod count)%Z)
    by (apply Z.div_mod; lia).
  assert (Hrem : (0 <= n mod count < count)%Z) by (apply Z.mod_pos_bound; lia).
  assert (Hquo : (0 <= n / count)%Z) by (apply Z.div_pos; lia).
  assert (Hlen : q * k <= length data) by (unfold q, k; fold n; nia).
  assert (Hslices : forall j, j <= k - 1 ->
            concat (map (fun i => take q (drop (q * i) data)) (seq 0 j))
            = take (q * j) data).
  { intros j Hj. rewrite <- slices_explicit by nia. apply concat_slices. nia. }
  split; [|split; [|split; [assumption|]]].
  - rewrite length_app, length_map, length_seq. cbn. lia.
  - rewrite concat_app, Hslices by lia. cbn [concat]. rewrite app_nil_r.
    apply take_drop.
  - intros i Hi. unfold total_length. f_equal.
    rewrite take_app_le by (rewrite length_map, length_seq; lia).
    rewrite <- fmap_take, take_seq. replace (i `min` (k - 1)) with i by lia.
    change (concat ((fun i0 => take q (drop (q * i0) data)) <$> seq 0 i))
      with (concat (map (fun i0 => take q (drop (q * i0) data)) (seq 0 i))).
    rewrite (Hslices i) by lia. rewrite length_take. nia.
Qed.

Lemma recorded_ranges_lookup p segs i d :
  segs !! i = Some d ->
  recorded_ranges p segs !! i
  = Some (let p' := (p + total_length (take i segs))%Z in
          mkRange (if (p' =? 0)%Z then p' else (p' + 1)%Z)
                  (p' + Z.of_nat (length d))%Z).
Proof.
  revert p i. induction segs as [|d' segs IH]; intros p [|i] Hd; try discriminate.
  - cbn in Hd. injection Hd as ->. cbn. unfold total_length. cbn.
    rewrite Z.add_0_r. reflexivity.
  - cbn in Hd. cbn [recorded_ranges lookup list_lookup take].
    rewrite (IH _ _ Hd). cbn zeta. unfold total_length. cbn [concat].
    rewrite length_app.
    replace (p + Z.of_nat (length d') + Z.of_nat (length (concat (take i segs))))%Z
      with (p + Z.of_nat (length d' + length (concat (take i segs))))%Z by lia.
    reflexivity.
Qed.

Section BuildShards.
Variable py_int : string -> option nat.
Hypothesis py_int_str : forall n, py_int (str n) = Some n.

Lemma dict_get_combine_str {V} (vs : list V) a n i :
  length vs = n -> a <= i < a + n ->
  dict_get (str i) (combine (map str (seq a n)) vs) = vs !! (i - a).
Proof.
  revert a vs. induction n as [|n IH]; intros a [|v vs] Hlen Hi; cbn in *; try lia.
  destruct (decide (str i = str a)) as [E|Hne].
  - apply (str_inj py_int py_int_str) in E. subst a.
    rewrite Nat.sub_diag. reflexivity.
  - assert (i <> a) by congruence.
    rewrite (IH (S a) vs) by lia.
    replace (i - a) with (S (i - S a)) by lia. reflexivity.
Qed.

Lemma build_shards_run s data count segs :
  mapping s = [] ->
  _generate_sharded_data count data = Ok segs ->
  build_shards py_int count data s
  = (Ok None, with_mapfile (Some (mapping (shards_written segs s)))
                           (shards_written segs s)).
Proof.
  intros Hempty Hgen.
  unfold build_shards, bind, gets, lift. rewrite Hempty, Hgen.
  rewrite (write_shards_run py_int py_int_str). reflexivity.
Qed.

(** X3. [build_shards] on an empty mapping with [count >= 1] returns
    [None], writes the segments of the partitioner as the files
    [0 .. count-1], records exactly these keys, in this order, persists
    the catalog, and leaves every other file alone; the files read in
    numeric id order give the corpus back. *)
Theorem build_shards_result (s : ShardHandler) (data : list ascii) (count : Z) :
  mapping s = [] -> (1 <= count)%Z ->
  let s' := after (build_shards py_int count data) s in
  outcome (build_shards py_int count data) s = Ok None /\
  dict_keys (mapping s') = map str (seq 0 (Z.to_nat count)) /\
  mapfile s' = Some (mapping s') /\
  (exists segs, _generate_sharded_data count data = Ok segs /\
     forall i segment, segs !! i = Some segment ->
       shard_files s' !! str i = Some segment) /\
  primaries_in_id_order (Z.to_nat count) s' = Some data /\
  (forall k, (forall i, i < Z.to_nat count -> k <> str i) ->
     shard_files s' !! k = shard_files s !! k).
Proof.
  intros Hempty Hcount.
  destruct (generate_sharded_data_segments data count Hcount)
    as (segs & Hgen & _ & Hlen & Hcat & _).
  unfold outcome, after. rewrite (build_shards_run s data count segs Hempty Hgen).
  cbn [fst snd].
  destruct (shards_written_spec py_int py_int_str segs s)
    as (Hfile & _ & Hwritten & Hother & Hmap).
  specialize (Hmap 0). rewrite Hempty in Hmap. specialize (Hmap eq_refl).
  rewrite drop_nil, app_nil_r in Hmap.
  cbn [mapping mapfile shard_files with_mapfile].
  split; [reflexivity|]. split; [|split; [reflexivity|split; [|split]]].
  - rewrite Hmap, primary_catalog_keys, Hlen. reflexivity.
  - exists segs. split; [assumption|]. exact Hwritten.
  - unfold primaries_in_id_order. cbn [shard_files with_mapfile].
    rewrite (mapM_Some_2 _ _ segs); [rewrite Hcat; reflexivity|].
    rewrite <- Hlen. apply Forall2_same_length_lookup_2.
    + rewrite length_seq. reflexivity.
    + intros i n d Hn Hd. apply lookup_seq in Hn as [-> _].
      cbn [Nat.add]. apply Hwritten, Hd.
  - rewrite <- Hlen. exact Hother.
Qed.
End BuildShards.
(** * Reading the shards back *)

(** A text without carriage return is read as it is. *)
Lemma universal_newlines_id (l : list ascii) :
  CR ∉ l -> universal_newlines l = l.
Proof.
  induction l as [|c rest IH]; intros Hno; [reflexivity|]. cbn [universal_newlines].
  destruct (Ascii.eqb_spec c CR) as [->|Hne].
  - exfalso. apply Hno, list_elem_of_here.
  - f_equal. apply IH. intros Hin. apply Hno, list_elem_of_further, Hin.
Qed.

Lemma universal_newlines_segments (segs : list (list ascii)) :
  CR ∉ concat segs -> map universal_newlines segs = segs.
Proof.
  induction segs as [|seg segs IH]; intros Hno; [reflexivity|]. cbn [map concat] in *.
  rewrite universal_newlines_id, IH; [reflexivity| |];
    intros Hin; apply Hno, elem_of_app; auto.
Qed.

Lemma load_loop (ids : list string) (acc : list (list ascii)) s :
  for_fold ids acc (fun res db => let! c := read_file db in ret (res ++ [c])) s
  = (match mapM (fun id => shard_files s !! id) ids with
     | Some cs => Ok (acc ++ map universal_newlines cs)
     | None => Raise FileNotFoundError
     end, s).
Proof.
  revert acc. induction ids as [|id ids IH]; intros acc; cbn.
  - rewrite app_nil_r. reflexivity.
  - unfold bind at 1. unfold bind at 1. unfold read_file.
    destruct (shard_files s !! id) as [c|]; cbn; [|reflexivity].
    rewrite IH. destruct (mapM (fun id0 => shard_files s !! id0) ids); cbn;
      [rewrite <- app_assoc|]; reflexivity.
Qed.

Lemma load_data_from_shards_run (s : ShardHandler) :
  load_data_from_shards s
  = (match mapM (fun id => shard_files s !! id) (get_shard_ids_of (mapping s)) with
     | Some contents => Ok (concat (map universal_newlines contents))
     | None => Raise FileNotFoundError
     end, s).
Proof.
  unfold load_data_from_shards, bind, get_shard_ids, gets.
  rewrite load_loop.
  destruct (mapM _ (get_shard_ids_of (mapping s))); reflexivity.
Qed.

(** X6. [load_data_from_shards] changes nothing. It returns the
    texts read from the files of [get_shard_ids], concatenated in that
    order, each text being the file's content with the line endings
    ['\r\n'] and ['\r'] translated to ['\n'], and it raises
    [FileNotFoundError] exactly when one of these keys has no file. *)
Theorem load_data_from_shards_reads (s : ShardHandler) :
  load_data_from_shards s
  = (match mapM (fun id => shard_files s !! id) (get_shard_ids_of (mapping s)) with
     | Some contents => Ok (concat (map universal_newlines contents))
     | None => Raise FileNotFoundError
     end, s) /\
  (outcome load_data_from_shards s = Raise FileNotFoundError <->
   exists id, id ∈ get_shard_ids_of (mapping s) /\ ~ on_disk s id).
Proof.
  assert (Hrun := load_data_from_shards_run s).
  split; [exact Hrun|].
  unfold outcome. rewrite Hrun. cbn [fst].
  destruct (mapM (fun id => shard_files s !! id) (get_shard_ids_of (mapping s)))
    as [cs|] eqn:Hm.
  - split; [discriminate|]. intros (id & Hid & Hno). exfalso. apply Hno.
    apply mapM_Some_1 in Hm.
    apply list_elem_of_lookup in Hid as [i Hi].
    destruct (Forall2_lookup_l _ _ _ _ _ Hm Hi) as (c & _ & Hc).
    unfold on_disk. rewrite Hc. eauto.
  - split; [|reflexivity]. intros _.
    apply mapM_None in Hm. apply Exists_exists in Hm as (id & Hid & Hno).
    exists id. split; [exact Hid|].
    unfold on_disk. rewrite Hno. intros [? ?]. discriminate.
Qed.

Lemma shard_ids_up_to_ten (m : dict string Range) k :
  k <= 10 -> dict_keys m = map str (seq 0 k) ->
  get_shard_ids_of m = map str (seq 0 k).
Proof.
  intros Hk Hkeys. unfold get_shard_ids_of. rewrite Hkeys.
  do 11 (destruct k as [|k]; [vm_compute; reflexivity|]). lia.
Qed.

Section BuildAndLoad.
Variable py_int : string -> option nat.
Hypothesis py_int_str : forall n, py_int (str n) = Some n.

(** X4. The range that [build_shards] records for shard [i], with
    [q = len(data) // count]: it ends at [q * (i + 1)], the last one at
    [len(data)], and starts at [q * i + 1], or at 0 when [q * i] is 0. *)
Theorem build_shards_ranges (s : ShardHandler) (data : list ascii) (count : Z) (i : nat) :
  mapping s = [] -> (1 <= count)%Z -> i < Z.to_nat count ->
  let q := Z.to_nat (Z.of_nat (length data) / count) in
  dict_get (str i) (mapping (after (build_shards py_int count data) s))
  = Some (mkRange
            (if Nat.eqb (q * i) 0 then 0 else Z.of_nat (q * i) + 1)
            (if Nat.eqb i (Z.to_nat count - 1) then Z.of_nat (length data)
             else Z.of_nat (q * (i + 1)))).
Proof.
  intros Hempty Hcount Hi q.
  destruct (generate_sharded_data_segments data count Hcount)
    as (segs & Hgen & Hsegs & Hlen & Hcat & Hq & Htotal).
  fold q in Hsegs, Hq, Htotal. set (k := Z.to_nat count) in *.
  unfold after. rewrite (build_shards_run py_int py_int_str s data count segs Hempty Hgen).
  cbn [snd mapping with_mapfile].
  destruct (shards_written_spec py_int py_int_str segs s) as (_ & _ & _ & _ & Hmap).
  specialize (Hmap 0). rewrite Hempty in Hmap. specialize (Hmap eq_refl).
  rewrite drop_nil, app_nil_r in Hmap. rewrite Hmap. unfold primary_catalog.
  rewrite (dict_get_combine_str py_int py_int_str)
    by (rewrite ?recorded_ranges_length; lia).
  rewrite Nat.sub_0_r.
  destruct (segs !! i) as [d|] eqn:Hd;
    [|apply lookup_ge_None in Hd; lia].
  rewrite (recorded_ranges_lookup 0 segs i d Hd). cbn zeta.
  rewrite (Htotal i Hi), Z.add_0_l.
  assert (Hd_len : length d = if Nat.eqb i (k - 1) then length data - q * (k - 1) else q).
  { rewrite Hsegs in Hd. destruct (Nat.eqb_spec i (k - 1)) as [->|Hne].
    - rewrite lookup_app_r in Hd by (rewrite length_map, length_seq; lia).
      rewrite length_map, length_seq, Nat.sub_diag in Hd. cbn in Hd.
      injection Hd as <-. apply length_drop.
    - rewrite lookup_app_l in Hd by (rewrite length_map, length_seq; lia).
      rewrite list_lookup_fmap, lookup_seq_lt in Hd by lia. cbn in Hd.
      injection Hd as <-. rewrite length_take, length_drop. nia. }
  rewrite Hd_len. f_equal. f_equal.
  - destruct (Nat.eqb_spec (q * i) 0) as [E|E];
      destruct (Z.eqb_spec (Z.of_nat (q * i)) 0); lia.
  - destruct (Nat.eqb_spec i (k - 1)) as [->|Hne]; nia.
Qed.

(** X5. After [build_shards] with at most ten shards of a
    corpus that holds no carriage return, [load_data_from_shards]
    returns the corpus. *)
Theorem build_then_load (s : ShardHandler) (data : list ascii) (count : Z) :
  mapping s = [] -> (1 <= count <= 10)%Z -> CR ∉ data ->
  outcome load_data_from_shards (after (build_shards py_int count data) s) = Ok data.
Proof.
  intros Hempty Hcount Hcr.
  destruct (generate_sharded_data_segments data count) as (segs & Hgen & _ & Hlen & Hcat & _);
    [lia|].
  unfold after. rewrite (build_shards_run py_int py_int_str s data count segs Hempty Hgen).
  cbn [snd].
  destruct (shards_written_spec py_int py_int_str segs s) as (_ & _ & Hwritten & _ & Hmap).
  specialize (Hmap 0). rewrite Hempty in Hmap. specialize (Hmap eq_refl).
  rewrite drop_nil, app_nil_r in Hmap.
  unfold outcome. rewrite load_data_from_shards_run.
  cbn [fst mapping shard_files with_mapfile].
  rewrite (shard_ids_up_to_ten _ (length segs))
    by (rewrite ?Hmap, ?primary_catalog_keys; lia || reflexivity).
  rewrite (mapM_Some_2 _ _ segs).
  - rewrite universal_newlines_segments, Hcat by (rewrite Hcat; exact Hcr). reflexivity.
  - apply Forall2_same_length_lookup_2.
    + rewrite length_map, length_seq. reflexivity.
    + intros i id d Hid Hd. rewrite list_lookup_fmap in Hid.
      destruct (seq 0 (length segs) !! i) as [n|] eqn:Hn; [|discriminate].
      apply lookup_seq in Hn as [-> _]. cbn in Hid. injection Hid as <-.
      apply Hwritten, Hd.
Qed.
End BuildAndLoad.

(** * States that reconciliation leaves alone *)

Lemma handler_eq (a b : ShardHandler) :
  mapping a = mapping b ->
  last_char_position a = last_char_position b ->
  mapfile a = mapfile b ->
  shard_files a = shard_files b ->
  a = b.
Proof. destruct a, b. cbn. congruence. Qed.

Section Settled.
Variable py_int : string -> option nat.
Hypothesis py_int_str : forall n, py_int (str n) = Some n.

Lemma sync_noop_from_scan s fd G :
  mapfile s = Some (mapping s) ->
  fold_result (dict_keys (mapping s)) ([], 0) (sync_scan_key py_int (disk_of s))
    = Ok (fd, G) ->
  (forall p g, dict_get p fd = Some g -> max_rep g = G /\ all_keys g = []) ->
  sync_replication py_int s = (Ok tt, s).
Proof.
  intros Hfile Hfold Huniform.
  assert (Hload : with_mapping (persisted s) s = s).
  { unfold persisted. rewrite Hfile. destruct s. reflexivity. }
  assert (Hwrite : with_mapfile (Some (mapping s)) s = s).
  { unfold with_mapfile. rewrite <- Hfile. destruct s. reflexivity. }
  assert (Hgroups : forall p, p ∈ dict_keys fd ->
            exists g, dict_get p fd = Some g /\ max_rep g = G /\ all_keys g = []).
  { intros p Hp. apply dict_get_keys in Hp as [g Hg].
    exists g. split; [assumption|]. apply (Huniform p g Hg). }
  unfold sync_replication, bind at 1, load_map, gets.
  fold (persisted s). unfold bind at 1, modify. rewrite Hload.
  unfold bind at 1. fold (disk_of s).
  unfold bind at 1, lift. unfold persisted. rewrite Hfile, Hfold. cbn [fst snd].
  unfold bind at 1.
  rewrite (fill_noop py_int)
    by (intros p Hp; destruct (Hgroups p Hp) as (g & ? & ? & ?); eauto).
  unfold bind at 1.
  rewrite copy_noop by (intros p Hp; destruct (Hgroups p Hp) as (g & ? & ? & ?); eauto).
  unfold write_map, modify. rewrite Hwrite. reflexivity.
Qed.

Lemma scan_level ks fd G disk :
  scan_inv py_int disk ks fd G ->
  G = fold_right Nat.max 0 (map (key_level py_int) ks).
Proof.
  intros (Hkeys & Hgroups & Hmax).
  assert (Hle : forall k, k ∈ ks -> key_level py_int k <= G).
  { intros k Hk. destruct (Hkeys k Hk) as (p & j & g & Hp & Hg & Hj & _).
    unfold key_level. rewrite Hp. destruct (Hgroups p g Hg) as (_ & HG & _). lia. }
  assert (Hbound : fold_right Nat.max 0 (map (key_level py_int) ks) <= G).
  { clear Hkeys Hmax Hgroups. induction ks as [|k ks IH]; cbn; [lia|].
    assert (key_level py_int k <= G) by (apply Hle, list_elem_of_here).
    assert (fold_right Nat.max 0 (map (key_level py_int) ks) <= G).
    { apply IH. intros k' Hk'. apply Hle, list_elem_of_further, Hk'. }
    lia. }
  assert (Hattained : forall k, k ∈ ks ->
            key_level py_int k <= fold_right Nat.max 0 (map (key_level py_int) ks)).
  { clear. induction ks as [|k' ks IH]; intros k Hk; [inversion Hk|].
    cbn. apply elem_of_cons in Hk as [->|Hk]; [lia|]. specialize (IH k Hk). lia. }
  destruct Hmax as [->|(k & p & Hk & Hp)]; [lia|].
  specialize (Hattained k Hk). unfold key_level in Hattained at 1.
  rewrite Hp in Hattained. lia.
Qed.

(** X7. [sync_replication] changes nothing and returns when the
    mapping is the persisted catalog, every key has its file, every key
    can be read, and every shard of the catalog has a key at the
    replication level of the catalog. *)
Theorem sync_replication_settled (s : ShardHandler) :
  mapfile s = Some (mapping s) ->
  (forall k, k ∈ dict_keys (mapping s) -> on_disk s k) ->
  (forall k, k ∈ dict_keys (mapping s) ->
     exists p j k',
       key_parse py_int k = Ok (p, j) /\ k' ∈ dict_keys (mapping s) /\
       key_parse py_int k' = Ok (p, replication_level py_int (mapping s))) ->
  sync_replication py_int s = (Ok tt, s).
Proof.
  intros Hfile Hdisk Hlevel.
  destruct (scan_total py_int (disk_of s) (dict_keys (mapping s))) as (fd & G & Hfold).
  { intros k Hk. destruct (Hlevel k Hk) as (p & j & _ & Hp & _). eauto. }
  apply (sync_noop_from_scan s fd G Hfile Hfold).
  assert (Hscan := scan_inv_fold py_int (disk_of s) _ _ _ Hfold).
  assert (HG := scan_level _ _ _ _ Hscan).
  fold (replication_level py_int (mapping s)) in HG.
  destruct Hscan as (Hkeys & Hgroups & _).
  intros p g Hg. destruct (Hgroups p g Hg) as (_ & Hle & (k & Hk & Hp) & Hall). split.
  - destruct (Hlevel k Hk) as (p' & j' & k' & Hp' & Hk' & Hlvl).
    assert (p' = p) by congruence. subst p'.
    destruct (Hkeys k' Hk') as (p2 & j2 & g2 & Hp2 & Hg2 & Hj2 & _).
    rewrite Hlvl in Hp2. injection Hp2 as <- <-.
    assert (g2 = g) by congruence. subst g2. lia.
  - destruct (all_keys g) as [|k0 rest]; [reflexivity|]. exfalso.
    destruct (Hall k0) as [Hk0 Hd]; [apply list_elem_of_here|].
    apply disk_of_false in Hd. apply Hd, Hdisk, Hk0.
Qed.

(** A catalog of primaries only, with all their files, is settled. *)
Lemma sync_noop_primaries s :
  mapfile s = Some (mapping s) ->
  (forall k, k ∈ dict_keys (mapping s) -> has_dash k = false /\ on_disk s k) ->
  sync_replication py_int s = (Ok tt, s).
Proof.
  intros Hfile Hkeys.
  destruct (scan_total py_int (disk_of s) (dict_keys (mapping s))) as (fd & G & Hfold).
  { intros k Hk. exists (k, 0). apply key_parse_no_dash, Hkeys, Hk. }
  apply (sync_noop_from_scan s fd G Hfile Hfold).
  destruct (scan_inv_fold py_int (disk_of s) _ _ _ Hfold) as (Hks & Hgroups & Hmax).
  assert (HG : G = 0).
  { destruct Hmax as [->|(k & p & Hk & Hp)]; [reflexivity|].
    rewrite key_parse_no_dash in Hp by (apply Hkeys, Hk). congruence. }
  intros p g Hg. destruct (Hgroups p g Hg) as (_ & Hle & _ & Hall). split; [lia|].
  destruct (all_keys g) as [|k0 rest]; [reflexivity|]. exfalso.
  destruct (Hall k0) as [Hk0 Hd]; [apply list_elem_of_here|].
  apply disk_of_false in Hd. apply Hd, Hkeys, Hk0.
Qed.
End Settled.

(** * Adding and removing a shard after a build *)

Lemma fold_left_max_spec (l : list nat) (x : nat) :
  fold_left Nat.max l x ∈ x :: l /\
  forall y, y ∈ x :: l -> y <= fold_left Nat.max l x.
Proof.
  revert x. induction l as [|z l IH]; intros x; cbn.
  - split; [apply list_elem_of_here|].
    intros y Hy. apply list_elem_of_singleton in Hy. lia.
  - destruct (IH (Nat.max x z)) as [Hin Hmax]. split.
    + apply elem_of_cons in Hin as [E|Hin].
      * rewrite E. destruct (Nat.max_spec x z) as [[_ ->]|[_ ->]].
        -- apply list_elem_of_further, list_elem_of_here.
        -- apply list_elem_of_here.
      * do 2 apply list_elem_of_further. exact Hin.
    + intros y Hy.
      assert (Nat.max x z <= fold_left Nat.max l (Nat.max x z))
        by (apply Hmax, list_elem_of_here).
      apply elem_of_cons in Hy as [->|Hy]; [lia|].
      apply elem_of_cons in Hy as [->|Hy]; [lia|].
      apply Hmax, list_elem_of_further, Hy.
Qed.

Lemma py_max_spec (l : list nat) top :
  py_max l = Ok top -> top ∈ l /\ forall y, y ∈ l -> y <= top.
Proof.
  destruct l as [|x l]; cbn; [discriminate|]. intros [= <-].
  apply fold_left_max_spec.
Qed.

Lemma py_max_below (l : list nat) k :
  0 < k -> (forall n, n ∈ l <-> n < k) -> py_max l = Ok (k - 1).
Proof.
  intros Hk Hl. destruct (py_max_ok l) as [top Htop].
  { intros ->. assert (H : 0 ∈ @nil nat) by (apply Hl; lia). inversion H. }
  destruct (py_max_spec l top Htop) as [Hin Hmax].
  apply Hl in Hin. assert (k - 1 <= top) by (apply Hmax, Hl; lia).
  rewrite Htop. f_equal. lia.
Qed.

Section Resize.
Variable py_int : string -> option nat.
Hypothesis py_int_str : forall n, py_int (str n) = Some n.

Lemma build_shards_built s data count segs :
  mapping s = [] ->
  _generate_sharded_data count data = Ok segs ->
  build_shards py_int count data s = (Ok None, built_from segs s).
Proof. apply (build_shards_run py_int py_int_str). Qed.

Lemma built_from_mapping segs s :
  mapping s = [] -> mapping (built_from segs s) = primary_catalog segs.
Proof.
  intros Hempty. unfold built_from. cbn [mapping with_mapfile].
  destruct (shards_written_spec py_int py_int_str segs s) as (_ & _ & _ & _ & Hmap).
  rewrite (Hmap 0) by (rewrite Hempty; reflexivity).
  rewrite Hempty, drop_nil, app_nil_r. reflexivity.
Qed.

Lemma built_from_files segs s :
  (forall i d, segs !! i = Some d -> shard_files (built_from segs s) !! str i = Some d) /\
  (forall k, (forall i, i < length segs -> k <> str i) ->
     shard_files (built_from segs s) !! k = shard_files s !! k).
Proof.
  unfold built_from. cbn [shard_files with_mapfile].
  destruct (shards_written_spec py_int py_int_str segs s) as (_ & _ & H1 & H2 & _).
  auto.
Qed.

(** Writing all the segments over a state that holds some of the
    primaries already gives the state a fresh build gives. *)
Lemma built_from_agree segs s s1 m :
  segs <> [] -> mapping s = [] ->
  dict_keys (mapping s1) = map str (seq 0 m) -> m <= length segs ->
  (forall key, (forall i, i < length segs -> key <> str i) ->
     shard_files s1 !! key = shard_files s !! key) ->
  built_from segs s1 = built_from segs s.
Proof.
  intros Hne Hempty Hkeys Hm Hfiles.
  destruct (shards_written_spec py_int py_int_str segs s) as (_ & Hp & Hw & Ho & Hmap).
  destruct (shards_written_spec py_int py_int_str segs s1) as (_ & Hp1 & Hw1 & Ho1 & Hmap1).
  assert (Hmapping : mapping (shards_written segs s1) = mapping (shards_written segs s)).
  { rewrite (Hmap1 m Hkeys), (Hmap 0) by (rewrite Hempty; reflexivity).
    rewrite Hempty, drop_nil. f_equal. apply drop_ge.
    rewrite <- (length_map fst). fold (dict_keys (mapping s1)).
    rewrite Hkeys, length_map, length_seq. exact Hm. }
  unfold built_from. apply handler_eq; cbn [mapping last_char_position mapfile
                                           shard_files with_mapfile].
  - exact Hmapping.
  - rewrite Hp, Hp1. destruct (decide (segs = [])); [contradiction|reflexivity].
  - rewrite Hmapping. reflexivity.
  - apply map_eq. intros key.
    destruct (decide (key ∈ map str (seq 0 (length segs)))) as [Hin|Hno].
    + apply list_elem_of_fmap in Hin as (i & -> & Hi). apply elem_of_seq in Hi.
      destruct (lookup_lt_is_Some_2 segs i) as [d Hd]; [lia|].
      rewrite (Hw i d Hd), (Hw1 i d Hd). reflexivity.
    + assert (Hk : forall i, i < length segs -> key <> str i).
      { intros i Hi E. apply Hno. apply list_elem_of_fmap. exists i.
        split; [assumption|]. apply elem_of_seq. lia. }
      rewrite (Ho key Hk), (Ho1 key Hk). apply Hfiles, Hk.
Qed.

(** [add_shard], step by step. *)
Lemma add_shard_unfold st :
  add_shard py_int st
  = let s1 := with_mapping (persisted st) st in
    match load_data_from_shards s1 with
    | (Ok data, s2) =>
        match sorted_int_shard_ids py_int s2 with
        | (Ok keys, s3) =>
            match py_max keys with
            | Ok top =>
                match _generate_sharded_data (Z.of_nat (top + 2)) data with
                | Ok segs => sync_replication py_int (built_from segs s3)
                | Raise e => (Raise e, s3)
                end
            | Raise e => (Raise e, s3)
            end
        | (Raise e, s3) => (Raise e, s3)
        end
    | (Raise e, s2) => (Raise e, s2)
    end.
Proof.
  unfold add_shard, bind at 1, load_map, gets. fold (persisted st).
  unfold bind at 1, modify. cbn zeta.
  unfold bind at 1. destruct (load_data_from_shards _) as [[data|e] s2]; [|reflexivity].
  unfold bind at 1. destruct (sorted_int_shard_ids py_int s2) as [[keys|e] s3]; [|reflexivity].
  unfold bind at 1, lift. destruct (py_max keys) as [top|e]; [|reflexivity].
  unfold bind at 1. destruct (_generate_sharded_data _ data) as [segs|e]; [|reflexivity].
  unfold bind at 1. rewrite (write_shards_run py_int py_int_str).
  unfold bind at 1, write_map, modify. reflexivity.
Qed.

Lemma primaries_are_shard_keys (m : dict string Range) k :
  dict_keys m = map str (seq 0 k) ->
  forall key, key ∈ dict_keys m -> shard_key key.
Proof.
  intros Hkeys key Hin. rewrite Hkeys in Hin.
  apply list_elem_of_fmap in Hin as (i & -> & _). exists i. auto.
Qed.

Lemma shard_count st k :
  dict_keys (mapping st) = map str (seq 0 k) -> 0 < k ->
  exists keys, sorted_int_shard_ids py_int st = (Ok keys, st) /\
               py_max keys = Ok (k - 1).
Proof.
  intros Hkeys Hk.
  destruct (sorted_int_shard_ids_spec py_int py_int_str st
              (primaries_are_shard_keys _ k Hkeys)) as (keys & Hrun & Hmem).
  exists keys. split; [assumption|]. apply py_max_below; [assumption|].
  intros n. rewrite Hmem, Hkeys, list_elem_of_fmap. split.
  - intros (i & E & Hi). apply (str_inj py_int py_int_str) in E. subst i.
    apply elem_of_seq in Hi. lia.
  - intros Hn. exists n. split; [reflexivity|]. apply elem_of_seq. lia.
Qed.

Lemma built_from_keys segs s :
  mapping s = [] ->
  dict_keys (mapping (built_from segs s)) = map str (seq 0 (length segs)).
Proof.
  intros Hempty. rewrite built_from_mapping by assumption. apply primary_catalog_keys.
Qed.

Lemma load_built_text segs s :
  mapping s = [] -> length segs <= 10 ->
  load_data_from_shards (built_from segs s)
  = (Ok (concat (map universal_newlines segs)), built_from segs s).
Proof.
  intros Hempty Hlen. rewrite load_data_from_shards_run.
  rewrite (shard_ids_up_to_ten _ (length segs) Hlen (built_from_keys segs s Hempty)).
  rewrite (mapM_Some_2 _ _ segs); [reflexivity|].
  apply Forall2_same_length_lookup_2.
  - rewrite length_map, length_seq. reflexivity.
  - intros i id d Hid Hd. rewrite list_lookup_fmap in Hid.
    destruct (seq 0 (length segs) !! i) as [n|] eqn:Hn; [|discriminate].
    apply lookup_seq in Hn as [-> _]. cbn in Hid. injection Hid as <-.
    apply (built_from_files segs s), Hd.
Qed.

Lemma load_built segs s :
  mapping s = [] -> length segs <= 10 -> CR ∉ concat segs ->
  load_data_from_shards (built_from segs s) = (Ok (concat segs), built_from segs s).
Proof.
  intros Hempty Hlen Hcr. rewrite load_built_text by assumption.
  rewrite universal_newlines_segments by exact Hcr. reflexivity.
Qed.

Lemma sync_built segs s :
  mapping s = [] ->
  sync_replication py_int (built_from segs s) = (Ok tt, built_from segs s).
Proof.
  intros Hempty. apply (sync_noop_primaries py_int); [reflexivity|].
  intros key Hin. rewrite built_from_keys in Hin by assumption.
  apply list_elem_of_fmap in Hin as (i & -> & Hi). apply elem_of_seq in Hi.
  split; [apply str_no_dash|].
  destruct (lookup_lt_is_Some_2 segs i) as [d Hd]; [lia|].
  unfold on_disk. rewrite (proj1 (built_from_files segs s) i d Hd). eauto.
Qed.

Lemma add_shard_built s data count segs segs' :
  mapping s = [] -> (1 <= count <= 10)%Z ->
  _generate_sharded_data count data = Ok segs ->
  length segs = Z.to_nat count -> concat segs = data -> CR ∉ data ->
  _generate_sharded_data (count + 1) data = Ok segs' ->
  length segs' = Z.to_nat (count + 1) ->
  add_shard py_int (built_from segs s) = (Ok tt, built_from segs' s).
Proof.
  intros Hempty Hcount Hgen Hlen Hcat Hcr Hgen' Hlen'.
  rewrite add_shard_unfold. cbn zeta.
  assert (Hload : with_mapping (persisted (built_from segs s)) (built_from segs s)
                  = built_from segs s) by reflexivity.
  rewrite Hload, load_built, Hcat by (assumption || lia || (rewrite Hcat; assumption)).
  destruct (shard_count (built_from segs s) (length segs)) as (keys & -> & ->);
    [apply built_from_keys, Hempty|lia|].
  replace (Z.of_nat (length segs - 1 + 2)) with (count + 1)%Z by lia.
  rewrite Hgen'.
  rewrite (built_from_agree segs' s (built_from segs s) (length segs)).
  - apply sync_built, Hempty.
  - intros ->. cbn in Hlen'. lia.
  - assumption.
  - apply built_from_keys, Hempty.
  - lia.
  - intros key Hkey. apply (built_from_files segs s).
    intros i Hi. apply Hkey. lia.
Qed.

(** X8. After a build of at most ten shards of a corpus that
    holds no carriage return, [add_shard] leaves exactly the state that
    a build with one shard more leaves: the same files, catalog and
    persisted catalog. *)
Theorem build_then_add_shard (s : ShardHandler) (data : list ascii) (count : Z) :
  mapping s = [] -> (1 <= count <= 10)%Z -> CR ∉ data ->
  add_shard py_int (after (build_shards py_int count data) s)
  = (Ok tt, after (build_shards py_int (count + 1) data) s).
Proof.
  intros Hempty Hcount Hcr.
  destruct (generate_sharded_data_segments data count)
    as (segs & Hgen & _ & Hlen & Hcat & _); [lia|].
  destruct (generate_sharded_data_segments data (count + 1))
    as (segs' & Hgen' & _ & Hlen' & _); [lia|].
  unfold after.
  rewrite (build_shards_built s data count segs Hempty Hgen).
  rewrite (build_shards_built s data (count + 1) segs' Hempty Hgen').
  cbn [snd]. eapply add_shard_built; eauto.
Qed.

Lemma dict_keys_remove_last {V} (d : dict string V) (l : list string) (k : string) :
  dict_keys d = l ++ [k] -> k ∉ l -> dict_keys (dict_remove k d) = l.
Proof.
  revert l. induction d as [|[k' v] d IH]; intros l Hkeys Hk.
  - destruct l; discriminate.
  - destruct l as [|x l']; cbn in Hkeys.
    + injection Hkeys as -> Hd. apply map_eq_nil in Hd. subst d. cbn.
      destruct (decide (k = k)); [reflexivity|contradiction].
    + injection Hkeys as -> Hd. cbn.
      destruct (decide (k = x)) as [->|Hne].
      * exfalso. apply Hk, list_elem_of_here.
      * cbn. f_equal. apply IH; [assumption|].
        intros Hin. apply Hk, list_elem_of_further, Hin.
Qed.

Lemma first_parts_primaries a n :
  map_result (fun key_ => rbind (py_index (split_dash key_) 0) (int py_int))
             (map str (seq a n))
  = Ok (seq a n).
Proof.
  revert a. induction n as [|n IH]; intros a; cbn [seq map map_result]; [reflexivity|].
  rewrite (split_dash_no_dash _ (str_no_dash a)). cbn [py_index lookup list_lookup rbind].
  unfold int at 1. rewrite py_int_str. cbn [rbind]. rewrite IH. reflexivity.
Qed.

Lemma remove_shard_built s data k segs segs' :
  mapping s = [] -> 1 <= k -> k + 1 <= 10 ->
  length segs' = S k -> concat segs' = data -> CR ∉ data ->
  _generate_sharded_data (Z.of_nat k) data = Ok segs -> length segs = k ->
  remove_shard py_int (built_from segs' s)
  = (Ok tt, built_from segs (with_shard_files (delete (str k) (shard_files s)) s)).
Proof.
  intros Hempty Hk Hten Hlen' Hcat Hcr Hgen Hlen.
  pose proof (built_from_keys segs' s Hempty) as Hkeys. rewrite Hlen' in Hkeys.
  destruct (lookup_lt_is_Some_2 segs' k) as [d Hd]; [lia|].
  pose proof (proj1 (built_from_files segs' s) k d Hd) as Hfile.
  assert (Hget : is_Some (dict_get (str k) (mapping (built_from segs' s)))).
  { apply dict_get_keys. rewrite Hkeys. apply list_elem_of_fmap. exists k.
    split; [reflexivity|]. apply elem_of_seq. lia. }
  destruct Hget as [r Hget].
  unfold remove_shard. unfold bind at 1.
  rewrite load_built, Hcat by (assumption || lia || (rewrite Hcat; assumption)).
  unfold bind at 1, load_map, gets.
  unfold bind at 1, modify.
  change (with_mapping _ (built_from segs' s)) with (built_from segs' s).
  unfold bind at 1, get_all_shard_data, gets.
  unfold bind at 1, lift. rewrite Hkeys, first_parts_primaries.
  unfold bind at 1, lift.
  rewrite (py_max_below (seq 0 (S k)) (S k)); [|lia|intros n; rewrite elem_of_seq; lia].
  replace (S k - 1) with k by lia.
  unfold bind at 1, get_shard_data.
  destruct (str k) as [|c rest] eqn:Hstr.
  { exfalso. pose proof (NilEmpty.usu (Nat.to_uint k)) as Hu.
    fold (str k) in Hu. rewrite Hstr in Hu. cbn in Hu. injection Hu as Hu.
    pose proof (DecimalNat.Unsigned.of_to k) as Hof. rewrite <- Hu in Hof.
    cbn in Hof. lia. }
  rewrite <- Hstr in *.
  unfold bind at 1, gets. rewrite Hget. unfold ret.
  unfold bind at 1, gets. rewrite Hget.
  unfold bind at 1, modify.
  set (s1 := with_mapping _ (built_from segs' s)).
  assert (Hkeys1 : dict_keys (mapping s1) = map str (seq 0 k)).
  { apply dict_keys_remove_last; [|apply (str_not_in_seq py_int py_int_str)].
    rewrite Hkeys, seq_S, map_app. reflexivity. }
  unfold bind at 1.
  destruct (shard_count s1 k Hkeys1) as (keys & -> & ->); [lia|].
  unfold bind at 1. unfold bind at 1.
  replace (Z.of_nat (k - 1 + 1)) with (Z.of_nat k) by lia. rewrite Hgen.
  unfold bind at 1, remove_file.
  change (shard_files s1) with (shard_files (built_from segs' s)). rewrite Hfile.
  unfold bind at 1. rewrite (write_shards_run py_int py_int_str).
  unfold bind at 1, write_map, modify.
  fold (built_from segs (with_shard_files (delete (str k) (shard_files (built_from segs' s))) s1)).
  rewrite (built_from_agree segs
             (with_shard_files (delete (str k) (shard_files s)) s) _ k).
  - apply sync_built, Hempty.
  - intros ->. cbn in Hlen. lia.
  - assumption.
  - assumption.
  - lia.
  - intros key Hkey. cbn [shard_files with_shard_files].
    destruct (decide (key = str k)) as [->|Hne].
    + rewrite !lookup_delete_eq. reflexivity.
    + rewrite !lookup_delete_ne by congruence.
      apply (built_from_files segs' s). intros i Hi.
      destruct (decide (i = k)) as [->|Hik]; [congruence|]. apply Hkey. lia.
Qed.

(** X9. After a build of two to ten shards of a corpus that
    holds no carriage return, [remove_shard] leaves exactly the state
    that a build with one shard less leaves on a disk without the file
    of the last shard. *)
Theorem build_then_remove_shard (s : ShardHandler) (data : list ascii) (count : Z) :
  mapping s = [] -> (1 <= count <= 9)%Z -> CR ∉ data ->
  remove_shard py_int (after (build_shards py_int (count + 1) data) s)
  = (Ok tt,
     after (build_shards py_int count data)
           (with_shard_files (delete (str (Z.to_nat count)) (shard_files s)) s)).
Proof.
  intros Hempty Hcount Hcr.
  destruct (generate_sharded_data_segments data count)
    as (segs & Hgen & _ & Hlen & _); [lia|].
  destruct (generate_sharded_data_segments data (count + 1))
    as (segs' & Hgen' & _ & Hlen' & Hcat' & _); [lia|].
  unfold after.
  rewrite (build_shards_built s data (count + 1) segs' Hempty Hgen').
  rewrite (build_shards_built
             (with_shard_files (delete (str (Z.to_nat count)) (shard_files s)) s)
             data count segs Hempty Hgen).
  cbn [snd]. apply (remove_shard_built s data (Z.to_nat count) segs segs'); try assumption; try lia.
  rewrite Z2Nat.id by lia. assumption.
Qed.

(** X10. After a build of at most nine shards of a corpus
    that holds no carriage return, [add_shard] followed by
    [remove_shard] gives back the state of the build: the same catalog,
    the same persisted catalog and the same files, the file of the
    added shard being gone. *)
Theorem build_add_remove_shard (s : ShardHandler) (data : list ascii) (count : Z) :
  mapping s = [] -> (1 <= count <= 9)%Z -> CR ∉ data ->
  let built := after (build_shards py_int count data) in
  remove_shard py_int (after (add_shard py_int) (built s))
  = (Ok tt, built (with_shard_files (delete (str (Z.to_nat count)) (shard_files s)) s)).
Proof.
  intros Hempty Hcount Hcr built. subst built.
  destruct (generate_sharded_data_segments data count)
    as (segs & Hgen & _ & Hlen & Hcat & _); [lia|].
  destruct (generate_sharded_data_segments data (count + 1))
    as (segs' & Hgen' & _ & Hlen' & Hcat' & _); [lia|].
  unfold after.
  rewrite (build_shards_built s data count segs Hempty Hgen).
  rewrite (build_shards_built
             (with_shard_files (delete (str (Z.to_nat count)) (shard_files s)) s)
             data count segs Hempty Hgen).
  cbn [snd].
  rewrite (add_shard_built s data count segs segs') by (assumption || lia).
  cbn [snd]. apply (remove_shard_built s data (Z.to_nat count) segs segs'); try assumption; try lia.
  rewrite Z2Nat.id by lia. assumption.
Qed.
End Resize.
(** * Reconciliation: what a call leaves *)

Section SyncOutcome.
Variable py_int : string -> option nat.
Hypothesis py_int_str : forall n, py_int (str n) = Some n.

(** X11. When [sync_replication] returns, the catalog it
    leaves in memory is the one it has persisted, every key of that
    catalog has a shard file, every key it added is a replica key whose
    index is at most an index the loaded catalog had, and every file it
    created belongs to a loaded key or to such a replica key. *)
Theorem sync_replication_returns (s s' : ShardHandler) :
  sync_replication py_int s = (Ok tt, s') ->
  mapfile s' = Some (mapping s') /\
  (forall k, k ∈ dict_keys (mapping s') -> on_disk s' k) /\
  (forall k, k ∈ dict_keys (mapping s') ->
     k ∈ dict_keys (persisted s) \/ new_replica py_int (persisted s) k) /\
  (forall k, on_disk s' k ->
     on_disk s k \/ k ∈ dict_keys (persisted s) \/ new_replica py_int (persisted s) k).
Proof.
  intros Hrun. assert (H := sync_replication_spec py_int py_int_str s).
  unfold wp in H. rewrite Hrun in H.
  destruct H as ((_ & _ & _ & Hkeys & Hfiles) & (fd & G & _ & Hfile & _ & Hdisk)).
  auto.
Qed.

(** X12. When [sync_replication] raises, the exception is
    one of [ValueError], [TypeError], [FileNotFoundError] and
    [SameFileError], and [mapping.json] is as it was: the catalog is
    only persisted at the end of a call that returns. *)
Theorem sync_replication_raises (s s' : ShardHandler) (e : exn) :
  sync_replication py_int s = (Raise e, s') ->
  (e = ValueError \/ e = TypeError \/ e = FileNotFoundError \/ e = SameFileError) /\
  mapfile s' = mapfile s.
Proof.
  intros Hrun. assert (H := sync_replication_spec py_int py_int_str s).
  unfold wp in H. rewrite Hrun in H. destruct H as (_ & Hfile & He). auto.
Qed.

(** X13. When [sync_replication] returns, every shard of the
    loaded catalog reaches every replica index the loaded catalog had:
    for each loaded key of shard [p] and each loaded key of index [j'],
    the catalog holds a key of shard [p] of index [j'] or more. *)
Theorem sync_replication_levels (s s' : ShardHandler) (k k' p p' : string) (j j' : nat) :
  sync_replication py_int s = (Ok tt, s') ->
  k ∈ dict_keys (persisted s) -> key_parse py_int k = Ok (p, j) ->
  k' ∈ dict_keys (persisted s) -> key_parse py_int k' = Ok (p', j') ->
  exists k2 j2, k2 ∈ dict_keys (mapping s') /\ key_parse py_int k2 = Ok (p, j2) /\ j' <= j2.
Proof.
  intros Hrun Hk Hpk Hk' Hpk'. assert (H := sync_replication_spec py_int py_int_str s).
  unfold wp in H. rewrite Hrun in H.
  destruct H as (_ & (fd & G & (Hscan & Hgroups & _) & _ & Hkeys & _)).
  destruct (Hscan k Hk) as (p0 & j0 & g & Hp0 & Hg & _).
  rewrite Hpk in Hp0. injection Hp0 as <- <-.
  destruct (Hscan k' Hk') as (p1 & j1 & g' & Hp1 & Hg' & Hle' & _).
  rewrite Hpk' in Hp1. injection Hp1 as <- <-.
  destruct (Hgroups p g Hg) as (Hdash & _ & (k2 & Hk2 & Hpk2) & _).
  destruct (Hgroups p' g' Hg') as (_ & HleG & _).
  destruct (le_lt_dec j' (max_rep g)) as [Hle|Hlt].
  - exists k2, (max_rep g). split; [apply Hkeys; auto|]. auto.
  - exists (replica_key p j'), j'. split; [|split; [|lia]].
    + apply Hkeys. right. exists p, j'. split; [|reflexivity].
      exists g. split; [assumption|lia].
    + apply (key_parse_replica_key py_int py_int_str), Hdash.
Qed.
End SyncOutcome.
(** * Reconciliation: the content of the files *)

Lemma wp_run {A} (c : M A) Q E s r s' :
  wp c Q E s -> c s = (r, s') ->
  match r with Ok a => Q a s' | Raise e => E e s' end.
Proof. unfold wp. intros H Hrun. rewrite Hrun in H. exact H. Qed.

Section Content.
Variable py_int : string -> option nat.
Hypothesis py_int_str : forall n, py_int (str n) = Some n.

Lemma scan_src_empty disk : scan_src py_int disk [] [].
Proof. intros p g Hg. discriminate. Qed.

Lemma scan_src_step disk ks files max_rep0 key files' max_rep' :
  scan_inv py_int disk ks files max_rep0 ->
  scan_src py_int disk ks files ->
  sync_scan_key py_int disk (files, max_rep0) key = Ok (files', max_rep') ->
  scan_src py_int disk (ks ++ [key]) files'.
Proof.
  intros (Hkeys & _ & _) Hsrc. rewrite sync_scan_key_parse.
  destruct (key_parse py_int key) as [[p j]|e] eqn:Hparse; cbn [rbind fst snd]; [|discriminate].
  intros Hstep. injection Hstep as <- _. cbv zeta.
  pose (g0 := match dict_get p files with Some g => g | None => mkGroup [] None j end).
  match goal with
  | |- scan_src _ _ _ (dict_set _ ?G _) => pose (g2 := G); change G with g2
  end.
  assert (Hfile2 : filename g2 = if disk key then Some key else filename g0)
    by (unfold g2, g0; destruct (disk key); reflexivity).
  assert (Hall2 : forall k, k ∈ all_keys g2 -> k = key \/ k ∈ all_keys g0).
  { intros k. unfold g2. fold g0. destruct (disk key); cbn [all_keys].
    - rewrite set_remove_elem, set_add_elem. tauto.
    - rewrite set_add_elem. tauto. }
  assert (Hold : forall g, dict_get p files = Some g -> g0 = g)
    by (intros g Hg; unfold g0; rewrite Hg; reflexivity).
  assert (Hfresh : dict_get p files = None -> g0 = mkGroup [] None j)
    by (intros Hg; unfold g0; rewrite Hg; reflexivity).
  clearbody g2 g0.
  intros p' g Hg. destruct (decide (p = p')) as [<-|Hne].
  - rewrite dict_get_set_eq in Hg. injection Hg as <-.
    assert (Hg0 : (forall src, filename g0 = Some src ->
                     src ∈ ks /\ disk src = true /\ exists j, key_parse py_int src = Ok (p, j)) /\
                  (forall k, k ∈ all_keys g0 -> exists j, key_parse py_int k = Ok (p, j)) /\
                  (forall k j, k ∈ ks -> key_parse py_int k = Ok (p, j) -> disk k = true ->
                     is_Some (filename g0))).
    { destruct (dict_get p files) as [g|] eqn:Hget.
      - rewrite (Hold g eq_refl). apply (Hsrc p g Hget).
      - rewrite (Hfresh eq_refl). cbn. split; [discriminate|].
        split; [intros k Hk; inversion Hk|].
        intros k j' Hk Hpk _. destruct (Hkeys k Hk) as (p0 & j0 & g & Hp0 & Hg & _).
        rewrite Hpk in Hp0. injection Hp0 as <- <-. congruence. }
    destruct Hg0 as (S1 & S2 & S3). split; [|split].
    + intros src. rewrite Hfile2. destruct (disk key) eqn:Hd.
      * intros [= <-]. split; [apply elem_of_app; right; apply list_elem_of_here|].
        split; eauto.
      * intros Hf. destruct (S1 src Hf) as (? & ? & ?).
        split; [apply elem_of_app; auto|auto].
    + intros k Hk. apply Hall2 in Hk as [->|Hk]; eauto.
    + intros k j' Hk Hpk Hdk. rewrite Hfile2. destruct (disk key) eqn:Hd; [eauto|].
      apply elem_of_app in Hk as [Hk|Hk]; [eapply S3; eauto|].
      apply list_elem_of_singleton in Hk as ->. congruence.
  - rewrite dict_get_set_ne in Hg by assumption.
    destruct (Hsrc p' g Hg) as (S1 & S2 & S3). split; [|split].
    + intros src Hf. destruct (S1 src Hf) as (? & ? & ?).
      split; [apply elem_of_app; auto|auto].
    + exact S2.
    + intros k j' Hk Hpk Hdk. apply elem_of_app in Hk as [Hk|Hk]; [eapply S3; eauto|].
      apply list_elem_of_singleton in Hk as ->. congruence.
Qed.

Lemma scan_src_fold disk ks files max_rep0 :
  fold_result ks ([], 0) (sync_scan_key py_int disk) = Ok (files, max_rep0) ->
  scan_inv py_int disk ks files max_rep0 /\ scan_src py_int disk ks files.
Proof.
  intros Hfold.
  apply (fold_result_inv ks (sync_scan_key py_int disk)
           (fun done acc => scan_inv py_int disk done (fst acc) (snd acc) /\
                            scan_src py_int disk done (fst acc))
           ltac:(intros done x [f g] [f' g'] [HI HS] Hb; split;
                 [eapply scan_inv_step|eapply scan_src_step]; eauto)
           ([], 0) (files, max_rep0)
           (conj (scan_inv_empty py_int disk) (scan_src_empty disk)) Hfold).
Qed.

(** ** The copies *)

Section Copies.
Variable fl : dict string file_group.
Variable s2 : ShardHandler.
Hypothesis sources_kept : forall p g src p' g',
  dict_get p fl = Some g -> filename g = Some src ->
  dict_get p' fl = Some g' -> src ∉ all_keys g'.
Hypothesis one_group : forall p g p' g' k,
  dict_get p fl = Some g -> dict_get p' fl = Some g' ->
  k ∈ all_keys g -> k ∈ all_keys g' -> p = p'.

Lemma copied_refl : copied fl s2 s2.
Proof. intros k. auto. Qed.

Lemma source_unchanged s p g src :
  copied fl s2 s -> dict_get p fl = Some g -> filename g = Some src ->
  shard_files s !! src = shard_files s2 !! src.
Proof.
  intros Hc Hg Hf. destruct (Hc src) as [H|(p' & g' & src' & Hg' & Hin & _)]; [exact H|].
  exfalso. exact (sources_kept p g src p' g' Hg Hf Hg' Hin).
Qed.

Lemma copyfile_content s p g k :
  dict_get p fl = Some g -> k ∈ all_keys g -> copied fl s2 s ->
  wp (copyfile (filename g) k)
     (fun _ s' => copied fl s2 s' /\
        (exists src, filename g = Some src /\ is_Some (shard_files s2 !! src) /\
                     shard_files s' !! k = shard_files s2 !! src) /\
        (forall k', k' <> k -> shard_files s' !! k' = shard_files s !! k'))
     (fun _ s' => copied fl s2 s' /\
        forall src, filename g = Some src -> shard_files s2 !! src = None)
     s.
Proof.
  intros Hg Hk Hc. unfold wp, copyfile.
  destruct (filename g) as [src|] eqn:Hf; [|split; [assumption|discriminate]].
  assert (Hsrc := source_unchanged s p g src Hc Hg Hf).
  destruct (shard_files s !! src) as [c|] eqn:Hfile.
  - destruct (decide (src = k)) as [->|Hne].
    + exfalso. exact (sources_kept p g k p g Hg Hf Hg Hk).
    + split; [|split].
      * intros k'. cbn [shard_files with_shard_files].
        destruct (decide (k = k')) as [<-|Hkk].
        -- right. exists p, g, src. rewrite lookup_insert_eq, <- Hsrc. eauto 10.
        -- rewrite lookup_insert_ne by assumption. apply Hc.
      * exists src. cbn [shard_files with_shard_files].
        rewrite lookup_insert_eq, <- Hsrc. eauto.
      * intros k' Hkk. cbn [shard_files with_shard_files].
        rewrite lookup_insert_ne by congruence. reflexivity.
  - split; [assumption|]. intros src' [= <-]. congruence.
Qed.

Lemma copy_loop_content :
  wp (for_each (dict_keys fl) (sync_copy_primary fl))
     (fun _ s => copied fl s2 s /\
        forall p g k, dict_get p fl = Some g -> k ∈ all_keys g ->
          exists src, filename g = Some src /\ is_Some (shard_files s2 !! src) /\
                      shard_files s !! k = shard_files s2 !! src)
     (fun _ s => copied fl s2 s /\
        exists p g, dict_get p fl = Some g /\ all_keys g <> [] /\
          forall src, filename g = Some src -> shard_files s2 !! src = None)
     s2.
Proof.
  eapply wp_mono; [| |apply (wp_for_each (dict_keys fl) (sync_copy_primary fl)
    (fun done s => copied fl s2 s /\
       forall p g k, p ∈ done -> dict_get p fl = Some g -> k ∈ all_keys g ->
         exists src, filename g = Some src /\ is_Some (shard_files s2 !! src) /\
                     shard_files s !! k = shard_files s2 !! src))].
  - intros _ s [Hc Hall]. split; [assumption|].
    intros p g k Hg Hk. apply (Hall p g k); [|assumption|assumption].
    apply dict_get_keys. rewrite Hg. eauto.
  - intros e s H. exact H.
  - intros done p rest s Hsplit [Hc Hdone].
    assert (Hin : p ∈ dict_keys fl)
      by (rewrite Hsplit; apply elem_of_app; right; apply list_elem_of_here).
    apply dict_get_keys in Hin as [g Hg].
    unfold sync_copy_primary. rewrite Hg.
    eapply wp_mono; [| |apply (wp_for_each (all_keys g) (fun key => copyfile (filename g) key)
      (fun done_k s' => copied fl s2 s' /\
         (forall p' g' k, p' ∈ done -> dict_get p' fl = Some g' -> k ∈ all_keys g' ->
            exists src, filename g' = Some src /\ is_Some (shard_files s2 !! src) /\
                        shard_files s' !! k = shard_files s2 !! src) /\
         (forall k, k ∈ done_k ->
            exists src, filename g = Some src /\ is_Some (shard_files s2 !! src) /\
                        shard_files s' !! k = shard_files s2 !! src)))].
    + intros _ s' (Hc' & Hdone' & Hnow). split; [assumption|].
      intros p' g' k Hp' Hg' Hk. apply elem_of_app in Hp' as [Hp'|Hp'].
      * eapply Hdone'; eauto.
      * apply list_elem_of_singleton in Hp' as ->.
        rewrite Hg in Hg'. injection Hg' as <-. auto.
    + intros e s' H. exact H.
    + intros done_k k rest_k s' Hsplit_k (Hc' & Hdone' & Hnow).
      assert (Hk : k ∈ all_keys g)
        by (rewrite Hsplit_k; apply elem_of_app; right; apply list_elem_of_here).
      assert (Hcopy := copyfile_content s' p g k Hg Hk Hc').
      unfold wp in *. destruct (copyfile (filename g) k s') as [[u|e] s''].
      * destruct Hcopy as (Hc'' & Hnew & Hframe). split; [assumption|]. split.
        -- intros p' g' k' Hp' Hg' Hk'. destruct (decide (k' = k)) as [->|Hne].
           ++ assert (p' = p) by (eapply one_group; eauto). subst p'.
              rewrite Hg in Hg'. injection Hg' as <-. exact Hnew.
           ++ rewrite (Hframe k' Hne). eapply Hdone'; eauto.
        -- intros k' Hk'. destruct (decide (k' = k)) as [->|Hne]; [exact Hnew|].
           rewrite (Hframe k' Hne). apply Hnow.
           apply elem_of_app in Hk' as [Hk'|Hk']; [assumption|].
           apply list_elem_of_singleton in Hk'. contradiction.
      * destruct Hcopy as [Hc'' Hnone]. split; [assumption|].
        exists p, g. split; [assumption|]. split; [|assumption].
        intros Hnil. rewrite Hnil in Hk. inversion Hk.
    + split; [assumption|]. split; [assumption|].
      intros k Hk. inversion Hk.
  - split; [apply copied_refl|]. intros p g k Hp. inversion Hp.
Qed.
End Copies.

(** ** The whole pass *)

Lemma sync_replication_unfold s :
  sync_replication py_int s
  = let s1 := with_mapping (persisted s) s in
    match fold_result (dict_keys (persisted s)) ([], 0)
                      (sync_scan_key py_int (disk_of s)) with
    | Raise e => (Raise e, s1)
    | Ok scanned =>
        match for_fold (dict_keys (fst scanned)) (fst scanned)
                       (sync_fill_primary py_int (snd scanned)) s1 with
        | (Raise e, s2) => (Raise e, s2)
        | (Ok fl, s2) =>
            match for_each (dict_keys fl) (sync_copy_primary fl) s2 with
            | (Raise e, s3) => (Raise e, s3)
            | (Ok _, s3) => (Ok tt, with_mapfile (Some (mapping s3)) s3)
            end
        end
    end.
Proof.
  unfold sync_replication, bind at 1, load_map, gets. fold (persisted s).
  unfold bind at 1, modify. unfold bind at 1.
  change (fun key => bool_decide (is_Some (shard_files (with_mapping (persisted s) s) !! key)))
    with (disk_of s).
  unfold bind at 1, lift. cbn zeta.
  destruct (fold_result _ _ _) as [scanned|e]; [|reflexivity].
  unfold bind at 1. destruct (for_fold _ _ _ _) as [[fl|e] s2]; [|reflexivity].
  unfold bind at 1. destruct (for_each _ _ _) as [[[]|e] s3]; reflexivity.
Qed.

Section Filled.
Variable disk : string -> bool.
Variable s1 : ShardHandler.
Variable fd : dict string file_group.
Variable G : nat.
Variable added : string -> nat -> Prop.
Variable fl : dict string file_group.
Variable s2 : ShardHandler.
Hypothesis Hscan : scan_inv py_int disk (dict_keys (mapping s1)) fd G.
Hypothesis Hsrc : scan_src py_int disk (dict_keys (mapping s1)) fd.
Hypothesis Hadded : forall p j, added p j -> missing fd G p j.
Hypothesis Hfill : fill_inv s1 fd added fl s2.

Lemma filled_group p g' :
  dict_get p fl = Some g' ->
  exists g, dict_get p fd = Some g /\ filename g' = filename g /\
    (forall k, k ∈ all_keys g -> k ∈ all_keys g') /\
    (forall j, added p j -> replica_key p j ∈ all_keys g') /\
    forall k, k ∈ all_keys g' ->
      (exists j, key_parse py_int k = Ok (p, j)) /\
      ~ (k ∈ dict_keys (mapping s1) /\ disk k = true).
Proof.
  intros Hg'.
  assert (Hin : p ∈ dict_keys fd).
  { rewrite <- (fill_keys _ _ _ _ _ Hfill). apply dict_get_keys. rewrite Hg'. eauto. }
  apply dict_get_keys in Hin as [g Hg].
  destruct (fill_groups _ _ _ _ _ Hfill p g Hg) as (g'' & Hg'' & _ & Hf & Hall).
  assert (g'' = g') by congruence. subst g''.
  exists g. split; [assumption|]. split; [assumption|]. split; [|split].
  - intros k Hk. apply Hall. auto.
  - intros j Hj. apply Hall. right. eauto.
  - intros k Hk. apply Hall in Hk as [Hk|(j & Hj & ->)].
    + destruct (Hsrc p g Hg) as (_ & S2 & _). split; [apply S2, Hk|].
      destruct Hscan as (_ & Hgroups & _).
      destruct (Hgroups p g Hg) as (_ & _ & _ & Hmiss).
      destruct (Hmiss k Hk) as [_ Hd]. intros [_ Hd']. congruence.
    + split.
      * exists j. apply (key_parse_replica_key py_int py_int_str).
        destruct Hscan as (_ & Hgroups & _). apply (Hgroups p g Hg).
      * intros [Hk _]. eapply (missing_fresh py_int py_int_str); eauto.
Qed.

Lemma filled_sources_kept p g src p' g' :
  dict_get p fl = Some g -> filename g = Some src ->
  dict_get p' fl = Some g' -> src ∉ all_keys g'.
Proof.
  intros Hg Hf Hg' Hin.
  destruct (filled_group p g Hg) as (g0 & Hg0 & Hfn & _).
  destruct (filled_group p' g' Hg') as (_ & _ & _ & _ & _ & Hdest).
  destruct (Hdest src Hin) as [_ Hnot]. apply Hnot.
  rewrite Hfn in Hf. destruct (Hsrc p g0 Hg0) as (S1 & _).
  destruct (S1 src Hf) as (? & ? & _). auto.
Qed.

Lemma filled_one_group p g p' g' k :
  dict_get p fl = Some g -> dict_get p' fl = Some g' ->
  k ∈ all_keys g -> k ∈ all_keys g' -> p = p'.
Proof.
  intros Hg Hg' Hk Hk'.
  destruct (filled_group p g Hg) as (_ & _ & _ & _ & _ & Hdest).
  destruct (filled_group p' g' Hg') as (_ & _ & _ & _ & _ & Hdest').
  destruct (Hdest k Hk) as [[j Hp] _]. destruct (Hdest' k Hk') as [[j' Hp'] _].
  congruence.
Qed.
End Filled.

Lemma copies_from_loops s fd G (added : string -> nat -> Prop) fl s2 s3 :
  scan_inv py_int (disk_of s) (dict_keys (persisted s)) fd G ->
  scan_src py_int (disk_of s) (dict_keys (persisted s)) fd ->
  (forall p j, added p j -> missing fd G p j) ->
  fill_inv (with_mapping (persisted s) s) fd added fl s2 ->
  copied fl s2 s3 ->
  sync_copies py_int s s3.
Proof.
  intros Hscan Hsrc Hadded Hfill Hc k.
  assert (Hfiles : shard_files s2 = shard_files s)
    by (rewrite (fill_shard_files _ _ _ _ _ Hfill); reflexivity).
  destruct (Hc k) as [H|(p & g' & src & Hg' & Hk & Hf & Hsome & Hcontent)].
  - left. rewrite H, Hfiles. reflexivity.
  - right.
    destruct (filled_group (disk_of s) (with_mapping (persisted s) s) fd G added fl s2
                Hscan Hsrc Hadded Hfill p g' Hg') as (g & Hg & Hfn & _ & _ & Hdest).
    destruct (Hdest k Hk) as [[j Hpk] Hnot]. rewrite Hfn in Hf.
    destruct (Hsrc p g Hg) as (S1 & _). destruct (S1 src Hf) as (Hin & Hd & j0 & Hps).
    exists src, p, j, j0. rewrite Hfiles in Hsome, Hcontent.
    repeat (split; [assumption|]). split; [|auto].
    intros [Hk1 Hk2]. apply Hnot. split; [assumption|]. apply disk_of_true, Hk2.
Qed.

Lemma sync_copies_refl s s' : shard_files s' = shard_files s -> sync_copies py_int s s'.
Proof. intros H k. left. rewrite H. reflexivity. Qed.

(** The files at the end of a call, whether it returns or raises. *)
Lemma sync_replication_copies s :
  sync_copies py_int s (snd (sync_replication py_int s)).
Proof.
  rewrite sync_replication_unfold. cbn zeta.
  destruct (fold_result _ _ _) as [[fd G]|e] eqn:Hfold;
    [|apply sync_copies_refl; reflexivity].
  destruct (scan_src_fold _ _ _ _ Hfold) as [Hscan Hsrc]. cbn [fst snd].
  assert (Hfill := fill_loop py_int py_int_str (disk_of s)
                     (with_mapping (persisted s) s) fd G Hscan).
  destruct (for_fold _ _ _ _) as [[fl|e] s2] eqn:Hrun2.
  - apply (fun H => wp_run _ _ _ _ _ _ H Hrun2) in Hfill.
    assert (Hcopy := copy_loop_content fl s2
      (filled_sources_kept (disk_of s) (with_mapping (persisted s) s) fd G _ fl s2
         Hscan Hsrc (fun p j H => H) Hfill)
      (filled_one_group (disk_of s) (with_mapping (persisted s) s) fd G _ fl s2
         Hscan Hsrc (fun p j H => H) Hfill)).
    unfold wp in Hcopy.
    destruct (for_each _ _ _) as [[[]|e] s3]; cbn [snd].
    + destruct Hcopy as [Hc _].
      assert (H := copies_from_loops s fd G _ fl s2 s3 Hscan Hsrc (fun p j H => H) Hfill Hc).
      intros k. apply H.
    + destruct Hcopy as [Hc _].
      exact (copies_from_loops s fd G _ fl s2 s3 Hscan Hsrc (fun p j H => H) Hfill Hc).
  - apply (fun H => wp_run _ _ _ _ _ _ H Hrun2) in Hfill.
    destruct Hfill as (_ & added' & fl' & Hadded' & Hfill). cbn [snd].
    apply sync_copies_refl. rewrite (fill_shard_files _ _ _ _ _ Hfill). reflexivity.
Qed.

(** X14. Whether [sync_replication] returns or raises, the
    file of a catalog key that had one is left as it was, and a file
    whose content is new holds what the file of a catalog key of the
    same shard held before the call. *)
Theorem sync_replication_content (s : ShardHandler) :
  let s' := after (sync_replication py_int) s in
  (forall k c, k ∈ dict_keys (persisted s) -> shard_files s !! k = Some c ->
     shard_files s' !! k = Some c) /\
  (forall k c, shard_files s' !! k = Some c ->
     shard_files s !! k = Some c \/
     exists src p j j0,
       src ∈ dict_keys (persisted s) /\ key_parse py_int src = Ok (p, j0) /\
       key_parse py_int k = Ok (p, j) /\ shard_files s !! src = Some c).
Proof.
  cbn zeta. unfold after. assert (H := sync_replication_copies s). split.
  - intros k c Hk Hc. destruct (H k) as [E|(src & p & j & j0 & _ & _ & _ & Hnot & _)].
    + rewrite E. exact Hc.
    + exfalso. apply Hnot. split; [assumption|]. unfold on_disk. rewrite Hc. eauto.
  - intros k c Hc. destruct (H k) as [E|(src & p & j & j0 & Hin & Hps & Hpk & _ & _ & E)].
    + left. rewrite <- E. exact Hc.
    + right. exists src, p, j, j0. rewrite <- E. auto.
Qed.

(** The second loop returns when the catalog holds the primary of
    every group. *)
Lemma fill_returns s1 fd G :
  (forall p, p ∈ dict_keys fd -> has_dash p = false /\ p ∈ dict_keys (mapping s1)) ->
  wp (for_fold (dict_keys fd) fd (sync_fill_primary py_int G))
     (fun _ _ => True) (fun _ _ => False) s1.
Proof.
  intros Hprim.
  eapply wp_mono; [| |apply (wp_for_fold (dict_keys fd) (sync_fill_primary py_int G)
    (fun _ fl s => dict_keys fl = dict_keys fd /\
                   forall p, p ∈ dict_keys fd -> p ∈ dict_keys (mapping s)))].
  - auto.
  - intros e s H. exact H.
  - intros done p rest fl s Hsplit [Hk Hm].
    assert (Hin : p ∈ dict_keys fd)
      by (rewrite Hsplit; apply elem_of_app; right; apply list_elem_of_here).
    assert (Hin' : p ∈ dict_keys fl) by (rewrite Hk; assumption).
    apply dict_get_keys in Hin' as [g Hg].
    unfold sync_fill_primary. rewrite Hg.
    eapply wp_mono; [| |apply (wp_for_fold (range2 (max_rep g + 1) (G + 1)) _
      (fun _ fl' s' => dict_keys fl' = dict_keys fd /\
                       forall p, p ∈ dict_keys fd -> p ∈ dict_keys (mapping s')))].
    + intros fl' s' H. exact H.
    + intros e s' H. exact H.
    + intros done_j j rest_j fl' s' _ [Hk' Hm'].
      change (p +:+ "-" +:+ str j) with (replica_key p j).
      unfold wp, bind. rewrite (write_replica_mapping py_int) by (apply Hprim, Hin).
      destruct (dict_get p (mapping s')) as [parent|] eqn:Hparent.
      * cbn [ret]. split.
        -- destruct (dict_get p fl') as [g'|] eqn:Hg'; [|assumption].
           rewrite dict_keys_set_present; [assumption|].
           apply dict_get_keys. rewrite Hg'. eauto.
        -- intros p' Hp'. cbn [mapping with_mapping]. apply dict_keys_set. right. auto.
      * assert (H : is_Some (dict_get p (mapping s'))) by (apply dict_get_keys, Hm', Hin).
        rewrite Hparent in H. destruct H. discriminate.
    + split; assumption.
  - split; [reflexivity|]. intros p Hp. apply Hprim, Hp.
Qed.

(** The repair, with what the call persists. *)
Lemma sync_repairs_run (s : ShardHandler) :
  (forall k, k ∈ dict_keys (persisted s) ->
     exists p j src j0,
       key_parse py_int k = Ok (p, j) /\ p ∈ dict_keys (persisted s) /\
       src ∈ dict_keys (persisted s) /\ key_parse py_int src = Ok (p, j0) /\
       on_disk s src) ->
  exists s', sync_replication py_int s = (Ok tt, s') /\
    mapfile s' = Some (mapping s') /\
    last_char_position s' = last_char_position s /\
    (forall k, k ∈ dict_keys (persisted s) -> k ∈ dict_keys (mapping s')) /\
    forall k, k ∈ dict_keys (mapping s') ->
      exists src p j j0 c,
        src ∈ dict_keys (persisted s) /\ key_parse py_int src = Ok (p, j0) /\
        key_parse py_int k = Ok (p, j) /\
        shard_files s !! src = Some c /\ shard_files s' !! k = Some c.
Proof.
  intros Hok. rewrite sync_replication_unfold. cbn zeta.
  destruct (scan_total py_int (disk_of s) (dict_keys (persisted s))) as (fd & G & Hfold).
  { intros k Hk. destruct (Hok k Hk) as (p & j & _ & _ & Hp & _). eauto. }
  rewrite Hfold. cbn [fst snd].
  destruct (scan_src_fold _ _ _ _ Hfold) as [Hscan Hsrc].
  set (s1 := with_mapping (persisted s) s).
  assert (Hgroup : forall p g, dict_get p fd = Some g ->
            has_dash p = false /\ p ∈ dict_keys (persisted s) /\
            exists src c, filename g = Some src /\ shard_files s !! src = Some c).
  { intros p g Hg. destruct Hscan as (_ & Hgroups & _).
    destruct (Hgroups p g Hg) as (Hdash & _ & (k & Hk & Hpk) & _).
    destruct (Hok k Hk) as (p0 & j0 & src & j1 & Hpk0 & Hp0 & Hin & Hps & Hon).
    rewrite Hpk in Hpk0. injection Hpk0 as <- _.
    split; [assumption|]. split; [assumption|].
    destruct (Hsrc p g Hg) as (S1 & _ & S3).
    destruct (S3 src j1 Hin Hps) as [src' Hf]; [apply disk_of_true, Hon|].
    destruct (S1 src' Hf) as (_ & Hd & _). apply disk_of_true in Hd as [c Hc]. eauto. }
  assert (Hfill := fill_loop py_int py_int_str (disk_of s) s1 fd G Hscan).
  assert (Hret : wp (for_fold (dict_keys fd) fd (sync_fill_primary py_int G))
                    (fun _ _ => True) (fun _ _ => False) s1).
  { apply fill_returns. intros p Hp. apply dict_get_keys in Hp as [g Hg].
    destruct (Hgroup p g Hg) as (? & ? & _). auto. }
  destruct (for_fold _ _ _ _) as [[fl|e] s2] eqn:Hrun2;
    [|exfalso; exact (wp_run _ _ _ _ _ _ Hret Hrun2)].
  apply (fun H => wp_run _ _ _ _ _ _ H Hrun2) in Hfill. clear Hret.
  assert (Hfiles : shard_files s2 = shard_files s)
    by (rewrite (fill_shard_files _ _ _ _ _ Hfill); reflexivity).
  assert (Hfilled := filled_group (disk_of s) s1 fd G _ fl s2
                       Hscan Hsrc (fun p j H => H) Hfill).
  assert (Hcopy := copy_loop_content fl s2
    (filled_sources_kept (disk_of s) s1 fd G _ fl s2 Hscan Hsrc (fun p j H => H) Hfill)
    (filled_one_group (disk_of s) s1 fd G _ fl s2 Hscan Hsrc (fun p j H => H) Hfill)).
  assert (Hcopy0 := copy_loop fl s2).
  destruct (for_each _ _ _) as [[[]|e] s3] eqn:Hrun3.
  - apply (fun H => wp_run _ _ _ _ _ _ H Hrun3) in Hcopy.
    apply (fun H => wp_run _ _ _ _ _ _ H Hrun3) in Hcopy0.
    destruct Hcopy as [Hc Hdone]. destruct Hcopy0 as [Hinv _].
    eexists. split; [reflexivity|]. split; [reflexivity|].
    cbn [mapping shard_files with_mapfile last_char_position] in *.
    split; [rewrite (copy_position _ _ _ Hinv), (fill_position _ _ _ _ _ Hfill); reflexivity|].
    split.
    { intros k Hk. rewrite (copy_mapping _ _ _ Hinv).
      apply (fill_mapping_keys _ _ _ _ _ Hfill). left. exact Hk. }
    intros k Hk.
    assert (Hdest : forall p g', dict_get p fl = Some g' -> k ∈ all_keys g' ->
              exists src p j j0 c,
                src ∈ dict_keys (persisted s) /\ key_parse py_int src = Ok (p, j0) /\
                key_parse py_int k = Ok (p, j) /\
                shard_files s !! src = Some c /\ shard_files s3 !! k = Some c).
    { intros p g' Hg' Hin.
      destruct (Hdone p g' k Hg' Hin) as (src & Hf & [c Hsome] & Hcontent).
      destruct (Hfilled p g' Hg') as (g & Hg & Hfn & _ & _ & Hparse).
      destruct (Hparse k Hin) as [[j Hpk] _]. rewrite Hfn in Hf.
      destruct (Hsrc p g Hg) as (S1 & _). destruct (S1 src Hf) as (Hsin & _ & j0 & Hps).
      exists src, p, j, j0, c. rewrite Hcontent, <- Hfiles. auto. }
    rewrite (copy_mapping _ _ _ Hinv) in Hk.
    apply (fill_mapping_keys _ _ _ _ _ Hfill) in Hk as [Hk|(p & j & Hmiss & ->)].
    + destruct Hscan as (Hkeys & _).
      destruct (Hkeys k Hk) as (p & j & g & Hpk & Hg & _ & Hlost).
      destruct (fill_groups _ _ _ _ _ Hfill p g Hg) as (g' & Hg' & _ & _ & Hall).
      destruct (disk_of s k) eqn:Hd.
      * apply disk_of_true in Hd as [c Hfile].
        exists k, p, j, j, c. repeat (split; [assumption|]).
        destruct (Hc k) as [E|(p' & g'' & src & Hg'' & Hin & _)].
        -- rewrite E, Hfiles. exact Hfile.
        -- exfalso. destruct (Hfilled p' g'' Hg'') as (_ & _ & _ & _ & _ & Hparse).
           destruct (Hparse k Hin) as [_ Hnot]. apply Hnot. split; [exact Hk|].
           apply disk_of_true. unfold on_disk. rewrite Hfile. eauto.
      * apply (Hdest p g' Hg'). apply Hall. auto.
    + destruct Hmiss as (g & Hg & Hrange).
      destruct (fill_groups _ _ _ _ _ Hfill p g Hg) as (g' & Hg' & _ & _ & Hall).
      apply (Hdest p g' Hg'). apply Hall. right. exists j. split; [|reflexivity].
      exists g. auto.
  - exfalso. apply (fun H => wp_run _ _ _ _ _ _ H Hrun3) in Hcopy.
    destruct Hcopy as (_ & p & g' & Hg' & _ & Hnone).
    destruct (Hfilled p g' Hg') as (g & Hg & Hfn & _).
    destruct (Hgroup p g Hg) as (_ & _ & src & c & Hf & Hfile).
    rewrite <- Hfn in Hf.
    assert (H := Hnone src Hf). rewrite Hfiles in H. congruence.
Qed.

(** X15. When every key of the persisted catalog can be read,
    the catalog holds its primary, and some key of its shard has a file,
    [sync_replication] returns, and every key of the catalog it leaves
    has a file that holds what a file of the same shard held before the
    call: a lost primary is restored from a replica, a lost or new
    replica from a file of its shard. *)
Theorem sync_replication_repairs (s : ShardHandler) :
  (forall k, k ∈ dict_keys (persisted s) ->
     exists p j src j0,
       key_parse py_int k = Ok (p, j) /\ p ∈ dict_keys (persisted s) /\
       src ∈ dict_keys (persisted s) /\ key_parse py_int src = Ok (p, j0) /\
       on_disk s src) ->
  exists s', sync_replication py_int s = (Ok tt, s') /\
    forall k, k ∈ dict_keys (mapping s') ->
      exists src p j j0 c,
        src ∈ dict_keys (persisted s) /\ key_parse py_int src = Ok (p, j0) /\
        key_parse py_int k = Ok (p, j) /\
        shard_files s !! src = Some c /\ shard_files s' !! k = Some c.
Proof.
  intros Hok. destruct (sync_repairs_run s Hok) as (s' & Hrun & _ & _ & _ & Hcontent).
  exists s'. split; assumption.
Qed.
End Content.
(** * The shard manager at its edges *)

Lemma no_primary_ids (m : dict string Range) :
  (forall key, key ∈ dict_keys m -> has_dash key = true) ->
  get_shard_ids_of m = [].
Proof.
  intros Hdash. unfold get_shard_ids_of.
  replace (List.filter (fun key => negb (has_dash key)) (dict_keys m)) with (@nil string);
    [reflexivity|].
  symmetry. induction (dict_keys m) as [|key keys IH]; [reflexivity|].
  cbn. rewrite (Hdash key) by apply list_elem_of_here. cbn.
  apply IH. intros key' Hin. apply Hdash, list_elem_of_further, Hin.
Qed.

Lemma generate_sharded_data_negative {A} (data : list A) (count : Z) :
  (count < 0)%Z -> _generate_sharded_data count data = Ok [].
Proof.
  intros Hcount. unfold _generate_sharded_data.
  destruct (Z.eqb_spec count 0) as [|Hne]; [lia|].
  assert (Hrem : (count < Z.of_nat (length data) mod count <= 0)%Z)
    by (apply Z.mod_neg_bound; lia).
  destruct (Z.ltb_spec 0 (Z.of_nat (length data) mod count)); [lia|].
  unfold range. replace (Z.to_nat count) with 0 by lia. reflexivity.
Qed.

Section Edges.
Variable py_int : string -> option nat.
Hypothesis py_int_str : forall n, py_int (str n) = Some n.

(** X16. When the persisted catalog holds no primary key, and
    so when nothing was ever built, [add_shard] raises [ValueError]
    from [max] of an empty list; it has loaded the catalog and written
    nothing. *)
Theorem add_shard_no_primary (s : ShardHandler) :
  (forall key, key ∈ dict_keys (persisted s) -> has_dash key = true) ->
  add_shard py_int s = (Raise ValueError, with_mapping (persisted s) s).
Proof.
  intros Hdash. rewrite (add_shard_unfold py_int py_int_str). cbn zeta.
  rewrite load_data_from_shards_run. cbn [mapping with_mapping].
  rewrite (no_primary_ids _ Hdash). cbn [mapM].
  unfold sorted_int_shard_ids, bind, get_shard_ids, gets, lift.
  cbn [mapping with_mapping]. rewrite (no_primary_ids _ Hdash). reflexivity.
Qed.

(** X17. [remove_shard] on a store built with one shard
    raises [ValueError]: the files and [mapping.json] are as the build
    left them, and the catalog in memory has lost its only entry. *)
Theorem remove_shard_last_primary (s : ShardHandler) (data : list ascii) :
  mapping s = [] ->
  let built := after (build_shards py_int 1 data) s in
  remove_shard py_int built = (Raise ValueError, with_mapping [] built).
Proof.
  intros Hempty built. subst built.
  destruct (generate_sharded_data_segments data 1)
    as (segs & Hgen & _ & Hlen & Hcat & _); [lia|].
  unfold after. rewrite (build_shards_built py_int py_int_str s data 1 segs Hempty Hgen).
  cbn [snd]. change (Z.to_nat 1) with 1 in Hlen.
  pose proof (built_from_keys py_int py_int_str segs s Hempty) as Hkeys.
  rewrite Hlen in Hkeys. cbn [seq map] in Hkeys.
  assert (Hget : is_Some (dict_get (str 0) (mapping (built_from segs s)))).
  { apply dict_get_keys. rewrite Hkeys. apply list_elem_of_here. }
  destruct Hget as [r Hget].
  assert (Hpop : dict_remove (str 0) (mapping (built_from segs s)) = []).
  { apply (map_eq_nil fst). apply (dict_keys_remove_last _ [] (str 0)); [exact Hkeys|].
    intros Hin. inversion Hin. }
  unfold remove_shard. unfold bind at 1.
  rewrite (load_built_text py_int py_int_str) by (assumption || lia).
  unfold bind at 1, load_map, gets.
  unfold bind at 1, modify.
  change (with_mapping (match mapfile (built_from segs s) with Some m => m | None => [] end)
                       (built_from segs s)) with (built_from segs s).
  unfold bind at 1, get_all_shard_data, gets.
  unfold bind at 1, lift. rewrite Hkeys.
  change [str 0] with (map str (seq 0 1)). rewrite (first_parts_primaries py_int py_int_str).
  cbn [seq py_max fold_left].
  unfold bind at 1, lift.
  unfold bind at 1, get_shard_data.
  change (str 0) with "0" in *. cbv iota.
  unfold bind at 1, gets. rewrite Hget. unfold ret.
  unfold bind at 1, gets. rewrite Hget.
  unfold bind at 1, modify. rewrite Hpop.
  reflexivity.
Qed.

(** X18. On an empty catalog, [build_shards] with count 0
    raises [ZeroDivisionError] and changes nothing, and with a negative
    count it returns [None] as for a build, having written no shard
    and persisted an empty catalog. *)
Theorem build_shards_nonpositive (s : ShardHandler) (data : list ascii) (count : Z) :
  mapping s = [] -> (count <= 0)%Z ->
  build_shards py_int count data s
  = if (count =? 0)%Z then (Raise ZeroDivisionError, s)
    else (Ok None, with_mapfile (Some []) s).
Proof.
  intros Hempty Hcount. destruct (Z.eqb_spec count 0) as [->|Hne].
  - unfold build_shards, bind, gets, lift. rewrite Hempty. reflexivity.
  - rewrite (build_shards_built py_int py_int_str s data count [] Hempty)
      by (apply generate_sharded_data_negative; lia).
    unfold built_from, shards_written. cbn. rewrite Hempty. reflexivity.
Qed.
End Edges.
(** * The replica manager: a new level *)

Section AddReplication.
Variable py_int : string -> option nat.
Hypothesis py_int_str : forall n, py_int (str n) = Some n.

(** The loop over [key_rep]: a catalog entry for the next replica of
    every shard. *)
Lemma new_level_loop (key_rep : dict nat nat) (data : list ascii) s1 :
  (forall n lvl, (n, lvl) ∈ key_rep -> str n ∈ dict_keys (mapping s1)) ->
  wp (for_each key_rep (fun kv =>
        _write_shard_mapping py_int (str (fst kv) +:+ "-" +:+ str (snd kv + 1)) data true))
     (fun _ s2 =>
        shard_files s2 = shard_files s1 /\ mapfile s2 = mapfile s1 /\
        last_char_position s2 = last_char_position s1 /\
        forall k, k ∈ dict_keys (mapping s2) <->
          k ∈ dict_keys (mapping s1) \/
          exists n lvl, (n, lvl) ∈ key_rep /\ k = replica_key (str n) (lvl + 1))
     (fun _ _ => False) s1.
Proof.
  intros Hparent.
  eapply wp_mono; [| |apply (wp_for_each key_rep _
    (fun done s2 =>
       shard_files s2 = shard_files s1 /\ mapfile s2 = mapfile s1 /\
       last_char_position s2 = last_char_position s1 /\
       forall k, k ∈ dict_keys (mapping s2) <->
         k ∈ dict_keys (mapping s1) \/
         exists n lvl, (n, lvl) ∈ done /\ k = replica_key (str n) (lvl + 1)))].
  - intros u s2 H. exact H.
  - intros e s2 H. exact H.
  - intros done [n lvl] rest s2 Hsplit (Hf & Hm & Hp & Hk). cbn [fst snd].
    change (str n +:+ "-" +:+ str (lvl + 1)) with (replica_key (str n) (lvl + 1)).
    unfold wp. rewrite (write_replica_mapping py_int) by apply str_no_dash.
    assert (Hin : str n ∈ dict_keys (mapping s2)).
    { apply Hk. left. apply (Hparent n lvl). rewrite Hsplit.
      apply elem_of_app. right. apply list_elem_of_here. }
    apply dict_get_keys in Hin as [parent Hparent']. rewrite Hparent'.
    cbn [shard_files mapfile last_char_position mapping with_mapping].
    repeat (split; [assumption|]).
    intros k. rewrite dict_keys_set, Hk. split.
    + intros [->|[H|(n' & lvl' & Hin' & ->)]].
      * right. exists n, lvl.
        split; [apply elem_of_app; right; apply list_elem_of_here|reflexivity].
      * auto.
      * right. exists n', lvl'. split; [apply elem_of_app; auto|reflexivity].
    + intros [H|(n' & lvl' & Hin' & ->)]; [auto|].
      apply elem_of_app in Hin' as [Hin'|Hin'].
      * right. right. eauto.
      * apply list_elem_of_singleton in Hin'. injection Hin' as -> ->. left. reflexivity.
  - repeat (split; [reflexivity|]). intros k. split; [auto|].
    intros [H|(n & lvl & Hin & _)]; [exact H|inversion Hin].
Qed.

(** The loop over the catalog: every replica key gets the content of
    its primary's file, and no other file changes. *)
Lemma mirror_loop (l : list string) s2 :
  (forall k, k ∈ l -> shard_key k) ->
  (forall n j, replica_key (str n) j ∈ l -> is_Some (shard_files s2 !! str n)) ->
  wp (for_each l (fun key =>
        if has_dash key then
          write_file key [] >>
          let! i := lift (match index_dash key with
                          | Some i => Ok i
                          | None => Raise ValueError
                          end) in
          copyfile (Some (str_prefix i key)) key
        else ret tt))
     (fun _ s3 =>
        mapping s3 = mapping s2 /\ mapfile s3 = mapfile s2 /\
        last_char_position s3 = last_char_position s2 /\
        (forall k, has_dash k = false -> shard_files s3 !! k = shard_files s2 !! k) /\
        (forall n j, replica_key (str n) j ∈ l ->
           shard_files s3 !! replica_key (str n) j = shard_files s2 !! str n))
     (fun _ _ => False) s2.
Proof.
  intros Hwf Hprim.
  eapply wp_mono; [| |apply (wp_for_each l _
    (fun done s3 =>
       mapping s3 = mapping s2 /\ mapfile s3 = mapfile s2 /\
       last_char_position s3 = last_char_position s2 /\
       (forall k, has_dash k = false -> shard_files s3 !! k = shard_files s2 !! k) /\
       (forall n j, replica_key (str n) j ∈ done ->
          shard_files s3 !! replica_key (str n) j = shard_files s2 !! str n)))].
  - intros u s3 H. exact H.
  - intros e s3 H. exact H.
  - intros done x rest s3 Hsplit (Hm & Hf & Hp & Hplain & Hdone).
    assert (Hx : x ∈ l) by (rewrite Hsplit; apply elem_of_app; right; apply list_elem_of_here).
    destruct (Hwf x Hx) as (n & [->|(j & Hj & ->)]).
    + rewrite str_no_dash. unfold wp, ret. repeat (split; [assumption|]).
      intros n' j' Hin. apply elem_of_app in Hin as [Hin|Hin]; [auto|].
      apply list_elem_of_singleton in Hin. exfalso.
      eapply replica_key_not_str, Hin.
    + rewrite replica_key_has_dash.
      destruct (replica_key_parent (str n) j (str_no_dash n)) as (i & Hi & Hpre).
      destruct (Hprim n j Hx) as [c Hc].
      assert (Hne : replica_key (str n) j <> str n) by apply replica_key_not_str.
      unfold wp, bind, write_file, modify, lift. rewrite Hi, Hpre. unfold copyfile.
      cbn [shard_files with_shard_files].
      rewrite lookup_insert_ne by exact Hne.
      rewrite (Hplain (str n) (str_no_dash n)), Hc.
      destruct (decide (str n = replica_key (str n) j)) as [E|_]; [congruence|].
      cbn [mapping mapfile last_char_position shard_files with_shard_files].
      repeat (split; [assumption|]). split.
      * intros k Hk. rewrite !lookup_insert_ne; [auto| |];
          intros E; rewrite <- E, replica_key_has_dash in Hk; discriminate.
      * intros n' j' Hin.
        destruct (decide (replica_key (str n) j = replica_key (str n') j')) as [E|Hkk].
        -- rewrite <- E, lookup_insert_eq.
           apply (replica_key_str_inj py_int py_int_str) in E as [<- _]. congruence.
        -- rewrite !lookup_insert_ne by exact Hkk.
           apply elem_of_app in Hin as [Hin|Hin]; [auto|].
           apply list_elem_of_singleton in Hin. congruence.
  - repeat (split; [reflexivity|]).
    intros n j Hin. inversion Hin.
Qed.

(** [add_replication] on a catalog of well-formed keys in which every
    replica has its primary and every primary has its file. *)
Lemma add_replication_run (s : ShardHandler) :
  (forall k, k ∈ dict_keys (persisted s) -> shard_key k) ->
  (forall n j, has_replica (persisted s) n j -> str n ∈ dict_keys (persisted s)) ->
  (forall n, str n ∈ dict_keys (persisted s) -> on_disk s (str n)) ->
  (exists n, str n ∈ dict_keys (persisted s)) ->
  exists s', add_replication py_int s = (Ok tt, s') /\
    mapfile s' = Some (mapping s') /\
    (forall k, k ∈ dict_keys (persisted s) -> k ∈ dict_keys (mapping s')) /\
    (forall n, str n ∈ dict_keys (persisted s) ->
       exists j, has_replica (mapping s') n j /\
                 forall j', has_replica (persisted s) n j' -> j' < j) /\
    (forall k, k ∈ dict_keys (mapping s') ->
       exists n j c,
         key_parse py_int k = Ok (str n, j) /\ str n ∈ dict_keys (persisted s) /\
         shard_files s !! str n = Some c /\ shard_files s' !! k = Some c).
Proof.
  intros Hwf Hparent Hfiles Hprim.
  set (s1 := with_mapping (persisted s) s).
  destruct (replication_levels_spec py_int py_int_str s1 Hwf Hprim)
    as (key_rep & Hlevels & Hnd & Hlvl & Hhas & Hrep).
  cbn [mapping s1 with_mapping] in Hlvl, Hhas, Hrep.
  assert (Hload : exists data, load_data_from_shards s1 = (Ok data, s1)).
  { rewrite load_data_from_shards_run.
    destruct (mapM (fun id => shard_files s1 !! id) (get_shard_ids_of (mapping s1)))
      as [contents|] eqn:E; [eauto|].
    exfalso.
    assert (H : is_Some (mapM (fun id => shard_files s1 !! id)
                              (get_shard_ids_of (mapping s1)))).
    { apply mapM_is_Some_2, Forall_forall. intros id Hid.
      apply get_shard_ids_elem in Hid as [Hin Hd].
      destruct (shard_key_primary id (Hwf id Hin) Hd) as [n ->].
      apply (Hfiles n Hin). }
    rewrite E in H. destruct H. discriminate. }
  destruct Hload as [data Hload].
  assert (Hentry : forall n lvl, (n, lvl) ∈ key_rep ->
            str n ∈ dict_keys (persisted s) /\
            forall j, has_replica (persisted s) n j -> j <= lvl).
  { intros n lvl Hin. apply (dict_get_elem n lvl key_rep Hnd) in Hin.
    destruct (Hlvl n lvl Hin) as [[[_ H]|H] Hmax]; [auto|]. split; [|assumption].
    eapply Hparent, H. }
  unfold add_replication, bind at 1, load_map, gets. fold (persisted s).
  unfold bind at 1, modify. fold s1.
  unfold bind at 1. rewrite Hlevels.
  unfold bind at 1. rewrite Hload.
  unfold bind at 1.
  assert (Hloop1 := new_level_loop key_rep data s1 (fun n lvl H => proj1 (Hentry n lvl H))).
  destruct (for_each key_rep _ s1) as [[[]|e] s2] eqn:Hrun1;
    [|exfalso; exact (wp_run _ _ _ _ _ _ Hloop1 Hrun1)].
  apply (fun H => wp_run _ _ _ _ _ _ H Hrun1) in Hloop1.
  destruct Hloop1 as (Hf2 & Hm2 & Hp2 & Hk2).
  cbn [mapping s1 with_mapping shard_files mapfile] in Hf2, Hm2, Hk2.
  assert (Hwf2 : forall k, k ∈ dict_keys (mapping s2) -> shard_key k).
  { intros k Hk. apply Hk2 in Hk as [Hk|(n & lvl & _ & ->)]; [auto|].
    exists n. right. exists (lvl + 1). split; [lia|reflexivity]. }
  assert (Hprim2 : forall n j, replica_key (str n) j ∈ dict_keys (mapping s2) ->
            str n ∈ dict_keys (persisted s)).
  { intros n j Hk. apply Hk2 in Hk as [Hk|(n' & lvl & Hin & E)].
    - eapply Hparent, Hk.
    - apply (replica_key_str_inj py_int py_int_str) in E as [-> _].
      apply (Hentry n' lvl Hin). }
  assert (Hplain2 : forall n, str n ∈ dict_keys (mapping s2) ->
            str n ∈ dict_keys (persisted s)).
  { intros n Hk. apply Hk2 in Hk as [Hk|(n' & lvl & _ & E)]; [exact Hk|].
    exfalso. symmetry in E. eapply replica_key_not_str, E. }
  unfold bind at 1, gets. unfold bind at 1.
  assert (Hloop2 := mirror_loop (dict_keys (mapping s2)) s2 Hwf2).
  destruct (for_each (dict_keys (mapping s2)) _ s2) as [[[]|e] s3] eqn:Hrun2.
  2:{ exfalso. refine (wp_run _ _ _ _ _ _ (Hloop2 _) Hrun2).
      intros n j Hk. rewrite Hf2. apply Hfiles, (Hprim2 n j Hk). }
  apply (fun H => wp_run _ _ _ _ _ _ (H (fun n j Hk =>
           eq_ind_r (fun f => is_Some (f !! str n)) (Hfiles n (Hprim2 n j Hk)) Hf2))
           Hrun2) in Hloop2.
  destruct Hloop2 as (Hm3 & Hf3 & Hp3 & Hplain & Hmirror).
  unfold bind at 1, write_map, modify.
  set (s4 := with_mapfile (Some (mapping s3)) s3).
  assert (Hpers4 : persisted s4 = mapping s2) by (rewrite <- Hm3; reflexivity).
  assert (Hdisk4 : forall n, str n ∈ dict_keys (persisted s) ->
            shard_files s4 !! str n = shard_files s !! str n).
  { intros n Hn. cbn [s4 shard_files with_mapfile].
    rewrite (Hplain (str n) (str_no_dash n)), Hf2. reflexivity. }
  destruct (sync_repairs_run py_int py_int_str s4) as (s' & Hsync & Hfile' & _ & Hkeep & Hcontent).
  { intros k Hk. rewrite Hpers4 in Hk. rewrite Hpers4.
    destruct (Hwf2 k Hk) as (n & [->|(j & Hj & ->)]).
    - exists (str n), 0, (str n), 0.
      split; [apply key_parse_no_dash, str_no_dash|]. split; [assumption|].
      split; [assumption|]. split; [apply key_parse_no_dash, str_no_dash|].
      unfold on_disk. rewrite (Hdisk4 n (Hplain2 n Hk)). apply Hfiles, Hplain2, Hk.
    - assert (Hn : str n ∈ dict_keys (persisted s)) by (eapply Hprim2, Hk).
      assert (Hn2 : str n ∈ dict_keys (mapping s2)) by (apply Hk2; auto).
      exists (str n), j, (str n), 0.
      split; [apply (key_parse_replica_key py_int py_int_str), str_no_dash|].
      split; [assumption|]. split; [assumption|].
      split; [apply key_parse_no_dash, str_no_dash|].
      unfold on_disk. rewrite (Hdisk4 n Hn). apply Hfiles, Hn. }
  rewrite Hpers4 in Hkeep, Hcontent.
  exists s'. split; [exact Hsync|]. split; [exact Hfile'|]. split; [|split].
  - intros k Hk. apply Hkeep, Hk2. auto.
  - intros n Hn. destruct (Hhas n Hn) as [lvl Hlvl']. exists (lvl + 1). split.
    + apply Hkeep, Hk2. right. exists n, lvl.
      split; [apply (dict_get_elem n lvl key_rep Hnd), Hlvl'|reflexivity].
    + intros j' Hj'. destruct (Hlvl n lvl Hlvl') as [_ Hmax].
      specialize (Hmax j' Hj'). lia.
  - intros k Hk.
    destruct (Hcontent k Hk) as (src & p & j & j0 & c & Hsrc & Hps & Hpk & Hc & Hc').
    assert (Hshard : exists n, p = str n /\ str n ∈ dict_keys (persisted s) /\
                               shard_files s !! str n = Some c).
    { destruct (Hwf2 src Hsrc) as (n & [->|(j1 & Hj1 & ->)]).
      - rewrite key_parse_no_dash in Hps by apply str_no_dash. injection Hps as <- _.
        exists n. split; [reflexivity|]. split; [apply Hplain2, Hsrc|].
        rewrite <- (Hdisk4 n (Hplain2 n Hsrc)). exact Hc.
      - rewrite (key_parse_replica_key py_int py_int_str) in Hps by apply str_no_dash.
        injection Hps as <- _.
        exists n. split; [reflexivity|]. split; [eapply Hprim2, Hsrc|].
        cbn [s4 shard_files with_mapfile] in Hc.
        rewrite (Hmirror n j1 Hsrc), Hf2 in Hc. exact Hc. }
    destruct Hshard as (n & -> & Hn & Hcn). exists n, j, c. auto.
Qed.

(** X19. On a persisted catalog of well-formed keys in which
    every replica has its primary and every primary has its file,
    [add_replication] returns; it persists a catalog that keeps every
    key and gives every shard a replica of a higher index than the
    shard had, and every key of that catalog, old or new, has a file
    with the content of the file of its primary. *)
Theorem add_replication_mirrors (s : ShardHandler) :
  (forall k, k ∈ dict_keys (persisted s) -> shard_key k) ->
  (forall n j, has_replica (persisted s) n j -> str n ∈ dict_keys (persisted s)) ->
  (forall n, str n ∈ dict_keys (persisted s) -> on_disk s (str n)) ->
  (exists n, str n ∈ dict_keys (persisted s)) ->
  exists s', add_replication py_int s = (Ok tt, s') /\
    persisted s' = mapping s' /\
    (forall k, k ∈ dict_keys (persisted s) -> k ∈ dict_keys (mapping s')) /\
    (forall n, str n ∈ dict_keys (persisted s) ->
       exists j, has_replica (mapping s') n j /\
                 forall j', has_replica (persisted s) n j' -> j' < j) /\
    (forall k, k ∈ dict_keys (mapping s') ->
       exists n j c,
         key_parse py_int k = Ok (str n, j) /\ str n ∈ dict_keys (persisted s) /\
         shard_files s !! str n = Some c /\ shard_files s' !! k = Some c).
Proof.
  intros Hwf Hparent Hfiles Hprim.
  destruct (add_replication_run s Hwf Hparent Hfiles Hprim)
    as (s' & Hrun & Hfile & Hkeys & Hnew & Hcontent).
  exists s'. split; [assumption|]. split; [|auto].
  unfold persisted. rewrite Hfile. reflexivity.
Qed.
End AddReplication.
(** * The shard manager on a replicated store *)

Lemma shards_written_snoc (l : list (list ascii)) (x : list ascii) s :
  shards_written (l ++ [x]) s = after_write_shard (length l) x (shards_written l s).
Proof.
  unfold shards_written. rewrite enumerate_snoc, fold_left_app. reflexivity.
Qed.

Lemma shards_written_keys segs s :
  (forall i, i < length segs -> str i ∈ dict_keys (mapping (shards_written segs s))) /\
  (forall k, k ∈ dict_keys (mapping s) -> k ∈ dict_keys (mapping (shards_written segs s))) /\
  (forall k, k ∈ dict_keys (mapping (shards_written segs s)) ->
     k ∈ dict_keys (mapping s) \/ exists i, i < length segs /\ k = str i).
Proof.
  induction segs as [|x l (IH1 & IH2 & IH3)] using rev_ind.
  - split; [intros i Hi; cbn in Hi; lia|auto].
  - rewrite shards_written_snoc. unfold after_write_shard. cbn [mapping].
    rewrite length_app. cbn [length]. split; [|split].
    + intros i Hi. apply dict_keys_set.
      destruct (decide (i = length l)) as [->|Hne]; [auto|]. right. apply IH1. lia.
    + intros k Hk. apply dict_keys_set. auto.
    + intros k Hk. apply dict_keys_set in Hk as [->|Hk].
      * right. exists (length l). split; [lia|reflexivity].
      * destruct (IH3 k Hk) as [H|(i & Hi & ->)]; [auto|].
        right. exists i. split; [lia|reflexivity].
Qed.

Lemma mapM_fmap_list {A B C} (f : B -> option C) (g : A -> B) (l : list A) :
  mapM f (map g l) = mapM (fun a => f (g a)) l.
Proof. induction l as [|a l IH]; cbn; [reflexivity|]. rewrite IH. reflexivity. Qed.

Section Corpus.
Variable py_int : string -> option nat.
Hypothesis py_int_str : forall n, py_int (str n) = Some n.

Lemma ids_as_numbers a n :
  map_result (int py_int) (map str (seq a n)) = Ok (seq a n).
Proof.
  revert a. induction n as [|n IH]; intros a; cbn [seq map map_result]; [reflexivity|].
  unfold int at 1. rewrite py_int_str. cbn [rbind]. rewrite IH. reflexivity.
Qed.

(** X20. When [get_shard_ids] lists the primaries of the
    persisted catalog as '0' .. str(k-1) in this order, as it does up
    to ten shards, and their files hold the corpus, which holds no
    carriage return, then after [add_shard] the files of the primaries
    0 .. k hold the same corpus and the persisted catalog has these
    k+1 primaries, whatever replicas the catalog holds and whether the
    closing [sync_replication] returns or raises. *)
Theorem add_shard_keeps_corpus (s : ShardHandler) (k : nat) (data : list ascii) :
  get_shard_ids_of (persisted s) = map str (seq 0 k) -> 1 <= k ->
  primaries_in_id_order k s = Some data -> CR ∉ data ->
  let s' := after (add_shard py_int) s in
  primaries_in_id_order (k + 1) s' = Some data /\
  forall i, i <= k -> str i ∈ dict_keys (persisted s').
Proof.
  intros Hids Hk Hdata Hcr. cbn zeta. unfold after.
  rewrite (add_shard_unfold py_int py_int_str). cbn zeta.
  set (s1 := with_mapping (persisted s) s).
  unfold primaries_in_id_order in Hdata.
  destruct (mapM (fun n => shard_files s !! str n) (seq 0 k)) as [contents|] eqn:Hread;
    [|discriminate].
  injection Hdata as Hdata.
  rewrite load_data_from_shards_run. cbn [mapping s1 with_mapping shard_files].
  rewrite Hids, mapM_fmap_list, Hread.
  rewrite universal_newlines_segments, Hdata by (rewrite Hdata; exact Hcr).
  unfold sorted_int_shard_ids, bind, get_shard_ids, gets, lift, ret.
  cbn [mapping s1 with_mapping]. rewrite Hids, ids_as_numbers.
  rewrite (py_max_below (sorted Nat.leb (seq 0 k)) k);
    [|lia|intros n; rewrite sorted_elem, elem_of_seq; lia].
  destruct (generate_sharded_data_segments data (Z.of_nat (k - 1 + 2)))
    as (segs & Hgen & _ & Hlen & Hcat & _); [lia|].
  rewrite Hgen. replace (Z.to_nat (Z.of_nat (k - 1 + 2))) with (k + 1) in Hlen by lia.
  fold s1. set (s4 := built_from segs s1).
  assert (Hkeys4 : forall i, i < k + 1 -> str i ∈ dict_keys (persisted s4)).
  { intros i Hi. apply (proj1 (shards_written_keys segs s1) i). rewrite Hlen. exact Hi. }
  assert (Hfiles4 : forall i d, segs !! i = Some d -> shard_files s4 !! str i = Some d).
  { exact (proj1 (proj2 (proj2 (shards_written_spec py_int py_int_str segs s1)))). }
  split.
  - assert (Hcopies := sync_replication_copies py_int py_int_str s4).
    unfold primaries_in_id_order.
    rewrite (mapM_Some_2 _ _ segs); [rewrite Hcat; reflexivity|].
    rewrite <- Hlen. apply Forall2_same_length_lookup_2.
    + rewrite length_seq. reflexivity.
    + intros i n d Hn Hd. apply lookup_seq in Hn as [-> Hi]. cbn [Nat.add].
      destruct (Hcopies (str i)) as [E|(src & p & j & j0 & _ & _ & _ & Hnot & _)].
      * rewrite E. apply Hfiles4, Hd.
      * exfalso. apply Hnot. split; [apply Hkeys4; lia|].
        unfold on_disk. rewrite (Hfiles4 i d Hd). eauto.
  - intros i Hi. assert (Hspec := sync_replication_spec py_int py_int_str s4).
    unfold wp in Hspec. destruct (sync_replication py_int s4) as [[u|e] s'].
    + destruct Hspec as ((_ & Hget & _) & (fd & G & _ & Hfile & _)). cbn [snd].
      unfold persisted at 1. rewrite Hfile.
      destruct (proj2 (dict_get_keys (str i) (persisted s4))) as [v Hv]; [apply Hkeys4; lia|].
      apply dict_get_keys. rewrite (Hget _ _ Hv). eauto.
    + destruct Hspec as (_ & Hfile & _). cbn [snd].
      unfold persisted at 1. rewrite Hfile. apply (Hkeys4 i). lia.
Qed.

(** ** Removing the last shard *)

Lemma sorted_insert_last (y x : string) (A : list string) (c : nat) :
  String.leb y x = true ->
  sorted_insert String.leb y (A ++ replicate c x)
  = sorted_insert String.leb y A ++ replicate c x.
Proof.
  intros Hle. induction A as [|a A IH]; cbn.
  - destruct c as [|c]; cbn; [reflexivity|]. rewrite Hle. reflexivity.
  - destruct (String.leb y a); [reflexivity|]. cbn. rewrite IH. reflexivity.
Qed.

Lemma sorted_insert_max (x : string) (A : list string) (c : nat) :
  String.leb x x = true ->
  (forall y, y ∈ A -> String.leb x y = false) ->
  sorted_insert String.leb x (A ++ replicate c x) = A ++ replicate (S c) x.
Proof.
  intros Hxx Hmax. induction A as [|a A IH]; cbn.
  - destruct c as [|c]; cbn; [reflexivity|]. rewrite Hxx. reflexivity.
  - rewrite (Hmax a) by apply list_elem_of_here. f_equal.
    apply IH. intros y Hy. apply Hmax, list_elem_of_further, Hy.
Qed.

(** [get_shard_ids] before and after [mapping.pop(x)], for a primary
    key [x] that sorts after every other primary key. *)
Lemma shard_ids_pop (x : string) (m : dict string Range) :
  has_dash x = false -> String.leb x x = true ->
  (forall y, y ∈ dict_keys m -> has_dash y = false -> String.leb y x = true) ->
  (forall y, y ∈ dict_keys m -> has_dash y = false -> y <> x -> String.leb x y = false) ->
  exists c, get_shard_ids_of m = get_shard_ids_of (dict_remove x m) ++ replicate c x.
Proof.
  intros Hx Hxx Hle Hmax. induction m as [|[k v] m IH].
  - exists 0. reflexivity.
  - destruct IH as [c IH].
    { intros y Hy. apply Hle, list_elem_of_further, Hy. }
    { intros y Hy. apply Hmax, list_elem_of_further, Hy. }
    unfold get_shard_ids_of in *. cbn [dict_keys map fst List.filter dict_remove].
    fold (dict_keys m). destruct (decide (x = k)) as [<-|Hne].
    + rewrite Hx. cbn [negb sorted fold_right]. fold (sorted String.leb).
      exists (S c). unfold sorted in IH. rewrite IH. apply sorted_insert_max; [exact Hxx|].
      intros y Hy. apply sorted_elem in Hy.
      apply list_elem_of_In, filter_In in Hy as [Hy Hd]. apply list_elem_of_In in Hy.
      apply negb_true_iff in Hd.
      assert (Hyx : y <> x).
      { intros ->. apply dict_get_keys in Hy. rewrite dict_get_remove_eq in Hy.
        destruct Hy. discriminate. }
      apply Hmax; [|assumption|assumption].
      apply list_elem_of_further. apply dict_get_keys.
      apply dict_get_keys in Hy. rewrite dict_get_remove_ne in Hy by congruence. exact Hy.
    + cbn [dict_keys map fst List.filter]. fold (dict_keys (dict_remove x m)).
      destruct (has_dash k) eqn:Hk; cbn [negb].
      * exists c. exact IH.
      * exists c. cbn [sorted fold_right]. fold (sorted String.leb).
        unfold sorted in IH. rewrite IH. apply sorted_insert_last.
        apply Hle; [apply list_elem_of_here|exact Hk].
Qed.

Lemma app_replicate_last (x : string) (A S : list string) (c : nat) :
  A ++ replicate c x = S ++ [x] -> x ∉ A -> x ∉ S -> A = S.
Proof.
  revert S. induction A as [|a A IH]; intros S E HA HS.
  - destruct S as [|b S]; [reflexivity|]. exfalso. cbn in E.
    destruct c as [|c]; [discriminate|]. cbn in E. injection E as <- _.
    apply HS, list_elem_of_here.
  - destruct S as [|b S]; cbn in E.
    + injection E as -> _. exfalso. apply HA, list_elem_of_here.
    + injection E as -> E. f_equal. apply (IH S E).
      * intros H. apply HA, list_elem_of_further, H.
      * intros H. apply HS, list_elem_of_further, H.
Qed.

Lemma leb_digits (i k : nat) :
  i <= k -> k <= 9 ->
  String.leb (str i) (str k) = true /\ (i < k -> String.leb (str k) (str i) = false).
Proof.
  intros Hik Hk.
  do 10 (destruct k as [|k];
         [do 10 (destruct i as [|i];
                 [first [exfalso; lia
                        |vm_compute; split; [reflexivity|intros; first [reflexivity|lia]]]|]);
          lia|]).
  lia.
Qed.

Lemma str_not_empty (n : nat) : str n <> "".
Proof.
  intros E. pose proof (NilEmpty.usu (Nat.to_uint n)) as Hu.
  fold (str n) in Hu. rewrite E in Hu. cbn in Hu. injection Hu as Hu.
  pose proof (DecimalNat.Unsigned.of_to n) as Hof. rewrite <- Hu in Hof.
  cbn in Hof. subst n. discriminate.
Qed.

Lemma get_shard_data_known (s : ShardHandler) (key : string) (r : Range) :
  key <> "" -> dict_get key (mapping s) = Some r ->
  get_shard_data (Some key) s = (Ok (ShardInfo key r), s).
Proof.
  intros Hne Hget. destruct key as [|c rest]; [contradiction|].
  unfold get_shard_data, bind, gets, ret. rewrite Hget. reflexivity.
Qed.

(** The primaries that are left when the last one of at most ten is
    popped. *)
Lemma shard_ids_pop_last (m : dict string Range) (k : nat) :
  k <= 9 ->
  get_shard_ids_of m = map str (seq 0 (k + 1)) ->
  get_shard_ids_of (dict_remove (str k) m) = map str (seq 0 k).
Proof.
  intros Hk Hids.
  assert (Hprim : forall y, y ∈ dict_keys m -> has_dash y = false ->
            exists i, i <= k /\ y = str i).
  { intros y Hy Hd.
    assert (Hin : y ∈ get_shard_ids_of m) by (apply get_shard_ids_elem; auto).
    rewrite Hids in Hin. apply list_elem_of_fmap in Hin as (i & -> & Hi).
    apply elem_of_seq in Hi. exists i. split; [lia|reflexivity]. }
  destruct (shard_ids_pop (str k) m) as [c Hc].
  - apply str_no_dash.
  - apply (leb_digits k k); lia.
  - intros y Hy Hd. destruct (Hprim y Hy Hd) as (i & Hi & ->). apply (leb_digits i k); lia.
  - intros y Hy Hd Hne. destruct (Hprim y Hy Hd) as (i & Hi & ->).
    apply (leb_digits i k); [lia|lia|].
    destruct (decide (i = k)) as [->|]; [congruence|lia].
  - rewrite Hids, Nat.add_1_r, seq_S, map_app in Hc. cbn [map Nat.add] in Hc.
    symmetry in Hc. apply app_replicate_last in Hc; [assumption| |].
    + intros Hin. apply get_shard_ids_elem in Hin as [Hin _].
      apply dict_get_keys in Hin. rewrite dict_get_remove_eq in Hin.
      destruct Hin. discriminate.
    + apply (str_not_in_seq py_int py_int_str).
Qed.

(** [max_key]: the highest shard id among the keys of the catalog. *)
Lemma first_parts_all (l : list string) :
  (forall key, key ∈ l -> shard_key key) ->
  exists firsts,
    map_result (fun key_ => rbind (py_index (split_dash key_) 0) (int py_int)) l
    = Ok firsts /\
    forall n, n ∈ firsts <->
      exists key, key ∈ l /\ (key = str n \/ exists j, key = replica_key (str n) j).
Proof.
  intros Hwf.
  assert (Hfirst : forall key n, key = str n \/ (exists j, key = replica_key (str n) j) ->
            rbind (py_index (split_dash key) 0) (int py_int) = Ok n).
  { intros key n [->|[j ->]].
    - rewrite (split_dash_no_dash _ (str_no_dash n)). cbn. unfold int.
      rewrite py_int_str. reflexivity.
    - unfold replica_key. rewrite append_cons, append_empty.
      rewrite split_dash_append by apply str_no_dash. cbn. unfold int.
      rewrite py_int_str. reflexivity. }
  destruct (map_result_ok
              (fun key_ => rbind (py_index (split_dash key_) 0) (int py_int)) l)
    as (firsts & Hrun & Hmem).
  { intros key Hkey. destruct (Hwf key Hkey) as (n & [->|(j & _ & ->)]);
      exists n; apply Hfirst; eauto. }
  exists firsts. split; [exact Hrun|]. intros n. rewrite Hmem. split.
  - intros (key & Hkey & Hn). exists key. split; [exact Hkey|].
    destruct (Hwf key Hkey) as (n' & [->|(j & _ & ->)]).
    + rewrite (Hfirst (str n') n') in Hn by auto. injection Hn as ->. auto.
    + rewrite (Hfirst (replica_key (str n') j) n') in Hn by eauto. injection Hn as ->. eauto.
  - intros (key & Hkey & Hn). exists key. split; [exact Hkey|]. apply Hfirst, Hn.
Qed.

(** X21. On a handler whose mapping is the persisted catalog,
    with well-formed keys, at most ten primaries '0' .. str(k) whose
    files hold the corpus, which holds no carriage return, and no
    replica of a higher shard id,
    [remove_shard] leaves the corpus in the files of the primaries
    0 .. k-1, which the persisted catalog holds, and neither a file nor
    a persisted entry for primary [k], whatever replicas the catalog
    holds and whether the closing [sync_replication] returns or
    raises. *)
Theorem remove_shard_keeps_corpus (s : ShardHandler) (k : nat) (data : list ascii) :
  mapfile s = Some (mapping s) ->
  (forall key, key ∈ dict_keys (mapping s) -> shard_key key) ->
  get_shard_ids_of (mapping s) = map str (seq 0 (k + 1)) ->
  (forall n j, has_replica (mapping s) n j -> n <= k) ->
  1 <= k <= 9 ->
  primaries_in_id_order (k + 1) s = Some data -> CR ∉ data ->
  let s' := after (remove_shard py_int) s in
  primaries_in_id_order k s' = Some data /\
  shard_files s' !! str k = None /\
  (forall i, i < k -> str i ∈ dict_keys (persisted s')) /\
  str k ∉ dict_keys (persisted s').
Proof.
  intros Hfile Hwf Hids Hrep Hk Hdata Hcr. cbn zeta. unfold after.
  unfold primaries_in_id_order in Hdata.
  destruct (mapM (fun n => shard_files s !! str n) (seq 0 (k + 1))) as [contents|] eqn:Hread;
    [|discriminate].
  injection Hdata as Hdata.
  assert (Hlast : is_Some (shard_files s !! str k)).
  { assert (H : is_Some (mapM (fun n => shard_files s !! str n) (seq 0 (k + 1))))
      by (rewrite Hread; eauto).
    apply mapM_is_Some_1 in H. rewrite Forall_forall in H.
    apply (H k). apply elem_of_seq. lia. }
  destruct Hlast as [d Hd].
  assert (Hin : str k ∈ dict_keys (mapping s)).
  { apply (get_shard_ids_elem (mapping s) (str k)). rewrite Hids.
    apply list_elem_of_fmap. exists k. split; [reflexivity|]. apply elem_of_seq. lia. }
  apply dict_get_keys in Hin as [r Hget].
  destruct (first_parts_all (dict_keys (mapping s)) Hwf) as (firsts & Hfirsts & Hmem).
  assert (Hmax : py_max firsts = Ok k).
  { replace (Ok k) with (@Ok nat (k + 1 - 1)) by (f_equal; lia).
    apply py_max_below; [lia|].
    intros n. rewrite Hmem. split.
    - intros (key & Hkey & [->|[j ->]]).
      + assert (H : str n ∈ get_shard_ids_of (mapping s))
          by (apply get_shard_ids_elem; auto using str_no_dash).
        rewrite Hids in H. apply list_elem_of_fmap in H as (i & E & Hi).
        apply (str_inj py_int py_int_str) in E. subst i. apply elem_of_seq in Hi. lia.
      + specialize (Hrep n j Hkey). lia.
    - intros Hn. exists (str n). split; [|auto].
      apply (get_shard_ids_elem (mapping s) (str n)). rewrite Hids.
      apply list_elem_of_fmap. exists n. split; [reflexivity|]. apply elem_of_seq. lia. }
  destruct (generate_sharded_data_segments data (Z.of_nat (k - 1 + 1)))
    as (segs & Hgen & _ & Hlen & Hcat & _); [lia|].
  replace (Z.to_nat (Z.of_nat (k - 1 + 1))) with k in Hlen by lia.
  assert (Hload : with_mapping (match mapfile s with Some m => m | None => [] end) s = s).
  { rewrite Hfile. destruct s. reflexivity. }
  pose (s2 := with_mapping (dict_remove (str k) (mapping s)) s).
  pose (s3 := with_shard_files (delete (str k) (shard_files s)) s2).
  pose (s4 := built_from segs s3).
  assert (Hrun : remove_shard py_int s = sync_replication py_int s4).
  { unfold remove_shard. unfold bind at 1.
    rewrite load_data_from_shards_run, Hids, mapM_fmap_list, Hread.
    rewrite universal_newlines_segments, Hdata by (rewrite Hdata; exact Hcr).
    unfold bind at 1, load_map, gets.
    unfold bind at 1, modify. rewrite Hload.
    unfold bind at 1, get_all_shard_data, gets.
    unfold bind at 1, lift. rewrite Hfirsts.
    unfold bind at 1, lift. rewrite Hmax.
    unfold bind at 1.
    rewrite (get_shard_data_known s (str k) r (str_not_empty k) Hget).
    unfold bind at 1, gets. rewrite Hget.
    unfold bind at 1, modify. fold s2.
    unfold bind at 1.
    unfold sorted_int_shard_ids, bind at 1, get_shard_ids, gets.
    cbn [mapping s2 with_mapping].
    rewrite (shard_ids_pop_last (mapping s) k) by (lia || assumption).
    unfold bind at 1, lift. rewrite ids_as_numbers. unfold ret.
    unfold bind at 1, lift.
    rewrite (py_max_below (sorted Nat.leb (seq 0 k)) k);
      [|lia|intros n; rewrite sorted_elem, elem_of_seq; lia].
    unfold bind at 1. rewrite Hgen.
    unfold bind at 1, remove_file.
    cbn [shard_files s2 with_mapping]. rewrite Hd.
    unfold bind at 1. rewrite (write_shards_run py_int py_int_str).
    unfold bind at 1, write_map, modify. reflexivity. }
  rewrite Hrun. clear Hrun.
  assert (Hkeys4 : forall i, i < k -> str i ∈ dict_keys (persisted s4)).
  { intros i Hi. apply (proj1 (shards_written_keys segs s3) i). rewrite Hlen. exact Hi. }
  assert (Hfiles4 : forall i d, segs !! i = Some d -> shard_files s4 !! str i = Some d).
  { exact (proj1 (proj2 (proj2 (shards_written_spec py_int py_int_str segs s3)))). }
  assert (Hgone4 : shard_files s4 !! str k = None).
  { cbn [s4 built_from shard_files with_mapfile].
    rewrite (proj1 (proj2 (proj2 (proj2 (shards_written_spec py_int py_int_str segs s3))))).
    - cbn [s3 shard_files with_shard_files]. apply lookup_delete_eq.
    - intros i Hi E. apply (str_inj py_int py_int_str) in E. lia. }
  assert (Hnokey4 : str k ∉ dict_keys (persisted s4)).
  { intros Hin.
    apply (proj2 (proj2 (shards_written_keys segs s3))) in Hin as [Hin|(i & Hi & E)].
    - cbn [s3 s2 mapping with_shard_files with_mapping] in Hin.
      apply dict_get_keys in Hin. rewrite dict_get_remove_eq in Hin.
      destruct Hin. discriminate.
    - apply (str_inj py_int py_int_str) in E. lia. }
  assert (Hnot_new : ~ new_replica py_int (persisted s4) (str k)).
  { intros (p & j & _ & _ & _ & E & _).
    assert (H := replica_key_has_dash p j). rewrite <- E, str_no_dash in H. discriminate. }
  assert (Hcopies := sync_replication_copies py_int py_int_str s4).
  assert (Hspec := sync_replication_spec py_int py_int_str s4).
  unfold wp in Hspec.
  assert (Hgrows : sync_grows py_int s4 (sync_replication py_int s4).2 /\
                   (persisted (sync_replication py_int s4).2
                      = mapping (sync_replication py_int s4).2 \/
                    persisted (sync_replication py_int s4).2 = persisted s4)).
  { destruct (sync_replication py_int s4) as [[u|e] s']; cbn [snd].
    - destruct Hspec as (Hg & (fd & G & _ & Hf & _)). split; [exact Hg|].
      left. unfold persisted. rewrite Hf. reflexivity.
    - destruct Hspec as (Hg & Hf & _). split; [exact Hg|].
      right. unfold persisted. rewrite Hf. reflexivity. }
  clear Hspec. destruct Hgrows as ((_ & Hget' & _ & Hkeys' & Hdisk') & Hpers).
  set (s' := (sync_replication py_int s4).2) in *.
  split; [|split; [|split]].
  - unfold primaries_in_id_order.
    rewrite (mapM_Some_2 _ _ segs); [rewrite Hcat; reflexivity|].
    rewrite <- Hlen. apply Forall2_same_length_lookup_2.
    + rewrite length_seq. reflexivity.
    + intros i n d0 Hn Hd0. apply lookup_seq in Hn as [-> Hi]. cbn [Nat.add].
      destruct (Hcopies (str i)) as [E|(src & p & j & j0 & _ & _ & _ & Hnot & _)].
      * fold s' in E. rewrite E. apply Hfiles4, Hd0.
      * exfalso. apply Hnot. split; [apply Hkeys4; lia|].
        unfold on_disk. rewrite (Hfiles4 i d0 Hd0). eauto.
  - destruct (shard_files s' !! str k) as [c|] eqn:Hc; [|reflexivity]. exfalso.
    destruct (Hdisk' (str k)) as [H|[H|H]].
    + unfold on_disk. rewrite Hc. eauto.
    + unfold on_disk in H. rewrite Hgone4 in H. destruct H. discriminate.
    + exact (Hnokey4 H).
    + exact (Hnot_new H).
  - intros i Hi.
    destruct (proj2 (dict_get_keys (str i) (persisted s4))) as [v Hv]; [apply Hkeys4; lia|].
    destruct Hpers as [-> | ->]; [|apply Hkeys4; lia].
    apply dict_get_keys. rewrite (Hget' _ _ Hv). eauto.
  - intros Hin. destruct Hpers as [E|E]; rewrite E in Hin; [|exact (Hnokey4 Hin)].
    destruct (Hkeys' _ Hin) as [H|H]; [exact (Hnokey4 H)|exact (Hnot_new H)].
Qed.
End Corpus.
(** * The replica manager: removing a level that every shard has *)

Section RemoveLevel.
Variable py_int : string -> option nat.
Hypothesis py_int_str : forall n, py_int (str n) = Some n.

(** X22. In a consistent state in which every replica has
    its primary in the catalog and every primary has a replica,
    [remove_replication] returns; the catalog it leaves is persisted,
    the primaries are in it and their files are as they were, and every
    key of it has a file with the content that a file of a key of the
    same shard had before the call. *)
Theorem remove_replication_returns (s : ShardHandler) :
  consistent s ->
  (forall n j, has_replica (persisted s) n j -> str n ∈ dict_keys (persisted s)) ->
  (forall n, str n ∈ dict_keys (persisted s) -> exists j, has_replica (persisted s) n j) ->
  exists s', remove_replication py_int s = (Ok tt, s') /\
    persisted s' = mapping s' /\
    (forall n, str n ∈ dict_keys (persisted s) ->
       str n ∈ dict_keys (mapping s') /\
       shard_files s' !! str n = shard_files s !! str n) /\
    (forall k, k ∈ dict_keys (mapping s') ->
       exists src p j j0 c,
         src ∈ dict_keys (persisted s) /\ key_parse py_int src = Ok (p, j0) /\
         key_parse py_int k = Ok (p, j) /\
         shard_files s !! src = Some c /\ shard_files s' !! k = Some c).
Proof.
  intros [Hwf Hfiles Hprim] Hparent Hreplica.
  set (s1 := with_mapping (persisted s) s).
  destruct (replication_levels_spec py_int py_int_str s1 Hwf Hprim)
    as (key_rep & Hlevels & Hnd & Hlvl & Hhas & Hrep).
  cbn [mapping s1 with_mapping] in Hlvl, Hhas, Hrep.
  assert (Hpos := fun n j => has_replica_positive py_int py_int_str (persisted s) n j Hwf).
  assert (Hentry : forall n lvl, (n, lvl) ∈ key_rep ->
            0 < lvl /\ has_replica (persisted s) n lvl).
  { intros n lvl Hin. apply (dict_get_elem n lvl key_rep Hnd) in Hin.
    destruct (Hlvl n lvl Hin) as [[[-> Hn]|Hr] Hmax].
    - exfalso. destruct (Hreplica n Hn) as [j Hj].
      specialize (Hmax j Hj). specialize (Hpos n j Hj). lia.
    - split; [exact (Hpos n lvl Hr)|exact Hr]. }
  assert (Hloop := removal_loop py_int py_int_str s1 key_rep Hnd).
  unfold remove_replication, bind at 1, load_map, gets. fold (persisted s).
  unfold bind at 1, modify. fold s1.
  unfold bind at 1. rewrite Hlevels.
  unfold bind at 1.
  destruct (for_each key_rep (remove_top_replica) s1) as [[[]|e] s3] eqn:Hrun.
  2:{ exfalso. refine (_ (wp_run _ _ _ _ _ _ (Hloop _) Hrun)).
      - intros (_ & done & n & rest & Hsplit & _).
        destruct (Hentry n 0) as [H _]; [|lia].
        rewrite Hsplit. apply elem_of_app. right. apply list_elem_of_here.
      - intros n lvl Hin _. destruct (Hentry n lvl Hin) as [_ Hr].
        split; [exact Hr|apply Hfiles, Hr]. }
  assert (Hinv : removal_inv s1 key_rep s3).
  { refine (proj1 (wp_run _ _ _ _ _ _ (Hloop _) Hrun)).
    intros n lvl Hin _. destruct (Hentry n lvl Hin) as [_ Hr].
    split; [exact Hr|apply Hfiles, Hr]. }
  clear Hloop.
  unfold bind at 1, write_map, modify.
  set (s4 := with_mapfile (Some (mapping s3)) s3).
  assert (Hkept : forall k, k ∈ dict_keys (persisted s4) <->
            k ∈ dict_keys (persisted s) /\ k ∉ removed key_rep).
  { intros k. change (persisted s4) with (mapping s3).
    rewrite <- !dict_get_keys, (removal_mapping _ _ _ Hinv k).
    cbn [mapping s1 with_mapping].
    destruct (bool_decide (k ∈ removed key_rep)) eqn:Hd.
    - apply bool_decide_eq_true in Hd. split; [intros [? ?]; discriminate|tauto].
    - apply bool_decide_eq_false in Hd. tauto. }
  assert (Hfile4 : forall k, k ∉ removed key_rep ->
            shard_files s4 !! k = shard_files s !! k).
  { intros k Hk. cbn [s4 shard_files with_mapfile].
    rewrite (removal_files _ _ _ Hinv k).
    rewrite bool_decide_eq_false_2 by exact Hk. reflexivity. }
  assert (Hplain : forall n, str n ∉ removed key_rep).
  { intros n Hin. apply removed_elem in Hin as (n' & lvl & _ & E).
    symmetry in E. exact (replica_key_not_str n' lvl n E). }
  assert (Hprimary4 : forall n, str n ∈ dict_keys (persisted s) ->
            str n ∈ dict_keys (persisted s4) /\ on_disk s4 (str n)).
  { intros n Hn. split; [apply Hkept; auto|].
    unfold on_disk. rewrite (Hfile4 _ (Hplain n)). apply Hfiles, Hn. }
  destruct (sync_repairs_run py_int py_int_str s4)
    as (s' & Hsync & Hfile' & _ & Hkeep & Hcontent).
  { intros k Hk. destruct (proj1 (Hkept k) Hk) as [Hk0 _].
    destruct (Hwf k Hk0) as (n & [->|(j & Hj & ->)]).
    - destruct (Hprimary4 n Hk0) as [Hn4 Hd4].
      exists (str n), 0, (str n), 0.
      split; [apply key_parse_no_dash, str_no_dash|]. split; [assumption|].
      split; [assumption|]. split; [apply key_parse_no_dash, str_no_dash|assumption].
    - destruct (Hprimary4 n (Hparent n j Hk0)) as [Hn4 Hd4].
      exists (str n), j, (str n), 0.
      split; [apply (key_parse_replica_key py_int py_int_str), str_no_dash|].
      split; [assumption|]. split; [assumption|].
      split; [apply key_parse_no_dash, str_no_dash|assumption]. }
  exists s'. split; [exact Hsync|]. split; [|split].
  - unfold persisted. rewrite Hfile'. reflexivity.
  - intros n Hn. destruct (Hprimary4 n Hn) as [Hn4 Hd4]. split; [apply Hkeep, Hn4|].
    assert (Hcopies := sync_replication_copies py_int py_int_str s4).
    rewrite Hsync in Hcopies. cbn [snd] in Hcopies.
    destruct (Hcopies (str n)) as [E|(src & p & j & j0 & _ & _ & _ & Hnot & _)].
    + rewrite E. apply Hfile4, Hplain.
    + exfalso. apply Hnot. auto.
  - intros k Hk.
    destruct (Hcontent k Hk) as (src & p & j & j0 & c & Hsrc & Hps & Hpk & Hc & Hc').
    apply Hkept in Hsrc as [Hsrc Hnot]. rewrite (Hfile4 src Hnot) in Hc.
    exists src, p, j, j0, c. auto.
Qed.
End RemoveLevel.

(** An instance: two shards with one replica each. *)
Lemma remove_replication_returns_witness :
  exists s', remove_replication int_of_digits two_replicated = (Ok tt, s') /\
    persisted s' = mapping s' /\
    (forall n, str n ∈ dict_keys (persisted two_replicated) ->
       str n ∈ dict_keys (mapping s') /\
       shard_files s' !! str n = shard_files two_replicated !! str n) /\
    (forall k, k ∈ dict_keys (mapping s') ->
       exists src p j j0 c,
         src ∈ dict_keys (persisted two_replicated) /\
         key_parse int_of_digits src = Ok (p, j0) /\
         key_parse int_of_digits k = Ok (p, j) /\
         shard_files two_replicated !! src = Some c /\ shard_files s' !! k = Some c).
Proof.
  assert (Hkeys : dict_keys (persisted two_replicated)
                  = [str 0; str 1; replica_key (str 0) 1; replica_key (str 1) 1])
    by (vm_compute; reflexivity).
  apply (remove_replication_returns int_of_digits int_of_digits_str two_replicated).
  - exact two_replicated_consistent.
  - intros n j Hr. unfold has_replica in Hr. rewrite Hkeys in Hr. rewrite Hkeys.
    repeat (apply elem_of_cons in Hr as [E|Hr]); [| | | |inversion Hr].
    + exfalso. exact (replica_key_not_str n j 0 E).
    + exfalso. exact (replica_key_not_str n j 1 E).
    + apply (replica_key_str_inj int_of_digits int_of_digits_str) in E as [-> _].
      apply list_elem_of_here.
    + apply (replica_key_str_inj int_of_digits int_of_digits_str) in E as [-> _].
      apply list_elem_of_further, list_elem_of_here.
  - intros n Hn. exists 1. unfold has_replica.
    destruct (two_replicated_primaries n Hn) as [-> | ->]; rewrite Hkeys.
    + apply list_elem_of_further, list_elem_of_further, list_elem_of_here.
    + apply list_elem_of_further, list_elem_of_further, list_elem_of_further,
        list_elem_of_here.
Defined.
(** * The ranges of the replicas *)

Lemma mirrors_refl (m : dict string Range) : mirrors m m.
Proof. intros k v H. auto. Qed.

Lemma mirrors_trans (m0 m1 m2 : dict string Range) :
  (forall p, has_dash p = false -> dict_get p m1 = dict_get p m0) ->
  mirrors m0 m1 -> mirrors m1 m2 -> mirrors m0 m2.
Proof.
  intros Hplain H01 H12 k v Hk.
  destruct (H12 k v Hk) as [H|(p & j & Hp & -> & Hv)]; [auto|].
  right. exists p, j. rewrite <- (Hplain p Hp). auto.
Qed.

Section Ranges.
Variable py_int : string -> option nat.
Hypothesis py_int_str : forall n, py_int (str n) = Some n.

(** Writing the catalog entry of a replica of a primary key. *)
Lemma write_replica_mirrors (m0 : dict string Range) p j data s :
  has_dash p = false ->
  (forall p', has_dash p' = false -> dict_get p' (mapping s) = dict_get p' m0) ->
  mirrors m0 (mapping s) ->
  let s' := snd (_write_shard_mapping py_int (replica_key p j) data true s) in
  (forall p', has_dash p' = false -> dict_get p' (mapping s') = dict_get p' m0) /\
  mirrors m0 (mapping s') /\
  shard_files s' = shard_files s /\ mapfile s' = mapfile s.
Proof.
  intros Hp Hplain Hm. cbn zeta. rewrite (write_replica_mapping py_int) by exact Hp.
  destruct (dict_get p (mapping s)) as [parent|] eqn:Hparent; cbn [snd]; [|auto].
  cbn [mapping with_mapping shard_files mapfile]. split; [|split; [|auto]].
  - intros p' Hp'. rewrite dict_get_set_ne; [auto|].
    intros E. rewrite <- E, replica_key_has_dash in Hp'. discriminate.
  - intros k v. destruct (decide (replica_key p j = k)) as [<-|Hne].
    + rewrite dict_get_set_eq. intros [= <-]. right. exists p, j.
      split; [exact Hp|]. split; [reflexivity|].
      rewrite <- (Hplain p Hp), Hparent. destruct parent. reflexivity.
    + rewrite dict_get_set_ne by exact Hne. apply Hm.
Qed.

(** The second loop of [sync_replication] only adds entries that
    mirror a primary's. *)
Lemma fill_mirrors s1 fd G :
  (forall p, p ∈ dict_keys fd -> has_dash p = false) ->
  let J := fun s =>
    (forall p, has_dash p = false -> dict_get p (mapping s) = dict_get p (mapping s1)) /\
    mirrors (mapping s1) (mapping s) in
  wp (for_fold (dict_keys fd) fd (sync_fill_primary py_int G))
     (fun _ s => J s) (fun _ s => J s) s1.
Proof.
  intros Hdash J.
  eapply wp_mono; [| |apply (wp_for_fold (dict_keys fd) (sync_fill_primary py_int G)
                              (fun _ _ s => J s) (fun _ s => J s))].
  - intros fl s H. exact H.
  - intros e s H. exact H.
  - intros done p rest fl s Hsplit HJ.
    assert (Hp : has_dash p = false).
    { apply Hdash. rewrite Hsplit. apply elem_of_app. right. apply list_elem_of_here. }
    unfold sync_fill_primary. destruct (dict_get p fl) as [g|]; [|exact HJ].
    eapply wp_mono; [| |apply (wp_for_fold (range2 (max_rep g + 1) (G + 1)) _
                                (fun _ _ s' => J s') (fun _ s' => J s'))].
    + intros fl' s' H. exact H.
    + intros e s' H. exact H.
    + intros done_j j rest_j fl' s' _ [HJ1 HJ2].
      change (p +:+ "-" +:+ str j) with (replica_key p j).
      assert (H := write_replica_mirrors (mapping s1) p j [] s' Hp HJ1 HJ2).
      cbn zeta in H. unfold wp, bind.
      destruct (_write_shard_mapping py_int (replica_key p j) [] true s') as [[u|e] s''];
        cbn [snd] in H; unfold ret; split; apply H.
    + exact HJ.
  - split; [reflexivity|apply mirrors_refl].
Qed.

Lemma sync_mirrors (s : ShardHandler) :
  mirrors (persisted s) (mapping (snd (sync_replication py_int s))) /\
  mirrors (persisted s) (persisted (snd (sync_replication py_int s))).
Proof.
  assert (Hspec := sync_replication_spec py_int py_int_str s). unfold wp in Hspec.
  assert (Hmem : mirrors (persisted s) (mapping (snd (sync_replication py_int s)))).
  { rewrite (sync_replication_unfold py_int). cbn zeta.
    destruct (fold_result _ _ _) as [[fd G]|e] eqn:Hfold; [|apply mirrors_refl].
    destruct (scan_inv_fold py_int _ _ _ _ Hfold) as (_ & Hgroups & _). cbn [fst snd].
    assert (Hfill := fill_mirrors (with_mapping (persisted s) s) fd G).
    cbn zeta in Hfill. unfold wp in Hfill.
    assert (Hcopy := fun fl s2 => copy_loop fl s2). unfold wp in Hcopy.
    destruct (for_fold _ _ _ _) as [[fl|e] s2].
    - specialize (Hcopy fl s2).
      destruct (for_each _ _ _) as [[[]|e] s3]; cbn [snd mapping with_mapfile].
      + destruct Hcopy as [Hinv _]. rewrite (copy_mapping _ _ _ Hinv).
        apply Hfill. intros p Hp. apply dict_get_keys in Hp as [g Hg].
        apply (Hgroups p g Hg).
      + destruct Hcopy as [_ Hinv]. rewrite (copy_mapping _ _ _ Hinv).
        apply Hfill. intros p Hp. apply dict_get_keys in Hp as [g Hg].
        apply (Hgroups p g Hg).
    - cbn [snd]. apply Hfill. intros p Hp. apply dict_get_keys in Hp as [g Hg].
      apply (Hgroups p g Hg). }
  split; [exact Hmem|].
  destruct (sync_replication py_int s) as [[u|e] s']; cbn [snd] in *.
  - destruct Hspec as (_ & (fd & G & _ & Hfile & _)).
    unfold persisted at 2. rewrite Hfile. exact Hmem.
  - destruct Hspec as (_ & Hfile & _).
    unfold persisted at 2. rewrite Hfile. apply mirrors_refl.
Qed.

(** X23. Whether [sync_replication] returns or raises, every
    entry of the catalog it leaves, in memory and in [mapping.json], is
    an entry of the catalog it loaded, or the entry of a replica key
    with the range that the loaded catalog has for the key's primary. *)
Theorem sync_replication_ranges (s : ShardHandler) :
  let s' := after (sync_replication py_int) s in
  mirrors (persisted s) (mapping s') /\ mirrors (persisted s) (persisted s').
Proof. cbn zeta. unfold after. apply sync_mirrors. Qed.

(** ** [add_replication] *)

Lemma replication_levels_pure s : snd (replication_levels py_int s) = s.
Proof.
  unfold replication_levels, sorted_int_shard_ids, get_shard_ids, get_replication_ids,
    bind, gets, lift, ret.
  destruct (map_result (int py_int) _); [|reflexivity].
  destruct (py_max _); [|reflexivity].
  destruct (map_result _ _); reflexivity.
Qed.

Lemma new_level_mirrors (key_rep : dict nat nat) (data : list ascii) s1 :
  let J := fun s =>
    (forall p, has_dash p = false -> dict_get p (mapping s) = dict_get p (mapping s1)) /\
    mirrors (mapping s1) (mapping s) /\
    shard_files s = shard_files s1 /\ mapfile s = mapfile s1 in
  wp (for_each key_rep (fun kv =>
        _write_shard_mapping py_int (str (fst kv) +:+ "-" +:+ str (snd kv + 1)) data true))
     (fun _ s => J s) (fun _ s => J s) s1.
Proof.
  intros J.
  eapply wp_mono; [| |apply (wp_for_each key_rep _ (fun _ s => J s) (fun _ s => J s))].
  - intros u s H. exact H.
  - intros e s H. exact H.
  - intros done [n lvl] rest s _ (HJ1 & HJ2 & HJ3 & HJ4). cbn [fst snd].
    change (str n +:+ "-" +:+ str (lvl + 1)) with (replica_key (str n) (lvl + 1)).
    assert (H := write_replica_mirrors (mapping s1) (str n) (lvl + 1) data s
                   (str_no_dash n) HJ1 HJ2).
    cbn zeta in H. unfold wp.
    destruct (_write_shard_mapping py_int (replica_key (str n) (lvl + 1)) data true s)
      as [[u|e] s'']; cbn [snd] in H; destruct H as (H1 & H2 & H3 & H4);
      (split; [exact H1|]; split; [exact H2|]; split; congruence).
  - split; [reflexivity|]. split; [apply mirrors_refl|]. split; reflexivity.
Qed.

Lemma mirror_loop_mapping (l : list string) s2 :
  wp (for_each l (fun key =>
        if has_dash key then
          write_file key [] >>
          let! i := lift (match index_dash key with
                          | Some i => Ok i
                          | None => Raise ValueError
                          end) in
          copyfile (Some (str_prefix i key)) key
        else ret tt))
     (fun _ s => mapping s = mapping s2 /\ mapfile s = mapfile s2)
     (fun _ s => mapping s = mapping s2 /\ mapfile s = mapfile s2) s2.
Proof.
  eapply wp_mono; [| |apply (wp_for_each l _
    (fun _ s => mapping s = mapping s2 /\ mapfile s = mapfile s2)
    (fun _ s => mapping s = mapping s2 /\ mapfile s = mapfile s2))].
  - intros u s H. exact H.
  - intros e s H. exact H.
  - intros done key rest s _ [Hm Hf]. unfold wp.
    destruct (has_dash key); [|exact (conj Hm Hf)].
    unfold bind, write_file, modify, lift.
    destruct (index_dash key) as [i|]; [|exact (conj Hm Hf)].
    unfold copyfile. cbn [shard_files with_shard_files].
    destruct (_ !! str_prefix i key) as [c|]; [|exact (conj Hm Hf)].
    destruct (decide (str_prefix i key = key)); exact (conj Hm Hf).
  - split; reflexivity.
Qed.

(** X24. Whether [add_replication] returns or raises, every
    entry of the catalog it leaves, in memory and in [mapping.json], is
    an entry of the catalog it loaded, or the entry of a replica key
    with the range that the loaded catalog has for the key's primary. *)
Theorem add_replication_ranges (s : ShardHandler) :
  let s' := after (add_replication py_int) s in
  mirrors (persisted s) (mapping s') /\ mirrors (persisted s) (persisted s').
Proof.
  cbn zeta. unfold after.
  set (s1 := with_mapping (persisted s) s).
  pose (Q := fun s' => mirrors (persisted s) (mapping s') /\
                       mirrors (persisted s) (persisted s')).
  change (Q (snd (add_replication py_int s))).
  assert (Hstart : Q s1) by (split; apply mirrors_refl).
  unfold add_replication, bind at 1, load_map, gets. fold (persisted s).
  unfold bind at 1, modify. fold s1.
  unfold bind at 1. assert (Hpure := replication_levels_pure s1).
  destruct (replication_levels py_int s1) as [[key_rep|e] s1'] eqn:Hlevels;
    cbn [snd] in Hpure; subst s1'; [|exact Hstart].
  unfold bind at 1. rewrite load_data_from_shards_run.
  destruct (mapM _ _) as [contents|]; [|exact Hstart].
  unfold bind at 1.
  assert (Hloop1 := new_level_mirrors key_rep (concat (map universal_newlines contents)) s1).
  cbn zeta in Hloop1. unfold wp in Hloop1.
  destruct (for_each key_rep _ s1) as [[[]|e] s2].
  2:{ destruct Hloop1 as (_ & H & _ & Hf). cbn [snd]. split; [exact H|].
      unfold persisted at 2. rewrite Hf. apply mirrors_refl. }
  destruct Hloop1 as (Hplain & Hm2 & _ & Hf2).
  unfold bind at 1, gets. unfold bind at 1.
  assert (Hloop2 := mirror_loop_mapping (dict_keys (mapping s2)) s2). unfold wp in Hloop2.
  destruct (for_each (dict_keys (mapping s2)) _ s2) as [[[]|e] s3].
  2:{ destruct Hloop2 as [Hm3 Hf3]. cbn [snd]. split; [rewrite Hm3; exact Hm2|].
      unfold persisted at 2. rewrite Hf3, Hf2. apply mirrors_refl. }
  destruct Hloop2 as [Hm3 Hf3].
  unfold bind at 1, write_map, modify.
  set (s4 := with_mapfile (Some (mapping s3)) s3).
  destruct (sync_mirrors s4) as [Hmem Hpers].
  change (persisted s4) with (mapping s3) in Hmem, Hpers. rewrite Hm3 in Hmem, Hpers.
  split; eapply mirrors_trans; eauto.
Qed.
End Ranges.
(** * Instances *)

(** An instance: seven characters in three shards, on an empty disk. *)
Lemma build_shards_result_witness :
  let s' := after (build_shards int_of_digits 3 (chars "ABCDEFG")) fresh in
  outcome (build_shards int_of_digits 3 (chars "ABCDEFG")) fresh = Ok None /\
  dict_keys (mapping s') = map str (seq 0 3) /\
  mapfile s' = Some (mapping s') /\
  (exists segs, _generate_sharded_data 3 (chars "ABCDEFG") = Ok segs /\
     forall i segment, segs !! i = Some segment ->
       shard_files s' !! str i = Some segment) /\
  primaries_in_id_order 3 s' = Some (chars "ABCDEFG") /\
  (forall k, (forall i, i < 3 -> k <> str i) ->
     shard_files s' !! k = shard_files fresh !! k).
Proof.
  apply (build_shards_result int_of_digits int_of_digits_str fresh (chars "ABCDEFG") 3);
    [reflexivity|lia].
Defined.

(** An instance: the range of shard 1 of three over seven characters. *)
Lemma build_shards_ranges_witness :
  dict_get "1" (mapping (after (build_shards int_of_digits 3 (chars "ABCDEFG")) fresh))
  = Some (mkRange 3 4).
Proof.
  apply (build_shards_ranges int_of_digits int_of_digits_str fresh (chars "ABCDEFG") 3 1);
    [reflexivity|lia|vm_compute; lia].
Defined.

(** An instance: ten shards over eleven characters. *)
Lemma build_then_load_witness :
  outcome load_data_from_shards
          (after (build_shards int_of_digits 10 (chars "ABCDEFGHIJK")) fresh)
  = Ok (chars "ABCDEFGHIJK").
Proof.
  apply (build_then_load int_of_digits int_of_digits_str fresh (chars "ABCDEFGHIJK") 10);
    [reflexivity|lia|apply (bool_decide_unpack _); vm_compute; exact I].
Defined.

Lemma two_replicated_mapping_keys :
  dict_keys (mapping two_replicated) = ["0"; "1"; "0-1"; "1-1"].
Proof. vm_compute. reflexivity. Qed.

(** An instance: two shards with one replica each. *)
Lemma sync_replication_settled_witness :
  sync_replication int_of_digits two_replicated = (Ok tt, two_replicated).
Proof.
  apply (sync_replication_settled int_of_digits two_replicated).
  - vm_compute. reflexivity.
  - intros k Hk. rewrite two_replicated_mapping_keys in Hk.
    repeat (apply elem_of_cons in Hk as [->|Hk]); [| | | |inversion Hk];
      vm_compute; eauto.
  - intros k Hk. rewrite two_replicated_mapping_keys.
    rewrite two_replicated_mapping_keys in Hk.
    assert (Hlevel : replication_level int_of_digits (mapping two_replicated) = 1)
      by (vm_compute; reflexivity).
    rewrite Hlevel.
    repeat (apply elem_of_cons in Hk as [->|Hk]); [| | | |inversion Hk].
    + exists "0", 0, "0-1". split; [reflexivity|]. split; [|reflexivity].
      apply list_elem_of_further, list_elem_of_further, list_elem_of_here.
    + exists "1", 0, "1-1". split; [reflexivity|]. split; [|reflexivity].
      apply list_elem_of_further, list_elem_of_further, list_elem_of_further,
        list_elem_of_here.
    + exists "0", 1, "0-1". split; [reflexivity|]. split; [|reflexivity].
      apply list_elem_of_further, list_elem_of_further, list_elem_of_here.
    + exists "1", 1, "1-1". split; [reflexivity|]. split; [|reflexivity].
      apply list_elem_of_further, list_elem_of_further, list_elem_of_further,
        list_elem_of_here.
Defined.

(** An instance: from two shards to three. *)
Lemma build_then_add_shard_witness :
  add_shard int_of_digits (after (build_shards int_of_digits 2 (chars "ABCDEFG")) fresh)
  = (Ok tt, after (build_shards int_of_digits (2 + 1) (chars "ABCDEFG")) fresh).
Proof.
  apply (build_then_add_shard int_of_digits int_of_digits_str fresh (chars "ABCDEFG") 2);
    [reflexivity|lia|apply (bool_decide_unpack _); vm_compute; exact I].
Defined.

(** An instance: from three shards to two. *)
Lemma build_then_remove_shard_witness :
  remove_shard int_of_digits
    (after (build_shards int_of_digits (2 + 1) (chars "ABCDEFG")) fresh)
  = (Ok tt,
     after (build_shards int_of_digits 2 (chars "ABCDEFG"))
           (with_shard_files (delete (str (Z.to_nat 2)) (shard_files fresh)) fresh)).
Proof.
  apply (build_then_remove_shard int_of_digits int_of_digits_str fresh (chars "ABCDEFG") 2);
    [reflexivity|lia|apply (bool_decide_unpack _); vm_compute; exact I].
Defined.

(** An instance: nine shards, then ten, then nine again. *)
Lemma build_add_remove_shard_witness :
  let built := after (build_shards int_of_digits 9 (chars "ABCDEFGHIJK")) in
  remove_shard int_of_digits (after (add_shard int_of_digits) (built fresh))
  = (Ok tt, built (with_shard_files (delete (str (Z.to_nat 9)) (shard_files fresh)) fresh)).
Proof.
  apply (build_add_remove_shard int_of_digits int_of_digits_str fresh
           (chars "ABCDEFGHIJK") 9); [reflexivity|lia|apply (bool_decide_unpack _); vm_compute; exact I].
Defined.

Lemma sync_uneven_returns :
  sync_replication int_of_digits uneven
  = (Ok tt, after (sync_replication int_of_digits) uneven).
Proof. vm_compute. reflexivity. Qed.

(** An instance: shard 1 lacks the replica that shard 0 has. *)
Lemma sync_replication_returns_witness :
  let s' := after (sync_replication int_of_digits) uneven in
  mapfile s' = Some (mapping s') /\
  (forall k, k ∈ dict_keys (mapping s') -> on_disk s' k) /\
  (forall k, k ∈ dict_keys (mapping s') ->
     k ∈ dict_keys (persisted uneven) \/ new_replica int_of_digits (persisted uneven) k) /\
  (forall k, on_disk s' k ->
     on_disk uneven k \/ k ∈ dict_keys (persisted uneven) \/
     new_replica int_of_digits (persisted uneven) k).
Proof.
  apply (sync_replication_returns int_of_digits int_of_digits_str uneven).
  exact sync_uneven_returns.
Defined.

Lemma sync_lost_shard_raises :
  sync_replication int_of_digits lost_shard
  = (Raise FileNotFoundError, after (sync_replication int_of_digits) lost_shard).
Proof. vm_compute. reflexivity. Qed.

(** An instance: the only shard has no file left. *)
Lemma sync_replication_raises_witness :
  (FileNotFoundError = ValueError \/ FileNotFoundError = TypeError \/
   FileNotFoundError = FileNotFoundError \/ FileNotFoundError = SameFileError) /\
  mapfile (after (sync_replication int_of_digits) lost_shard) = mapfile lost_shard.
Proof.
  apply (sync_replication_raises int_of_digits int_of_digits_str lost_shard).
  exact sync_lost_shard_raises.
Defined.

(** An instance: shard 1 reaches the index 1 of the replica of shard 0. *)
Lemma sync_replication_levels_witness :
  exists k2 j2,
    k2 ∈ dict_keys (mapping (after (sync_replication int_of_digits) uneven)) /\
    key_parse int_of_digits k2 = Ok ("1", j2) /\ 1 <= j2.
Proof.
  apply (sync_replication_levels int_of_digits int_of_digits_str uneven _ "1" "0-1" "1" "0" 0 1).
  - exact sync_uneven_returns.
  - vm_compute. apply list_elem_of_further, list_elem_of_further, list_elem_of_here.
  - reflexivity.
  - vm_compute. apply list_elem_of_further, list_elem_of_here.
  - reflexivity.
Defined.

(** An instance: the files around the new replica of shard 1. *)
Lemma sync_replication_content_witness :
  let s' := after (sync_replication int_of_digits) uneven in
  (forall k c, k ∈ dict_keys (persisted uneven) -> shard_files uneven !! k = Some c ->
     shard_files s' !! k = Some c) /\
  (forall k c, shard_files s' !! k = Some c ->
     shard_files uneven !! k = Some c \/
     exists src p j j0,
       src ∈ dict_keys (persisted uneven) /\ key_parse int_of_digits src = Ok (p, j0) /\
       key_parse int_of_digits k = Ok (p, j) /\ shard_files uneven !! src = Some c).
Proof.
  apply (sync_replication_content int_of_digits int_of_digits_str uneven).
Defined.

(** An instance: primary 0 is restored from its replica 0-1. *)
Lemma sync_replication_repairs_witness :
  exists s', sync_replication int_of_digits lost_primary = (Ok tt, s') /\
    forall k, k ∈ dict_keys (mapping s') ->
      exists src p j j0 c,
        src ∈ dict_keys (persisted lost_primary) /\
        key_parse int_of_digits src = Ok (p, j0) /\
        key_parse int_of_digits k = Ok (p, j) /\
        shard_files lost_primary !! src = Some c /\ shard_files s' !! k = Some c.
Proof.
  apply (sync_replication_repairs int_of_digits int_of_digits_str lost_primary).
  intros k Hk.
  assert (Hkeys : dict_keys (persisted lost_primary) = ["0"; "0-1"]) by reflexivity.
  rewrite Hkeys in Hk. rewrite Hkeys.
  assert (Hfile : on_disk lost_primary "0-1") by (vm_compute; eauto).
  repeat (apply elem_of_cons in Hk as [->|Hk]); [| |inversion Hk].
  - exists "0", 0, "0-1", 1. split; [reflexivity|]. split; [apply list_elem_of_here|].
    split; [apply list_elem_of_further, list_elem_of_here|]. split; [reflexivity|exact Hfile].
  - exists "0", 1, "0-1", 1. split; [reflexivity|]. split; [apply list_elem_of_here|].
    split; [apply list_elem_of_further, list_elem_of_here|]. split; [reflexivity|exact Hfile].
Defined.

(** An instance: nothing was built. *)
Lemma add_shard_no_primary_witness :
  add_shard int_of_digits fresh = (Raise ValueError, with_mapping (persisted fresh) fresh).
Proof.
  apply (add_shard_no_primary int_of_digits int_of_digits_str fresh).
  intros key Hkey. inversion Hkey.
Defined.

(** An instance: one shard of three characters. *)
Lemma remove_shard_last_primary_witness :
  let built := after (build_shards int_of_digits 1 (chars "ABC")) fresh in
  remove_shard int_of_digits built = (Raise ValueError, with_mapping [] built).
Proof.
  apply (remove_shard_last_primary int_of_digits int_of_digits_str fresh (chars "ABC")).
  reflexivity.
Defined.

(** An instance: a count of -2. *)
Lemma build_shards_nonpositive_witness :
  build_shards int_of_digits (-2) (chars "ABC") fresh
  = (Ok None, with_mapfile (Some []) fresh).
Proof.
  apply (build_shards_nonpositive int_of_digits int_of_digits_str fresh (chars "ABC") (-2));
    [reflexivity|lia].
Defined.

(** An instance: shard 0 has a replica, shard 1 has none yet. *)
Lemma add_replication_mirrors_witness :
  exists s', add_replication int_of_digits uneven = (Ok tt, s') /\
    persisted s' = mapping s' /\
    (forall k, k ∈ dict_keys (persisted uneven) -> k ∈ dict_keys (mapping s')) /\
    (forall n, str n ∈ dict_keys (persisted uneven) ->
       exists j, has_replica (mapping s') n j /\
                 forall j', has_replica (persisted uneven) n j' -> j' < j) /\
    (forall k, k ∈ dict_keys (mapping s') ->
       exists n j c,
         key_parse int_of_digits k = Ok (str n, j) /\
         str n ∈ dict_keys (persisted uneven) /\
         shard_files uneven !! str n = Some c /\ shard_files s' !! k = Some c).
Proof.
  assert (Hkeys : dict_keys (persisted uneven) = [str 0; replica_key (str 0) 1; str 1])
    by reflexivity.
  apply (add_replication_mirrors int_of_digits int_of_digits_str uneven).
  - intros k Hk. rewrite Hkeys in Hk.
    repeat (apply elem_of_cons in Hk as [->|Hk]); [| | |inversion Hk].
    + exists 0. left. reflexivity.
    + exists 0. right. exists 1. split; [lia|reflexivity].
    + exists 1. left. reflexivity.
  - intros n j Hr. unfold has_replica in Hr. rewrite Hkeys in Hr. rewrite Hkeys.
    repeat (apply elem_of_cons in Hr as [E|Hr]); [| | |inversion Hr].
    + exfalso. exact (replica_key_not_str n j 0 E).
    + apply (replica_key_str_inj int_of_digits int_of_digits_str) in E as [-> _].
      apply list_elem_of_here.
    + exfalso. exact (replica_key_not_str n j 1 E).
  - intros n Hn. rewrite Hkeys in Hn.
    repeat (apply elem_of_cons in Hn as [E|Hn]); [| | |inversion Hn].
    + rewrite E. vm_compute. eauto.
    + exfalso. symmetry in E. exact (replica_key_not_str 0 1 n E).
    + rewrite E. vm_compute. eauto.
  - exists 0. rewrite Hkeys. apply list_elem_of_here.
Defined.

(** An instance: a third shard for two replicated ones. *)
Lemma add_shard_keeps_corpus_witness :
  let s' := after (add_shard int_of_digits) two_replicated in
  primaries_in_id_order (2 + 1) s' = Some (chars "AB") /\
  forall i, i <= 2 -> str i ∈ dict_keys (persisted s').
Proof.
  apply (add_shard_keeps_corpus int_of_digits int_of_digits_str two_replicated 2 (chars "AB")).
  - vm_compute. reflexivity.
  - lia.
  - vm_compute. reflexivity.
  - apply (bool_decide_unpack _). vm_compute. exact I.
Defined.

(** An instance: two replicated shards become one. *)
Lemma remove_shard_keeps_corpus_witness :
  let s' := after (remove_shard int_of_digits) two_replicated in
  primaries_in_id_order 1 s' = Some (chars "AB") /\
  shard_files s' !! str 1 = None /\
  (forall i, i < 1 -> str i ∈ dict_keys (persisted s')) /\
  str 1 ∉ dict_keys (persisted s').
Proof.
  assert (Hkeys : dict_keys (mapping two_replicated)
                  = [str 0; str 1; replica_key (str 0) 1; replica_key (str 1) 1])
    by (vm_compute; reflexivity).
  apply (remove_shard_keeps_corpus int_of_digits int_of_digits_str two_replicated 1
           (chars "AB")).
  - vm_compute. reflexivity.
  - intros key Hkey. rewrite Hkeys in Hkey.
    repeat (apply elem_of_cons in Hkey as [->|Hkey]); [| | | |inversion Hkey].
    + exists 0. left. reflexivity.
    + exists 1. left. reflexivity.
    + exists 0. right. exists 1. split; [lia|reflexivity].
    + exists 1. right. exists 1. split; [lia|reflexivity].
  - vm_compute. reflexivity.
  - intros n j Hr. unfold has_replica in Hr. rewrite Hkeys in Hr.
    repeat (apply elem_of_cons in Hr as [E|Hr]); [| | | |inversion Hr].
    + exfalso. exact (replica_key_not_str n j 0 E).
    + exfalso. exact (replica_key_not_str n j 1 E).
    + apply (replica_key_str_inj int_of_digits int_of_digits_str) in E as [-> _]. lia.
    + apply (replica_key_str_inj int_of_digits int_of_digits_str) in E as [-> _]. lia.
  - lia.
  - vm_compute. reflexivity.
  - apply (bool_decide_unpack _). vm_compute. exact I.
Defined.

(** An instance: the entry of the replica that shard 1 gets. *)
Lemma sync_replication_ranges_witness :
  let s' := after (sync_replication int_of_digits) uneven in
  mirrors (persisted uneven) (mapping s') /\ mirrors (persisted uneven) (persisted s').
Proof. apply (sync_replication_ranges int_of_digits int_of_digits_str uneven). Defined.

(** An instance: the entries of the replicas that both shards get. *)
Lemma add_replication_ranges_witness :
  let s' := after (add_replication int_of_digits) uneven in
  mirrors (persisted uneven) (mapping s') /\ mirrors (persisted uneven) (persisted s').
Proof. apply (add_replication_ranges int_of_digits int_of_digits_str uneven). Defined.

(** * The scenarios, evaluated *)

(** C3. [build_shards(4, "AAAABBBBCCCCDDDD")] on an empty catalog writes
    primaries 0..3 of four characters each, and records the ranges
    [0,4], [5,8], [9,12], [13,16]: the first range ends one past the
    shard's last character and every later range is shifted by one. *)
Example build_4x4_ranges :
  outcome (build_shards int_of_digits 4 (chars "AAAABBBBCCCCDDDD")) fresh = Ok None /\
  map (fun n => shard_files built_4x4 !! str n) (seq 0 4)
    = [Some (chars "AAAA"); Some (chars "BBBB"); Some (chars "CCCC"); Some (chars "DDDD")] /\
  mapping built_4x4
    = [("0", mkRange 0 4); ("1", mkRange 5 8); ("2", mkRange 9 12); ("3", mkRange 13 16)] /\
  mapfile built_4x4 = Some (mapping built_4x4).
Proof. vm_compute. auto. Qed.

(** C1. With eleven primaries [get_shard_ids] puts "10" before "2", so
    [load_data_from_shards] does not return the corpus, and the state
    that [add_shard] leaves no longer holds the corpus in id order. *)
Example load_data_eleven_shards :
  primaries_in_id_order 11 built_11 = Some (chars "ABCDEFGHIJK") /\
  get_shard_ids_of (mapping built_11)
    = ["0"; "1"; "10"; "2"; "3"; "4"; "5"; "6"; "7"; "8"; "9"] /\
  outcome load_data_from_shards built_11 = Ok (chars "ABKCDEFGHIJ") /\
  outcome (add_shard int_of_digits) built_11 = Ok tt /\
  primaries_in_id_order 12 (after (add_shard int_of_digits) built_11)
    = Some (chars "ABKCDEFGHIJ").
Proof. vm_compute. auto 6. Qed.

(** C2. [sync_replication] returns normally on a state in which replica
    0-1 differs from primary 0, and leaves the replica as it was. The
    state is the one [add_shard] produces from a replicated shard. *)
Example sync_keeps_divergent_replica :
  shard_files replicated_then_grown !! "0" = Some (chars "A") /\
  shard_files replicated_then_grown !! "0-1" = Some (chars "AB") /\
  outcome (sync_replication int_of_digits) replicated_then_grown = Ok tt /\
  shard_files (after (sync_replication int_of_digits) replicated_then_grown) !! "0"
    = Some (chars "A") /\
  shard_files (after (sync_replication int_of_digits) replicated_then_grown) !! "0-1"
    = Some (chars "AB").
Proof. vm_compute. auto 6. Qed.

(** C5. [remove_shard] on two replicated primaries removes primary 1
    and leaves its replica 1-1 in the catalog and on disk; the orphan
    makes the next [add_replication] raise [TypeError]. *)
Example remove_shard_keeps_replica :
  dict_keys (mapping two_replicated) = ["0"; "1"; "0-1"; "1-1"] /\
  outcome (remove_shard int_of_digits) two_replicated = Ok tt /\
  dict_keys (persisted (after (remove_shard int_of_digits) two_replicated))
    = ["0"; "0-1"; "1-1"] /\
  shard_files (after (remove_shard int_of_digits) two_replicated) !! "1" = None /\
  shard_files (after (remove_shard int_of_digits) two_replicated) !! "1-1"
    = Some (chars "B") /\
  outcome (add_replication int_of_digits)
          (after (remove_shard int_of_digits) two_replicated) = Raise TypeError.
Proof. vm_compute. auto 7. Qed.

(** C6. From ten primaries over eleven characters, [add_shard] followed
    by [remove_shard] returns to ten primaries whose concatenation is
    not the one they started from. *)
Example add_then_remove_shard_ten :
  primaries_in_id_order 10 built_10 = Some (chars "ABCDEFGHIJK") /\
  outcome (add_shard int_of_digits) built_10 = Ok tt /\
  outcome (remove_shard int_of_digits) (after (add_shard int_of_digits) built_10) = Ok tt /\
  primaries_in_id_order 10
    (after (remove_shard int_of_digits) (after (add_shard int_of_digits) built_10))
    = Some (chars "ABKCDEFGHIJ").
Proof. vm_compute. auto 6. Qed.

(** C7. In the consistent state [uneven], of replication level 1,
    shard 0 has the replica 0-1 and shard 1 has none.
    [remove_replication] raises [NameError] ("There is nothing left to
    remove!") there, although a replica is left to remove, and it does
    so after it has deleted the file of 0-1, so that [mapping.json]
    still lists 0-1 and the file is gone. On an empty catalog, of level
    0, it raises [ValueError] and not [NameError]. *)
Example remove_replication_uneven :
  consistent uneven /\
  replication_level int_of_digits (persisted uneven) = 1 /\
  outcome (remove_replication int_of_digits) uneven = Raise NameError /\
  shard_files uneven !! "0-1" = Some (chars "A") /\
  shard_files (after (remove_replication int_of_digits) uneven) !! "0-1" = None /\
  dict_keys (persisted (after (remove_replication int_of_digits) uneven))
    = ["0"; "0-1"; "1"] /\
  replication_level int_of_digits (persisted fresh) = 0 /\
  outcome (remove_replication int_of_digits) fresh = Raise ValueError.
Proof.
  split; [|vm_compute; auto 8].
  assert (E : dict_keys (persisted uneven) = ["0"; "0-1"; "1"]) by reflexivity.
  split.
  - intros k Hk. rewrite E in Hk.
    repeat (apply elem_of_cons in Hk as [->|Hk]); [| | |inversion Hk].
    + exists 0. left. reflexivity.
    + exists 0. right. exists 1. split; [lia|reflexivity].
    + exists 1. left. reflexivity.
  - intros k Hk. rewrite E in Hk.
    repeat (apply elem_of_cons in Hk as [->|Hk]); [| | |inversion Hk];
      vm_compute; eauto.
  - exists 0. rewrite E. apply list_elem_of_here.
Qed.

(** C9, as stated, fails: the response to an unknown key lists the
    primary ids and leaves out the replica id 0-1. *)
Example get_shard_data_unknown_key :
  dict_get "7" (mapping uneven) = None /\
  "0-1" ∈ get_replication_ids_of (mapping uneven) /\
  exists ids, outcome (get_shard_data (Some "7")) uneven = Ok (InvalidShardID ids) /\
              "0-1" ∉ ids.
Proof.
  split; [reflexivity|]. split; [apply list_elem_of_here|].
  exists ["0"; "1"]. split; [reflexivity|].
  intros H. repeat (apply elem_of_cons in H as [H|H]; [discriminate|]). inversion H.
Qed.
